(** * Sales analytics pipeline: cleaning, streaming aggregation, bounded rankings

    A shallow embedding of [src/pipeline/ingestion.py], [cleaning.py],
    [transformation.py], [orchestrator.py] and [utils/config.py].

    Python values are modelled as the code has them: [int] is [Z],
    [float] is the binary64 type [float] of the Floats library, [str] is
    [string], a [dict] is an insertion-ordered association list (CPython
    dictionaries keep insertion order, and the top-product ranking depends on
    it), and an exception raised inside a method is a value of [exn] returned
    next to the state reached when it was raised. *)

From Stdlib Require Import ZArith List String Ascii Bool Lia Floats.
From Stdlib Require Import Permutation Sorted.
Import ListNotations.
Local Open Scope Z_scope.

Set Implicit Arguments.

(** ** Python runtime: exceptions, numbers, strings, sorting *)

Module Py.

Inductive exn : Type :=
| ValueError
| TypeError
| OverflowError
| ZeroDivisionError
| IndexError.

Inductive result (A : Type) : Type :=
| Ok (a : A)
| Raise (e : exn).
Arguments Ok {A} a.
Arguments Raise {A} e.

Definition rbind {A B} (r : result A) (k : A -> result B) : result B :=
  match r with
  | Ok a => k a
  | Raise e => Raise e
  end.

(** *** Floats *)

Definition is_nan (x : float) : bool := PrimFloat.is_nan x.

(** [x > y], [x >= y] on floats. *)
Definition fgt (x y : float) : bool := PrimFloat.ltb y x.
Definition fge (x y : float) : bool := PrimFloat.leb y x.

(** [float(n)] for an [int] of any size: round to nearest, ties to even;
    [OverflowError] when the rounded value does not fit binary64. *)
Definition float_of_Z (n : Z) : float :=
  SF2Prim (binary_normalize prec emax n 0 false).

Definition float_of_int (n : Z) : result float :=
  let f := float_of_Z n in
  if PrimFloat.is_infinity f then Raise OverflowError else Ok f.

(** The exact value of a finite float is [m * 2^e]; this pair scales an
    integer [z] and the float to a common power of two. *)
Definition Zcompare_float (z : Z) (f : float) : option comparison :=
  match Prim2SF f with
  | S754_nan => None
  | S754_zero _ => Some (z ?= 0)
  | S754_infinity s => Some (if s then Gt else Lt)
  | S754_finite s m e =>
      let v := if s then Z.neg m else Z.pos m in
      Some (if 0 <=? e then z ?= v * 2 ^ e else z * 2 ^ (- e) ?= v)
  end.

(** [z > f] and [f > z] for an [int] against a [float]: CPython compares
    the exact values, without converting the integer. *)
Definition int_gt_float (z : Z) (f : float) : bool :=
  match Zcompare_float z f with Some Gt => true | _ => false end.

Definition float_gt_int (f : float) (z : Z) : bool :=
  match Zcompare_float z f with Some Lt => true | _ => false end.

Definition float_ge_int (f : float) (z : Z) : bool :=
  match Zcompare_float z f with Some Lt | Some Eq => true | _ => false end.

(** [int(f)] for a float: truncation toward zero; infinities and NaN raise. *)
Definition int_of_float (f : float) : result Z :=
  match Prim2SF f with
  | S754_nan => Raise ValueError
  | S754_infinity _ => Raise OverflowError
  | S754_zero _ => Ok 0
  | S754_finite s m e =>
      let a := if 0 <=? e then Z.pos m * 2 ^ e else Z.pos m / 2 ^ (- e) in
      Ok (if s then - a else a)
  end.

(** [a / b] on two [int]s (true division): the correctly rounded quotient.
    The quotient is computed with at least 55 significant bits and a sticky
    bit, then rounded once. *)
Definition int_truediv (a b : Z) : result float :=
  if b =? 0 then Raise ZeroDivisionError
  else
    let neg := xorb (a <? 0) (b <? 0) in
    let a' := Z.abs a in
    let b' := Z.abs b in
    let k := Z.max 0 (Z.log2 b' - Z.log2 a' + 56) in
    let q := (a' * 2 ^ k) / b' in
    let sticky := if (a' * 2 ^ k) mod b' =? 0 then 0 else 1 in
    let m := 2 * q + sticky in
    let f := SF2Prim (binary_normalize prec emax (if neg then - m else m)
                                       (- (k + 1)) neg) in
    if PrimFloat.is_infinity f then Raise OverflowError else Ok f.

(** [x / n] for a float and an [int]: the integer is converted first. *)
Definition float_div_int (x : float) (n : Z) : result float :=
  rbind (float_of_int n) (fun d =>
    if n =? 0 then Raise ZeroDivisionError else Ok (x / d)%float).

(** [x * n] for a float and a small integer literal. *)
Definition fmul_int (x : float) (n : Z) : float := (x * float_of_Z n)%float.

(** *** Strings

    A [str] is a [string] of one-byte characters; the character classes
    below are CPython's for the ASCII range. *)

Definition isspace (c : ascii) : bool :=
  let n := N_of_ascii c in
  ((9 <=? n) && (n <=? 13) || (28 <=? n) && (n <=? 32))%N.

Definition isdigit (c : ascii) : bool :=
  let n := N_of_ascii c in ((48 <=? n) && (n <=? 57))%N.

Definition isupper (c : ascii) : bool :=
  let n := N_of_ascii c in ((65 <=? n) && (n <=? 90))%N.

Definition islower (c : ascii) : bool :=
  let n := N_of_ascii c in ((97 <=? n) && (n <=? 122))%N.

Definition to_lower (c : ascii) : ascii :=
  if isupper c then ascii_of_N (N_of_ascii c + 32) else c.

Definition to_upper (c : ascii) : ascii :=
  if islower c then ascii_of_N (N_of_ascii c - 32) else c.

Fixpoint lstrip (s : string) : string :=
  match s with
  | String c t => if isspace c then lstrip t else s
  | EmptyString => EmptyString
  end.

Fixpoint rstrip (s : string) : string :=
  match s with
  | String c t =>
      match rstrip t with
      | EmptyString => if isspace c then EmptyString else String c EmptyString
      | t' => String c t'
      end
  | EmptyString => EmptyString
  end.

(** [s.strip()] *)
Definition strip (s : string) : string := rstrip (lstrip s).

(** [s.lower()] *)
Fixpoint lower (s : string) : string :=
  match s with
  | String c t => String (to_lower c) (lower t)
  | EmptyString => EmptyString
  end.

(** [s.title()]: a cased character is upper-cased when the previous
    character is not cased, lower-cased otherwise. *)
Fixpoint title_from (prev_cased : bool) (s : string) : string :=
  match s with
  | String c t =>
      let cased := isupper c || islower c in
      String (if prev_cased then to_lower c else to_upper c) (title_from cased t)
  | EmptyString => EmptyString
  end.

Definition title (s : string) : string := title_from false s.

(** [s.startswith(c)] for a one-character prefix. *)
Definition startswith (c : ascii) (s : string) : bool :=
  match s with
  | String d _ => Ascii.eqb c d
  | EmptyString => false
  end.

(** [re.sub(r'[^\d]', '', s)] *)
Fixpoint digits_only (s : string) : string :=
  match s with
  | String c t => if isdigit c then String c (digits_only t) else digits_only t
  | EmptyString => EmptyString
  end.

Fixpoint int_of_digits (acc : Z) (s : string) : Z :=
  match s with
  | String c t => int_of_digits (10 * acc + (Z.of_N (N_of_ascii c) - 48)) t
  | EmptyString => acc
  end.

(** [int(s)] for a string of decimal digits: [ValueError] on the empty one. *)
Definition int_of_digit_string (s : string) : result Z :=
  match s with
  | EmptyString => Raise ValueError
  | _ => Ok (int_of_digits 0 s)
  end.

Fixpoint contains (c : ascii) (s : string) : bool :=
  match s with
  | String d t => Ascii.eqb c d || contains c t
  | EmptyString => false
  end.

(** [s.split(c)[-1]]: what follows the last occurrence of [c]. *)
Fixpoint after_last (c : ascii) (s : string) : string :=
  match s with
  | String d t =>
      if Ascii.eqb c d
      then (if contains c t then after_last c t else t)
      else (if contains c t then after_last c t else s)
  | EmptyString => EmptyString
  end.

(** *** Sorting and slicing

    [list.sort] and [sorted] are stable, also with [reverse=True]: elements
    whose keys compare equal keep their order.  [lt a b] is [key(a) < key(b)],
    the only comparison the sort performs.  For keys that are totally
    pre-ordered by [lt] a stable sort has one possible result, which is the one
    computed here; keys holding a NaN are outside that case. *)

Section Sort.
Variable A : Type.
Variable lt : A -> A -> bool.

Fixpoint insert_desc (x : A) (l : list A) : list A :=
  match l with
  | [] => [x]
  | y :: t => if lt x y then y :: insert_desc x t else x :: l
  end.

Fixpoint sort_desc (l : list A) : list A :=
  match l with
  | [] => []
  | x :: t => insert_desc x (sort_desc t)
  end.
End Sort.

(** [l[:n]] *)
Definition slice_to (A : Type) (n : Z) (l : list A) : list A :=
  if 0 <=? n then firstn (Z.to_nat n) l
  else firstn (Z.to_nat (Z.of_nat (List.length l) + n)) l.

(** *** Dictionaries with a default factory ([defaultdict]) *)

Section Dict.
Variables K V : Type.
Variable eqb : K -> K -> bool.

Definition dict := list (K * V).

Fixpoint dict_get (d : dict) (k : K) : option V :=
  match d with
  | [] => None
  | (k', v) :: t => if eqb k k' then Some v else dict_get t k
  end.

(** [d[k] = f(d[k])], the entry being created from [dflt] at the end of
    the dictionary when [k] is new. *)
Fixpoint dict_update (k : K) (dflt : V) (f : V -> V) (d : dict) : dict :=
  match d with
  | [] => [(k, f dflt)]
  | (k', v) :: t =>
      if eqb k k' then (k', f v) :: t else (k', v) :: dict_update k dflt f t
  end.

Definition dict_keys (d : dict) : list K := map fst d.
End Dict.

End Py.

Import Py.
Local Open Scope string_scope.
Local Open Scope list_scope.
Local Open Scope Z_scope.

(** ** Data model *)

(** A field of a raw row: [csv.DictReader] yields strings (and [None] for a
    missing trailing field); callers and the tests also pass numbers. *)
Inductive pyval : Type :=
| PNone
| PInt (z : Z)
| PFloat (f : float)
| PStr (s : string).

Record datetime : Type := mkDatetime {
  year : Z; month : Z; day : Z; hour : Z; minute : Z; second : Z
}.

Record raw_row : Type := mkRaw {
  raw_order_id : pyval;
  raw_product_name : pyval;
  raw_category : pyval;
  raw_quantity : pyval;
  raw_unit_price : pyval;
  raw_discount_percent : pyval;
  raw_region : pyval;
  raw_sale_date : pyval;
  raw_customer_email : pyval
}.

(** A cleaned record, with the field types the cleaner produces.  A field is
    [None] when the dictionary holds Python's [None] under that key (or lacks
    the key, for the five fields the aggregator requires); a caller that omits
    ['product_name'], ['region'] or ['category'] is read as passing the
    default ["Unknown"]. *)
Record record : Type := mkRecord {
  order_id : pyval;
  product_name : option string;
  category : option string;
  region : option string;
  quantity : option Z;
  unit_price : option float;
  discount_percent : option float;
  sale_date : option datetime;
  customer_email : string;
  revenue : option float
}.

(** ** cleaning.py *)

Module DataCleaner.

Definition REGION_MAP : list (string * string) :=
  [ ("nort", "North"); ("north", "North"); ("nOrth", "North");
    ("sout", "South"); ("south", "South"); ("sOuth", "South");
    ("eas", "East"); ("east", "East"); ("eAst", "East");
    ("wes", "West"); ("west", "West"); ("wEst", "West") ].

Definition PRODUCT_NAME_MAP : list (string * string) :=
  [ ("laptop pro", "Laptop Pro 15");
    ("smartfone x", "Smartphone X");
    ("smart-phone x", "Smartphone X");
    ("smartphone-x", "Smartphone X");
    ("wirless headphones", "Wireless Headphones");
    ("wireless headphones", "Wireless Headphones");
    ("4k led tv", "4K LED TV");
    ("4ktv", "4K LED TV");
    ("4k led tv", "4K LED TV");
    ("blenderpro", "Blender Pro");
    ("blender pro", "Blender Pro");
    ("cofee maker elite", "Coffee Maker Elite");
    ("coffee maker elite", "Coffee Maker Elite");
    ("mens t-shirt (blue)", "Men's T-shirt (Blue)");
    ("t-shirt (blue)", "Men's T-shirt (Blue)") ].

Definition CATEGORY_MAP : list (string * string) :=
  [ ("electronics", "Electronics");
    ("home appliance", "Home Appliance");
    ("home appliances", "Home Appliance");
    ("fashion", "Fashion");
    ("clothing", "Fashion") ].

Record cleaner : Type := mkCleaner {
  records_processed : Z;
  records_dropped : Z
}.

(** [DataCleaner.__init__] *)
Definition init : cleaner := mkCleaner 0 0.

Definition _standardize_string (value : pyval) (mapping : list (string * string))
  : option string :=
  match value with
  | PStr s =>
      match strip s with
      | EmptyString => None
      | _ =>
          let clean_value := lower (strip s) in
          match dict_get String.eqb mapping clean_value with
          | Some canonical => Some canonical
          | None => Some (title clean_value)
          end
      end
  | _ => None
  end.

Definition _clean_quantity (value : pyval) : result (option Z) :=
  match value with
  | PInt z => Ok (if 0 <? z then Some z else None)
  | PFloat f =>
      if float_gt_int f 0
      then rbind (int_of_float f) (fun q => Ok (Some q))
      else Ok None
  | PStr s =>
      if startswith "-" (strip s) then Ok None
      else
        let cleaned_value := digits_only s in
        match int_of_digit_string cleaned_value with
        | Ok quantity => Ok (if 0 <? quantity then Some quantity else None)
        | Raise ValueError => Ok None
        | Raise e => Raise e
        end
  | PNone => Ok None
  end.

Definition _clean_email (value : pyval) : string :=
  match value with
  | PStr s =>
      match strip s with
      | EmptyString => "anonymous"
      | _ =>
          let email := lower (strip s) in
          if contains "@" email && contains "." (after_last "@" email)
          then email else "anonymous"
      end
  | _ => "anonymous"
  end.

Definition date_formats : list string :=
  [ "%Y-%m-%d %H:%M:%S"; "%Y/%m/%d"; "%Y-%m-%d";
    "%d-%b-%Y"; "%m/%d/%Y"; "%d/%m/%Y" ].

Section Parsers.
(** The two library parsers the cleaner calls: [float(s)] on a string and
    [datetime.strptime(s, fmt)], [None] standing for their [ValueError]. *)
Variable float_of_str : string -> option float.
Variable strptime : string -> string -> option datetime.

(** [float(value)]: [TypeError] for [None], [OverflowError] for an [int]
    too large, [ValueError] for a string that is no number. *)
Definition py_float (value : pyval) : result float :=
  match value with
  | PNone => Raise TypeError
  | PInt z => float_of_int z
  | PFloat f => Ok f
  | PStr s =>
      match float_of_str s with
      | Some f => Ok f
      | None => Raise ValueError
      end
  end.

Definition _clean_float (value : pyval) : result (option float) :=
  match py_float value with
  | Ok f => Ok (Some f)
  | Raise ValueError | Raise TypeError => Ok None
  | Raise e => Raise e
  end.

Definition _clean_discount (value : pyval) : result (option float) :=
  match py_float value with
  | Ok discount =>
      Ok (if (0 <=? discount)%float && (discount <=? 1)%float
          then Some discount else None)
  | Raise ValueError | Raise TypeError => Ok None
  | Raise e => Raise e
  end.

Fixpoint first_parse (s : string) (fmts : list string) : option datetime :=
  match fmts with
  | [] => None
  | fmt :: rest =>
      match strptime s fmt with
      | Some d => Some d
      | None => first_parse s rest
      end
  end.

Definition _clean_date (value : pyval) : option datetime :=
  match value with
  | PStr EmptyString => None
  | PStr s => first_parse (strip s) date_formats
  | _ => None
  end.

(** The body of the [try] block of [clean_record], after the counter
    increment: [Ok None] is the validation drop of step 5. *)
Definition clean_fields (row : raw_row) : result (option record) :=
  let product_name := _standardize_string (raw_product_name row) PRODUCT_NAME_MAP in
  let category := _standardize_string (raw_category row) CATEGORY_MAP in
  let region := _standardize_string (raw_region row) REGION_MAP in
  rbind (_clean_quantity (raw_quantity row)) (fun quantity =>
  rbind (_clean_float (raw_unit_price row)) (fun unit_price =>
  rbind (_clean_discount (raw_discount_percent row)) (fun discount_percent =>
  let sale_date := _clean_date (raw_sale_date row) in
  let customer_email := _clean_email (raw_customer_email row) in
  match quantity, unit_price, discount_percent, sale_date with
  | Some q, Some p, Some d, Some dt =>
      rbind (float_of_int q) (fun qf =>
      let revenue := (qf * p * (1 - d))%float in
      Ok (Some (mkRecord (raw_order_id row) product_name category region
                         (Some q) (Some p) (Some d) (Some dt)
                         customer_email (Some revenue))))
  | _, _, _, _ => Ok None
  end))).

Definition clean_record (row : raw_row) (c : cleaner) : option record * cleaner :=
  let c1 := mkCleaner (records_processed c + 1) (records_dropped c) in
  match clean_fields row with
  | Ok (Some r) => (Some r, c1)
  | Ok None => (None, mkCleaner (records_processed c1) (records_dropped c1 + 1))
  | Raise _ => (None, mkCleaner (records_processed c1) (records_dropped c1 + 1))
  end.
End Parsers.

Definition records_cleaned (c : cleaner) : Z :=
  records_processed c - records_dropped c.

End DataCleaner.

(** ** transformation.py *)

Module DataAggregator.

Record monthly_bucket : Type := mkMonthly {
  m_revenue : float;
  m_quantity : Z;
  m_total_discount : float;
  m_num_transactions : Z
}.

Record sales_bucket : Type := mkSales {
  s_revenue : float;
  s_quantity : Z
}.

Record category_bucket : Type := mkCategory {
  c_total_discount_revenue : float;
  c_total_revenue : float;
  c_num_transactions : Z
}.

Record stats (T : Type) : Type := mkStats {
  total : T;
  count : Z;
  values : list T
}.

(** The reason strings, by the rule that produced them and the numbers the
    message interpolates (the text formatting itself is not modelled). *)
Inductive reason : Type :=
| ExtremelyHighRevenue (revenue avg_revenue : float)
| UnusuallyHighQuantity (quantity : Z) (avg_quantity : float)
| ExtremelyHighUnitPrice (unit_price avg_price : float)
| SuspiciousHighDiscount (discount : float)
| HighValueItemLargeDiscount (unit_price discount : float)
| HighValueTransaction (revenue : float)
| LargeQuantityExpensive (quantity : Z) (unit_price : float).

(** [record.copy()] extended with the two anomaly keys; [a_revenue] is the
    copy's ['revenue'] entry, which the sort key reads. *)
Record anomaly_record : Type := mkAnomaly {
  a_record : record;
  a_revenue : float;
  anomaly_score : Z;
  anomaly_reasons : list reason
}.

Definition okey_eqb (a b : option string) : bool :=
  match a, b with
  | Some x, Some y => String.eqb x y
  | None, None => true
  | _, _ => false
  end.

Record aggregator : Type := mkAggregator {
  anomaly_limit : Z;
  top_products_limit : Z;
  monthly_sales : dict string monthly_bucket;
  product_sales : dict (option string) sales_bucket;
  region_sales : dict (option string) sales_bucket;
  category_discounts : dict (option string) category_bucket;
  anomaly_records : list anomaly_record;
  records_processed : Z;
  revenue_stats : stats float;
  quantity_stats : stats Z;
  price_stats : stats float
}.

(** [_reset_aggregations] on an object holding the two limits. *)
Definition _reset_aggregations (anomaly_limit top_products_limit : Z) : aggregator :=
  mkAggregator anomaly_limit top_products_limit [] [] [] [] [] 0
    (mkStats 0%float 0 []) (mkStats 0 0 []) (mkStats 0%float 0 []).

(** [__init__]: the two limits are stored as given, no argument is checked. *)
Definition init (anomaly_limit top_products_limit : Z) : result aggregator :=
  Ok (_reset_aggregations anomaly_limit top_products_limit).

(** Methods run on the aggregator's fields and may raise: what was assigned
    before the exception stays assigned. *)
Definition M (A : Type) : Type := aggregator -> result A * aggregator.

Definition ret {A} (a : A) : M A := fun s => (Ok a, s).
Definition raise {A} (e : exn) : M A := fun s => (Raise e, s).
Definition bind {A B} (c : M A) (k : A -> M B) : M B :=
  fun s => match c s with
           | (Ok a, s') => k a s'
           | (Raise e, s') => (Raise e, s')
           end.
Definition get : M aggregator := fun s => (Ok s, s).
Definition modify (f : aggregator -> aggregator) : M unit := fun s => (Ok tt, f s).
Definition lift {A} (r : result A) : M A := fun s => (r, s).

Notation "x <- c ;; k" := (bind c (fun x => k))
  (at level 61, c at next level, right associativity).
Notation "c ;; k" := (bind c (fun _ => k))
  (at level 61, right associativity).

Definition set_monthly_sales v s :=
  mkAggregator (anomaly_limit s) (top_products_limit s) v (product_sales s)
    (region_sales s) (category_discounts s) (anomaly_records s)
    (records_processed s) (revenue_stats s) (quantity_stats s) (price_stats s).
Definition set_product_sales v s :=
  mkAggregator (anomaly_limit s) (top_products_limit s) (monthly_sales s) v
    (region_sales s) (category_discounts s) (anomaly_records s)
    (records_processed s) (revenue_stats s) (quantity_stats s) (price_stats s).
Definition set_region_sales v s :=
  mkAggregator (anomaly_limit s) (top_products_limit s) (monthly_sales s)
    (product_sales s) v (category_discounts s) (anomaly_records s)
    (records_processed s) (revenue_stats s) (quantity_stats s) (price_stats s).
Definition set_category_discounts v s :=
  mkAggregator (anomaly_limit s) (top_products_limit s) (monthly_sales s)
    (product_sales s) (region_sales s) v (anomaly_records s)
    (records_processed s) (revenue_stats s) (quantity_stats s) (price_stats s).
Definition set_anomaly_records v s :=
  mkAggregator (anomaly_limit s) (top_products_limit s) (monthly_sales s)
    (product_sales s) (region_sales s) (category_discounts s) v
    (records_processed s) (revenue_stats s) (quantity_stats s) (price_stats s).
Definition set_records_processed v s :=
  mkAggregator (anomaly_limit s) (top_products_limit s) (monthly_sales s)
    (product_sales s) (region_sales s) (category_discounts s) (anomaly_records s)
    v (revenue_stats s) (quantity_stats s) (price_stats s).
Definition set_stats rv qv pv s :=
  mkAggregator (anomaly_limit s) (top_products_limit s) (monthly_sales s)
    (product_sales s) (region_sales s) (category_discounts s) (anomaly_records s)
    (records_processed s) rv qv pv.

(** One tracker of [_update_statistics]: the sample stops at 1000 values. *)
Definition update_stat {T} (add : T -> T -> T) (x : T) (st : stats T) : stats T :=
  mkStats (add (total st) x) (count st + 1)
          (if Z.of_nat (List.length (values st)) <? 1000
           then values st ++ [x] else values st).

Definition _update_statistics (revenue : float) (quantity : Z) (unit_price : float)
  : M unit :=
  modify (fun s =>
    set_stats (update_stat PrimFloat.add revenue (revenue_stats s))
              (update_stat Z.add quantity (quantity_stats s))
              (update_stat PrimFloat.add unit_price (price_stats s)) s).

(** [strftime("%Y-%m")] for a year of four digits: the year, a dash and the
    month on two digits.  Two dates get the same key exactly when they agree
    on year and month. *)
Definition digit (n : Z) : ascii := ascii_of_N (Z.to_N (48 + n mod 10)).

Definition month_key (d : datetime) : string :=
  String (digit (year d / 1000)) (String (digit (year d / 100))
  (String (digit (year d / 10)) (String (digit (year d))
  (String "-" (String (digit (month d / 10)) (String (digit (month d)) "")))))).

Definition _statistical_anomaly_checks (revenue : float) (quantity : Z)
    (unit_price : float) : M (Z * list reason) :=
  s <- get ;;
  avg_revenue <- lift (float_div_int (total (revenue_stats s)) (count (revenue_stats s))) ;;
  let '(score, reasons) :=
    if fgt revenue (fmul_int avg_revenue 10)
    then (3, [ExtremelyHighRevenue revenue avg_revenue]) else (0, []) in
  avg_quantity <- lift (int_truediv (total (quantity_stats s)) (count (quantity_stats s))) ;;
  let '(score, reasons) :=
    if int_gt_float quantity (fmul_int avg_quantity 5)
    then (score + 2, reasons ++ [UnusuallyHighQuantity quantity avg_quantity])
    else (score, reasons) in
  avg_price <- lift (float_div_int (total (price_stats s)) (count (price_stats s))) ;;
  let '(score, reasons) :=
    if fgt unit_price (fmul_int avg_price 5)
    then (score + 2, reasons ++ [ExtremelyHighUnitPrice unit_price avg_price])
    else (score, reasons) in
  ret (score, reasons).

Definition _discount_anomaly_checks (unit_price discount : float) : Z * list reason :=
  let '(score, reasons) :=
    if fgt discount 0x1.6666666666666p-1 (* 0.7 *)
    then (1, [SuspiciousHighDiscount discount]) else (0, []) in
  if float_gt_int unit_price 1000 && fgt discount 0.5
  then (score + 2, reasons ++ [HighValueItemLargeDiscount unit_price discount])
  else (score, reasons).

Definition _revenue_threshold_anomaly (revenue : float) : Z * list reason :=
  if float_gt_int revenue 50000 then (1, [HighValueTransaction revenue]) else (0, []).

Definition _extreme_combination_anomaly (quantity : Z) (unit_price : float)
  : Z * list reason :=
  if (100 <? quantity) && float_gt_int unit_price 500
  then (2, [LargeQuantityExpensive quantity unit_price]) else (0, []).

(** [(score, revenue)] tuples compared by [<]: the first components decide
    unless they are equal. *)
Definition key_lt (a b : anomaly_record) : bool :=
  if anomaly_score a =? anomaly_score b
  then PrimFloat.ltb (a_revenue a) (a_revenue b)
  else anomaly_score a <? anomaly_score b.

Definition sort_anomalies (l : list anomaly_record) : list anomaly_record :=
  sort_desc key_lt l.

Definition _update_anomaly_records (rec : anomaly_record) (score : Z)
    (revenue : float) : M unit :=
  s <- get ;;
  if Z.of_nat (List.length (anomaly_records s)) <? anomaly_limit s then
    modify (set_anomaly_records (sort_anomalies (anomaly_records s ++ [rec])))
  else
    match rev (anomaly_records s) with
    | [] => raise IndexError
    | worst :: _ =>
        if (anomaly_score worst <? score)
           || ((score =? anomaly_score worst) && fgt revenue (a_revenue worst))
        then modify (set_anomaly_records
                       (sort_anomalies (removelast (anomaly_records s) ++ [rec])))
        else ret tt
    end.

(** The score and reasons [_detect_and_update_anomalies] accumulates before
    it decides whether the record is kept as an anomaly. *)
Definition anomaly_scoring (revenue : float) (quantity : Z)
    (unit_price discount : float) : M (Z * list reason) :=
  s <- get ;;
  stat <- (if 100 <? records_processed s
           then _statistical_anomaly_checks revenue quantity unit_price
           else ret (0, [])) ;;
  let disc := _discount_anomaly_checks unit_price discount in
  let thr := _revenue_threshold_anomaly revenue in
  let ext := _extreme_combination_anomaly quantity unit_price in
  ret (fst stat + fst disc + fst thr + fst ext,
       snd stat ++ snd disc ++ snd thr ++ snd ext).

Definition _detect_and_update_anomalies (r : record) (revenue : float)
    (quantity : Z) (unit_price discount : float) : M unit :=
  sr <- anomaly_scoring revenue quantity unit_price discount ;;
  let '(anomaly_score, anomaly_reasons) := sr in
  if 2 <=? anomaly_score
  then _update_anomaly_records
         (mkAnomaly r revenue anomaly_score anomaly_reasons) anomaly_score revenue
  else ret tt.

Definition add_monthly (revenue : float) (quantity : Z) (discount_percent : float)
    (b : monthly_bucket) : monthly_bucket :=
  mkMonthly (m_revenue b + revenue)%float (m_quantity b + quantity)
            (m_total_discount b + discount_percent)%float
            (m_num_transactions b + 1).

Definition add_sales (revenue : float) (quantity : Z) (b : sales_bucket)
  : sales_bucket :=
  mkSales (s_revenue b + revenue)%float (s_quantity b + quantity).

Definition add_category (revenue discount_percent : float) (b : category_bucket)
  : category_bucket :=
  mkCategory (c_total_discount_revenue b + revenue * discount_percent)%float
             (c_total_revenue b + revenue)%float
             (c_num_transactions b + 1).

(** Lines 107 to 130 of [_process_single_record]: the running statistics,
    then the monthly, product, region and category buckets. *)
Definition update_aggregates (r : record) (revenue : float) (quantity : Z)
    (unit_price discount_percent : float) (date : datetime) : M unit :=
  _update_statistics revenue quantity unit_price ;;
  let month_key := month_key date in
  modify (fun s => set_monthly_sales
    (dict_update String.eqb month_key (mkMonthly 0 0 0 0)
       (add_monthly revenue quantity discount_percent) (monthly_sales s)) s) ;;
  modify (fun s => set_product_sales
    (dict_update okey_eqb (product_name r) (mkSales 0 0)
       (add_sales revenue quantity) (product_sales s)) s) ;;
  modify (fun s => set_region_sales
    (dict_update okey_eqb (region r) (mkSales 0 0)
       (add_sales revenue quantity) (region_sales s)) s) ;;
  modify (fun s => set_category_discounts
    (dict_update okey_eqb (category r) (mkCategory 0 0 0)
       (add_category revenue discount_percent) (category_discounts s)) s).

Definition _process_single_record (r : record) : M unit :=
  match revenue r, quantity r, unit_price r, discount_percent r, sale_date r with
  | Some revenue, Some quantity, Some unit_price, Some discount_percent, Some date =>
      update_aggregates r revenue quantity unit_price discount_percent date ;;
      _detect_and_update_anomalies r revenue quantity unit_price discount_percent
  | _, _, _, _, _ => raise ValueError
  end.

(** One turn of the loop of [process_chunk]: the [try] absorbs the
    exception and keeps the fields as the failed call left them. *)
Definition process_record (s : aggregator) (r : record) : aggregator :=
  match _process_single_record r s with
  | (Ok _, s') => set_records_processed (records_processed s' + 1) s'
  | (Raise _, s') => s'
  end.

Definition process_chunk (chunk : list record) (s : aggregator) : aggregator :=
  fold_left process_record chunk s.

(** The shape of the buckets after [finalize_aggregations]. *)
Record monthly_final : Type := mkMonthlyFinal {
  mf_revenue : float;
  mf_quantity : Z;
  mf_avg_discount : float
}.

Record finalized : Type := mkFinalized {
  f_monthly_sales : dict string monthly_final;
  f_product_sales : dict (option string) sales_bucket;
  f_region_sales : dict (option string) sales_bucket;
  f_category_discounts : dict (option string) float;
  f_anomaly_records : list anomaly_record;
  top_products : list (option string * sales_bucket);
  f_records_processed : Z
}.

(** [total_discount / num_transactions] under the guard [num_transactions > 0].
    Python converts the counter to a float before dividing, which is exact
    below 2^53 and fails only from 2^1024 on; a transaction counter does not
    get there, and the conversion is taken as total. *)
Definition finalize_monthly (b : monthly_bucket) : monthly_final :=
  mkMonthlyFinal (m_revenue b) (m_quantity b)
    (if 0 <? m_num_transactions b
     then (m_total_discount b / float_of_Z (m_num_transactions b))%float
     else 0%float).

Definition finalize_category (b : category_bucket) : float :=
  if float_gt_int (c_total_revenue b) 0
  then (c_total_discount_revenue b / c_total_revenue b)%float
  else 0%float.

Definition revenue_lt (a b : option string * sales_bucket) : bool :=
  PrimFloat.ltb (s_revenue (snd a)) (s_revenue (snd b)).

Definition finalize_aggregations (s : aggregator) : finalized :=
  mkFinalized
    (map (fun kv => (fst kv, finalize_monthly (snd kv))) (monthly_sales s))
    (product_sales s)
    (region_sales s)
    (map (fun kv => (fst kv, finalize_category (snd kv))) (category_discounts s))
    (anomaly_records s)
    (slice_to (top_products_limit s) (sort_desc revenue_lt (product_sales s)))
    (records_processed s).

(** The figures [_log_summary_statistics] computes for its log lines. The
    mean score and the highest revenue are taken only over a non-empty
    anomaly list; the mean revenue and the anomaly rate only when the revenue
    tracker has counted a record, and the rate divides by
    [records_processed]. *)
Record summary_log : Type := mkSummaryLog {
  avg_anomaly_score : option float;
  max_anomaly_revenue : option float;
  avg_revenue : option float;
  anomaly_rate : option float
}.

(** [max] over a non-empty sequence: the first item stays until a later one
    is greater. *)
Definition float_max (x : float) (l : list float) : float :=
  fold_left (fun m y => if fgt y m then y else m) l x.

Definition anomaly_figures (s : aggregator) : result (option (float * float)) :=
  match anomaly_records s with
  | [] => Ok None
  | a :: rest =>
      rbind (int_truediv (fold_left Z.add (map anomaly_score (anomaly_records s)) 0)
                         (Z.of_nat (List.length (anomaly_records s)))) (fun avg =>
      Ok (Some (avg, float_max (a_revenue a) (map a_revenue rest))))
  end.

Definition _log_summary_statistics (s : aggregator) : result summary_log :=
  rbind (anomaly_figures s) (fun af =>
  if 0 <? count (revenue_stats s) then
    rbind (float_div_int (total (revenue_stats s)) (count (revenue_stats s)))
      (fun avg =>
    rbind (int_truediv (Z.of_nat (List.length (anomaly_records s)))
                       (records_processed s)) (fun rate =>
    Ok (mkSummaryLog (option_map fst af) (option_map snd af)
          (Some avg) (Some (fmul_int rate 100)))))
  else Ok (mkSummaryLog (option_map fst af) (option_map snd af) None None)).

(** [finalize_aggregations] together with the call of
    [_log_summary_statistics] that ends it: an exception of the latter leaves
    the method. *)
Definition finalize_aggregations_logged (s : aggregator) : result finalized :=
  rbind (_log_summary_statistics s) (fun _ => Ok (finalize_aggregations s)).

End DataAggregator.

(** ** ingestion.py *)

Module CSVReader.

(** The loop of [read_in_chunks] over the rows [csv.DictReader] yields:
    [chunk] is the list being filled, the result the chunks yielded. *)
Fixpoint chunks_from (chunk_size : Z) (rows : list raw_row) (chunk : list raw_row)
  : list (list raw_row) :=
  match rows with
  | [] => match chunk with [] => [] | _ => [chunk] end
  | row :: rest =>
      let chunk := chunk ++ [row] in
      if Z.of_nat (List.length chunk) =? chunk_size
      then chunk :: chunks_from chunk_size rest []
      else chunks_from chunk_size rest chunk
  end.

Definition read_in_chunks (chunk_size : Z) (rows : list raw_row)
  : list (list raw_row) :=
  chunks_from chunk_size rows [].

End CSVReader.

(** ** utils/config.py *)

Module Config.

Record config : Type := mkConfig {
  DEFAULT_CHUNK_SIZE : Z;
  MAX_MEMORY_USAGE_MB : Z;
  DEFAULT_SAMPLE_ROWS : Z;
  MAX_DISCOUNT_PERCENT : float;
  MIN_QUANTITY : Z;
  MIN_UNIT_PRICE : float;
  ANOMALY_RECORDS_LIMIT : Z;
  TOP_PRODUCTS_LIMIT : Z;
  DASHBOARD_PORT : Z;
  LOG_LEVEL : string
}.

(** The values [Config()] takes when no environment variable is set. *)
Definition default : config :=
  mkConfig 1000 512 10000 1 1 0x1.47ae147ae147bp-7 (* 0.01 *) 5 10 8000 "INFO".

Record validations : Type := mkValidations {
  v_chunk_size : bool;
  v_memory_limit : bool;
  v_sample_rows : bool;
  v_discount_range : bool;
  v_quantity_min : bool;
  v_price_min : bool;
  v_anomaly_limit : bool;
  v_top_products_limit : bool;
  v_dashboard_port : bool;
  v_log_level : bool
}.

Fixpoint upper (s : string) : string :=
  match s with
  | String c t => String (to_upper c) (upper t)
  | EmptyString => EmptyString
  end.

Definition valid_log_levels : list string :=
  ["DEBUG"; "INFO"; "WARNING"; "ERROR"; "CRITICAL"].

(** [validate_config]: a report, one flag per setting; nothing is raised. *)
Definition validate_config (c : config) : validations :=
  mkValidations
    (0 <? DEFAULT_CHUNK_SIZE c)
    (0 <? MAX_MEMORY_USAGE_MB c)
    (0 <? DEFAULT_SAMPLE_ROWS c)
    ((0 <=? MAX_DISCOUNT_PERCENT c)%float && (MAX_DISCOUNT_PERCENT c <=? 1)%float)
    (0 <=? MIN_QUANTITY c)
    (float_ge_int (MIN_UNIT_PRICE c) 0)
    (0 <? ANOMALY_RECORDS_LIMIT c)
    (0 <? TOP_PRODUCTS_LIMIT c)
    ((1000 <=? DASHBOARD_PORT c) && (DASHBOARD_PORT c <=? 65535))
    (existsb (String.eqb (upper (LOG_LEVEL c))) valid_log_levels).

End Config.

(** ** orchestrator.py *)

Module DataPipeline.

Record pipeline : Type := mkPipeline {
  chunk_size : Z;
  config : Config.config;
  cleaner : DataCleaner.cleaner;
  aggregator : DataAggregator.aggregator
}.

(** [__init__]: the reader and the cleaner are plain objects, the aggregator
    takes the two limits of the configuration, and [DataSaver(output_dir)]
    creates the output directory, whose outcome is [mkdir]. *)
Definition init (chunk_size : Z) (config : Config.config) (mkdir : result unit)
  : result pipeline :=
  rbind (DataAggregator.init (Config.ANOMALY_RECORDS_LIMIT config)
                             (Config.TOP_PRODUCTS_LIMIT config)) (fun agg =>
  rbind mkdir (fun _ =>
  Ok (mkPipeline chunk_size config DataCleaner.init agg))).

Section Parsers.
Variable float_of_str : string -> option float.
Variable strptime : string -> string -> option datetime.

Definition clean_record := DataCleaner.clean_record float_of_str strptime.

(** The inner loop of [_process_chunks]: clean every row of a raw chunk,
    keeping the records that were not dropped. *)
Fixpoint clean_chunk (raw_chunk : list raw_row) (c : DataCleaner.cleaner)
  : list record * DataCleaner.cleaner :=
  match raw_chunk with
  | [] => ([], c)
  | row :: rest =>
      let '(o, c1) := clean_record row c in
      let '(cleaned, c2) := clean_chunk rest c1 in
      (match o with Some r => r :: cleaned | None => cleaned end, c2)
  end.

Definition process_raw_chunk (p : pipeline) (raw_chunk : list raw_row) : pipeline :=
  let '(cleaned_chunk, c) := clean_chunk raw_chunk (cleaner p) in
  mkPipeline (chunk_size p) (config p) c
    (match cleaned_chunk with
     | [] => aggregator p
     | _ => DataAggregator.process_chunk cleaned_chunk (aggregator p)
     end).

Definition _process_chunks (rows : list raw_row) (p : pipeline) : pipeline :=
  fold_left process_raw_chunk (CSVReader.read_in_chunks (chunk_size p) rows) p.

(** [run], up to the point where the writer takes over. *)
Definition run (rows : list raw_row) (p : pipeline)
  : pipeline * DataAggregator.finalized :=
  let p' := _process_chunks rows p in
  (p', DataAggregator.finalize_aggregations (aggregator p')).
End Parsers.

End DataPipeline.

(** ** storage.py

    Each [save_*] method builds a list of rows and hands it to [_write_csv],
    which writes them in that order; the rows are what is modelled. *)

Module DataSaver.

Record monthly_row : Type := mkMonthlyRow {
  mr_month : string;
  mr_revenue : float;
  mr_quantity : Z;
  mr_avg_discount : float
}.

Record sales_row : Type := mkSalesRow {
  sr_key : option string;
  sr_revenue : float;
  sr_quantity : Z
}.

Record category_row : Type := mkCategoryRow {
  cr_category : option string;
  cr_avg_discount : float
}.

(** [rows.sort(key=...)]: ascending and stable. *)
Definition sort_asc (A : Type) (lt : A -> A -> bool) (l : list A) : list A :=
  sort_desc (fun a b => lt b a) l.

Definition month_lt (a b : monthly_row) : bool := String.ltb (mr_month a) (mr_month b).

Definition save_monthly_sales (data : dict string DataAggregator.monthly_final)
  : list monthly_row :=
  sort_asc month_lt
    (map (fun kv => mkMonthlyRow (fst kv) (DataAggregator.mf_revenue (snd kv))
                      (DataAggregator.mf_quantity (snd kv))
                      (DataAggregator.mf_avg_discount (snd kv))) data).

Definition sales_row_of (kv : option string * DataAggregator.sales_bucket) : sales_row :=
  mkSalesRow (fst kv) (DataAggregator.s_revenue (snd kv))
             (DataAggregator.s_quantity (snd kv)).

Definition save_top_products (data : list (option string * DataAggregator.sales_bucket))
  : list sales_row :=
  map sales_row_of data.

Definition sales_row_lt (a b : sales_row) : bool :=
  PrimFloat.ltb (sr_revenue a) (sr_revenue b).

Definition save_region_performance (data : dict (option string) DataAggregator.sales_bucket)
  : list sales_row :=
  sort_desc sales_row_lt (map sales_row_of data).

Definition category_row_lt (a b : category_row) : bool :=
  PrimFloat.ltb (cr_avg_discount a) (cr_avg_discount b).

Definition save_category_discounts (data : dict (option string) float)
  : list category_row :=
  sort_desc category_row_lt (map (fun kv => mkCategoryRow (fst kv) (snd kv)) data).

End DataSaver.

(** ** Parsers for the examples

    [float] and [strptime] belong to the Python library; the development is
    parametric in them.  The two functions below agree with the library on
    plain decimal numerals and on fixed-width numeric dates, which is what
    the examples use, and answer [None] elsewhere. *)

Module Sample.

Fixpoint all_digits (s : string) : bool :=
  match s with
  | String c t => isdigit c && all_digits t
  | EmptyString => true
  end.

Fixpoint split_dot (s : string) : string * option string :=
  match s with
  | EmptyString => (EmptyString, None)
  | String c t =>
      if Ascii.eqb c "." then (EmptyString, Some t)
      else let '(a, b) := split_dot t in (String c a, b)
  end.

Definition unsigned_float (s : string) : option float :=
  let '(ip, fp) := split_dot s in
  let fp := match fp with Some f => f | None => EmptyString end in
  if all_digits ip && all_digits fp
     && negb (Nat.eqb (String.length ip + String.length fp) 0)
  then
    match int_truediv (int_of_digits 0 (String.append ip fp))
                      (10 ^ Z.of_nat (String.length fp)) with
    | Ok f => Some f
    | Raise _ => Some infinity
    end
  else None.

Definition float_of_str (s : string) : option float :=
  match strip s with
  | String "-" t => option_map PrimFloat.opp (unsigned_float t)
  | String "+" t => unsigned_float t
  | t => unsigned_float t
  end.

Definition is_leap (y : Z) : bool :=
  ((y mod 4 =? 0) && negb (y mod 100 =? 0)) || (y mod 400 =? 0).

Definition days_in_month (y m : Z) : Z :=
  if m =? 2 then (if is_leap y then 29 else 28)
  else if (m =? 4) || (m =? 6) || (m =? 9) || (m =? 11) then 30 else 31.

Definition num (s : string) : Z := int_of_digits 0 s.

Definition valid_date (y m d : Z) : bool :=
  (1 <=? y) && (1 <=? m) && (m <=? 12) && (1 <=? d) && (d <=? days_in_month y m).

(** [yyyy?mm?dd] with the separator [sep]. *)
Definition ymd (sep : ascii) (s : string) : option datetime :=
  match s with
  | String y1 (String y2 (String y3 (String y4 (String s1
      (String m1 (String m2 (String s2 (String d1 (String d2 EmptyString))))))))) =>
      let y := String y1 (String y2 (String y3 (String y4 ""))) in
      let m := String m1 (String m2 "") in
      let d := String d1 (String d2 "") in
      if all_digits y && all_digits m && all_digits d
         && Ascii.eqb s1 sep && Ascii.eqb s2 sep
         && valid_date (num y) (num m) (num d)
      then Some (mkDatetime (num y) (num m) (num d) 0 0 0) else None
  | _ => None
  end.

(** [hh:mm:ss] *)
Definition hms (s : string) : option (Z * Z * Z) :=
  match s with
  | String h1 (String h2 (String ":" (String m1 (String m2 (String ":"
      (String s1 (String s2 EmptyString))))))) =>
      let h := String h1 (String h2 "") in
      let m := String m1 (String m2 "") in
      let sc := String s1 (String s2 "") in
      if all_digits h && all_digits m && all_digits sc
         && (num h <=? 23) && (num m <=? 59) && (num sc <=? 59)
      then Some (num h, num m, num sc) else None
  | _ => None
  end.

Definition strptime (s fmt : string) : option datetime :=
  if String.eqb fmt "%Y-%m-%d" then ymd "-" s
  else if String.eqb fmt "%Y/%m/%d" then ymd "/" s
  else if String.eqb fmt "%Y-%m-%d %H:%M:%S" then
    match ymd "-" (substring 0 10 s), substring 10 1 s, hms (substring 11 8 s) with
    | Some d, " ", Some (h, m, sc) =>
        if Nat.eqb (String.length s) 19
        then Some (mkDatetime (year d) (month d) (day d) h m sc) else None
    | _, _, _ => None
    end
  else None.

Definition clean_record := DataCleaner.clean_record float_of_str strptime.
Definition run := DataPipeline.run float_of_str strptime.

End Sample.

(** ** Vocabulary of the properties *)

Definition SFnan (x : spec_float) : bool :=
  match x with S754_nan => true | _ => false end.

(** [a] is not ranked below [b], and [a], [b] are tied, for the comparison
    [lt] a sort uses. *)
Definition not_below (A : Type) (lt : A -> A -> bool) (a b : A) : Prop :=
  lt a b = false.


(** The pipeline seen one row at a time: the row is cleaned and, when it
    survives, folded into the aggregator. *)
Definition ingest_row (float_of_str : string -> option float)
    (strptime : string -> string -> option datetime)
    (st : DataCleaner.cleaner * DataAggregator.aggregator) (row : raw_row)
  : DataCleaner.cleaner * DataAggregator.aggregator :=
  let '(o, c) := DataCleaner.clean_record float_of_str strptime row (fst st) in
  (c, match o with
      | Some r => DataAggregator.process_record (snd st) r
      | None => snd st
      end).

Definition ingest_rows (float_of_str : string -> option float)
    (strptime : string -> string -> option datetime)
    (rows : list raw_row)
    (st : DataCleaner.cleaner * DataAggregator.aggregator)
  : DataCleaner.cleaner * DataAggregator.aggregator :=
  fold_left (ingest_row float_of_str strptime) rows st.

(** The guard of [_process_single_record]: every required field is there. *)
Definition required_present (r : record) : bool :=
  match revenue r, quantity r, unit_price r, discount_percent r, sale_date r with
  | Some _, Some _, Some _, Some _, Some _ => true
  | _, _, _, _, _ => false
  end.

(** The aggregator once the statistics and the buckets have taken a record
    in, before anomaly detection runs. *)
Definition aggregates_after (r : record) (revenue : float) (quantity : Z)
    (unit_price discount_percent : float) (date : datetime)
    (s : DataAggregator.aggregator) : DataAggregator.aggregator :=
  snd (DataAggregator.update_aggregates r revenue quantity unit_price
         discount_percent date s).

(** Totals over the buckets and over a stream of records. *)
Definition dict_total (K V : Type) (measure : V -> Z) (d : dict K V) : Z :=
  fold_right (fun kv acc => measure (snd kv) + acc) 0 d.

Definition monthly_quantity_total (d : dict string DataAggregator.monthly_final) : Z :=
  dict_total DataAggregator.mf_quantity d.

Definition sales_quantity_total (d : dict (option string) DataAggregator.sales_bucket) : Z :=
  dict_total DataAggregator.s_quantity d.

Definition record_quantity (r : record) : Z :=
  match quantity r with Some q => q | None => 0 end.

Definition records_quantity_total (rs : list record) : Z :=
  fold_right (fun r acc => record_quantity r + acc) 0 rs.

(** The records the cleaner emits for a list of rows, in order. *)
Definition cleaned_records (float_of_str : string -> option float)
    (strptime : string -> string -> option datetime)
    (rows : list raw_row) : list record :=
  fst (DataPipeline.clean_chunk float_of_str strptime rows DataCleaner.init).

(** The quantity of the records that pass the guard of the aggregator. *)
Definition ingested_quantity (rs : list record) : Z :=
  fold_right (fun r acc => (if required_present r then record_quantity r else 0) + acc)
             0 rs.

(** A record that scores 6 on the business rules: 200 units at 2000 with a
    75 percent discount. *)
Definition big_order : record :=
  mkRecord (PStr "ORD-1") (Some "Laptop Pro 15") (Some "Electronics") (Some "North")
    (Some 200) (Some 2000%float) (Some 0.75%float)
    (Some (mkDatetime 2024 1 15 0 0 0)) "anonymous" (Some 100000%float).

(** What a call of [_update_anomaly_records] can do to the anomaly list for
    a candidate of revenue [rev], under the limit [limit]. *)
Inductive anomaly_step (limit : Z) (rev : float)
    (l : list DataAggregator.anomaly_record)
  : list DataAggregator.anomaly_record -> Prop :=
| step_keep : anomaly_step limit rev l l
| step_append rec :
    DataAggregator.a_revenue rec = rev ->
    Z.of_nat (List.length l) < limit ->
    anomaly_step limit rev l (DataAggregator.sort_anomalies (l ++ [rec]))
| step_replace rec l0 worst :
    DataAggregator.a_revenue rec = rev ->
    l = l0 ++ [worst] ->
    limit <= Z.of_nat (List.length l) ->
    DataAggregator.key_lt worst rec = true ->
    anomaly_step limit rev l (DataAggregator.sort_anomalies (l0 ++ [rec])).

(** The keys of [l] that are not in [seen], each once, in the order of
    their first occurrence. *)
Fixpoint first_seen (K : Type) (eqb : K -> K -> bool) (seen l : list K) : list K :=
  match l with
  | [] => []
  | k :: t =>
      if existsb (eqb k) seen then first_seen eqb seen t
      else k :: first_seen eqb (seen ++ [k]) t
  end.

Definition add_key (K : Type) (eqb : K -> K -> bool) (k : K) (keys : list K) : list K :=
  if existsb (eqb k) keys then keys else keys ++ [k].

(** The records of a stream that reach the buckets, and their keys. *)
Definition ingested (rs : list record) : list record := filter required_present rs.

Definition month_of (r : record) : string :=
  match sale_date r with
  | Some d => DataAggregator.month_key d
  | None => EmptyString
  end.

Definition distinct_months (rs : list record) : list string :=
  first_seen String.eqb [] (map month_of (ingested rs)).

Definition distinct_products (rs : list record) : list (option string) :=
  first_seen DataAggregator.okey_eqb [] (map product_name (ingested rs)).

Definition distinct_regions (rs : list record) : list (option string) :=
  first_seen DataAggregator.okey_eqb [] (map region (ingested rs)).

Definition distinct_categories (rs : list record) : list (option string) :=
  first_seen DataAggregator.okey_eqb [] (map category (ingested rs)).

(** Number of entries the aggregator holds: bucket entries, anomaly
    records and sampled values. *)
Definition retained_size (s : DataAggregator.aggregator) : nat :=
  (List.length (DataAggregator.monthly_sales s)
   + List.length (DataAggregator.product_sales s)
   + List.length (DataAggregator.region_sales s)
   + List.length (DataAggregator.category_discounts s)
   + List.length (DataAggregator.anomaly_records s)
   + List.length (DataAggregator.values (DataAggregator.revenue_stats s))
   + List.length (DataAggregator.values (DataAggregator.quantity_stats s))
   + List.length (DataAggregator.values (DataAggregator.price_stats s)))%nat.

(** The bounded parts of the state: the anomaly list under its limit, the
    three samples under the cap of 1000. *)
Definition bounded_state (s : DataAggregator.aggregator) : Prop :=
  (List.length (DataAggregator.anomaly_records s)
   <= Z.to_nat (DataAggregator.anomaly_limit s))%nat
  /\ (List.length (DataAggregator.values (DataAggregator.revenue_stats s)) <= 1000)%nat
  /\ (List.length (DataAggregator.values (DataAggregator.quantity_stats s)) <= 1000)%nat
  /\ (List.length (DataAggregator.values (DataAggregator.price_stats s)) <= 1000)%nat.



(** Rows in the shape of the repository's cleaner tests. *)
Definition test_row (quantity unit_price : pyval) : raw_row :=
  mkRaw (PStr "ORD-12345") (PStr "laptop pro") (PStr "electronics")
        quantity unit_price (PFloat 0.5) (PStr "nort")
        (PStr "2024-01-15 10:00:00") (PStr "test@example.com").

Definition config_with (chunk anomaly top : Z) : Config.config :=
  Config.mkConfig chunk 512 10000 1 1 0x1.47ae147ae147bp-7 anomaly top 8000 "INFO".

(** What the cleaner makes of [test_row "10" 1000.0]. *)
Definition test_record : record :=
  mkRecord (PStr "ORD-12345") (Some "Laptop Pro 15") (Some "Electronics")
    (Some "North") (Some 10) (Some 1000%float) (Some 0.5%float)
    (Some (mkDatetime 2024 1 15 10 0 0)) "test@example.com" (Some 5000%float).

(** The running means of revenue, quantity and unit price, as the
    aggregator computes them from its three trackers. *)
Definition running_means (s : DataAggregator.aggregator)
  : result (float * float * float) :=
  rbind (float_div_int (DataAggregator.total (DataAggregator.revenue_stats s))
                       (DataAggregator.count (DataAggregator.revenue_stats s)))
    (fun avg_revenue =>
  rbind (int_truediv (DataAggregator.total (DataAggregator.quantity_stats s))
                     (DataAggregator.count (DataAggregator.quantity_stats s)))
    (fun avg_quantity =>
  rbind (float_div_int (DataAggregator.total (DataAggregator.price_stats s))
                       (DataAggregator.count (DataAggregator.price_stats s)))
    (fun avg_price => Ok (avg_revenue, avg_quantity, avg_price)))).

(** The anomaly score in the words of the specification; [processed] is the
    number of records processed so far, [means] the running means. *)
Definition spec_score (processed : Z) (means : float * float * float)
    (revenue : float) (quantity : Z) (unit_price discount : float) : Z :=
  let '(avg_revenue, avg_quantity, avg_price) := means in
  (if 100 <? processed
   then (if fgt revenue (float_of_Z 10 * avg_revenue)%float then 3 else 0)
        + (if int_gt_float quantity (float_of_Z 5 * avg_quantity)%float then 2 else 0)
        + (if fgt unit_price (float_of_Z 5 * avg_price)%float then 2 else 0)
   else 0)
  + (if fgt discount 0x1.6666666666666p-1 (* 0.7 *) then 1 else 0)
  + (if float_gt_int unit_price 1000 && fgt discount 0.5 then 2 else 0)
  + (if float_gt_int revenue 50000 then 1 else 0)
  + (if (100 <? quantity) && float_gt_int unit_price 500 then 2 else 0).

(** A state with 101 records processed; once [warm_order] is in the trackers
    the mean revenue is 100, the mean quantity 2 and the mean unit price 50. *)
Definition warm_state : DataAggregator.aggregator :=
  DataAggregator.mkAggregator 5 10 [] [] [] [] [] 101
    (DataAggregator.mkStats 8200%float 101 [])
    (DataAggregator.mkStats 184 101 [])
    (DataAggregator.mkStats 5000%float 101 []).

Definition warm_order : record :=
  mkRecord (PStr "ORD-102") (Some "Blender Pro") (Some "Home Appliance")
    (Some "South") (Some 20) (Some 100%float) (Some 0%float)
    (Some (mkDatetime 2024 3 1 0 0 0)) "anonymous" (Some 2000%float).

(** The revenue of a record is a number, not a NaN. *)
Definition revenue_is_number (r : record) : Prop :=
  forall v, revenue r = Some v -> is_nan v = false.

Definition anomaly_is_number (x : DataAggregator.anomaly_record) : Prop :=
  is_nan (DataAggregator.a_revenue x) = false.








(** Three orders: products A and C tie on revenue 100, B has 200. *)
Definition order_of (name : string) (quantity : Z) (price : float) : record :=
  mkRecord (PStr "ORD") (Some name) (Some "Electronics") (Some "North")
    (Some quantity) (Some price) (Some 0%float)
    (Some (mkDatetime 2024 1 15 0 0 0)) "anonymous"
    (Some (float_of_Z quantity * price)%float).

Definition tie_orders : list record :=
  [order_of "A" 1 100; order_of "B" 2 100; order_of "C" 1 100].

(** Five rows, told apart by their quantity. *)
Definition five_rows : list raw_row :=
  map (fun q => test_row (PInt q) (PFloat 1)) [1; 2; 3; 4; 5].

(** The fields of a record that has passed the guard, read as numbers. *)
Definition record_revenue (r : record) : float :=
  match revenue r with Some v => v | None => 0%float end.

Definition record_price (r : record) : float :=
  match unit_price r with Some v => v | None => 0%float end.

Definition record_discount (r : record) : float :=
  match discount_percent r with Some v => v | None => 0%float end.

(** The records of a stream that reach the bucket of key [k], in order, for
    a key taken with [key_of]. *)
Definition records_with (K : Type) (eqb : K -> K -> bool) (key_of : record -> K)
    (k : K) (rs : list record) : list record :=
  filter (fun r => eqb k (key_of r)) (ingested rs).

(** A bucket as the running sum over a group of records, [None] for an empty
    group: the accumulator starts at [dflt] and takes the records in order. *)
Definition bucket_of (V : Type) (dflt : V) (add : record -> V -> V)
    (group : list record) : option V :=
  match group with
  | [] => None
  | _ => Some (fold_left (fun b r => add r b) group dflt)
  end.

Definition add_record_sales (r : record) : DataAggregator.sales_bucket -> DataAggregator.sales_bucket :=
  DataAggregator.add_sales (record_revenue r) (record_quantity r).

Definition add_record_monthly (r : record)
  : DataAggregator.monthly_bucket -> DataAggregator.monthly_bucket :=
  DataAggregator.add_monthly (record_revenue r) (record_quantity r) (record_discount r).

Definition add_record_category (r : record)
  : DataAggregator.category_bucket -> DataAggregator.category_bucket :=
  DataAggregator.add_category (record_revenue r) (record_discount r).

(** Insertion of a late arrival into a descending list: it goes after every
    entry it does not beat. *)
Fixpoint insert_last (A : Type) (lt : A -> A -> bool) (c : A) (l : list A) : list A :=
  match l with
  | [] => [c]
  | y :: t => if lt y c then c :: l else y :: insert_last lt c t
  end.

(** The anomaly entry a record contributes when it meets the aggregator in
    state [s]: the record passes the guard, its score is computed without an
    exception on the statistics that already include it, and is at least 2. *)
Definition candidate_of (r : record) (s : DataAggregator.aggregator)
  : list DataAggregator.anomaly_record :=
  match revenue r, quantity r, unit_price r, discount_percent r, sale_date r with
  | Some rev, Some q, Some p, Some d, Some dt =>
      match fst (DataAggregator.anomaly_scoring rev q p d
                   (aggregates_after r rev q p d dt s)) with
      | Ok (score, reasons) =>
          if 2 <=? score then [DataAggregator.mkAnomaly r rev score reasons] else []
      | Raise _ => []
      end
  | _, _, _, _, _ => []
  end.

(** All the candidates of a stream, in the order of the stream. *)
Fixpoint candidates (rs : list record) (s : DataAggregator.aggregator)
  : list DataAggregator.anomaly_record :=
  match rs with
  | [] => []
  | r :: rest => candidate_of r s ++ candidates rest (DataAggregator.process_record s r)
  end.

(** A date [strftime('%Y-%m')] renders with four digits for the year, and
    the month it falls in, counted from year 0. *)
Definition four_digit_year (d : datetime) : Prop :=
  1000 <= year d <= 9999 /\ 1 <= month d <= 12.

Definition month_index (d : datetime) : Z := year d * 12 + month d.

(** * Properties *)

(** ** Order facts on binary64 values *)

Ltac sf_cases :=
  repeat match goal with
  | |- context [Z.compare ?a ?b] => destruct (Z.compare_spec a b)
  | |- context [Pos.compare_cont Eq ?a ?b] =>
      change (Pos.compare_cont Eq a b) with (Pos.compare a b);
      destruct (Pos.compare_spec a b)
  end; simpl; try reflexivity; try discriminate; try lia.

Lemma SFltb_asym x y : SFltb x y = true -> SFltb y x = false.
Proof.
  unfold SFltb, SFcompare.
  destruct x as [sx|sx| |sx mx ex], y as [sy|sy| |sy my ey];
    try destruct sx; try destruct sy; simpl; try discriminate; try reflexivity;
    sf_cases.
Qed.

Lemma SFltb_negtrans x y z :
  SFnan x = false -> SFnan y = false -> SFnan z = false ->
  SFltb x y = false -> SFltb y z = false -> SFltb x z = false.
Proof.
  unfold SFltb, SFcompare.
  destruct x as [sx|sx| |sx mx ex], y as [sy|sy| |sy my ey], z as [sz|sz| |sz mz ez];
    try destruct sx; try destruct sy; try destruct sz; simpl;
    try discriminate; try reflexivity; intros _ _ _; sf_cases.
Qed.

Lemma SFltb_false_leb x y :
  SFnan x = false -> SFnan y = false -> SFltb x y = false -> SFleb y x = true.
Proof.
  unfold SFltb, SFleb, SFcompare.
  destruct x as [sx|sx| |sx mx ex], y as [sy|sy| |sy my ey];
    try destruct sx; try destruct sy; simpl; try discriminate; try reflexivity;
    intros _ _; sf_cases.
Qed.

Lemma SFleb_ltb_false x y : SFleb y x = true -> SFltb x y = false.
Proof.
  unfold SFltb, SFleb, SFcompare.
  destruct x as [sx|sx| |sx mx ex], y as [sy|sy| |sy my ey];
    try destruct sx; try destruct sy; simpl; try discriminate; try reflexivity;
    sf_cases.
Qed.

Lemma is_nan_SF x : is_nan x = SFnan (Prim2SF x).
Proof.
  unfold is_nan, PrimFloat.is_nan. rewrite FloatAxioms.eqb_spec.
  unfold SFeqb, SFcompare.
  destruct (Prim2SF x) as [s|s| |s m e]; try destruct s; simpl; try reflexivity.
  all: sf_cases.
Qed.

Lemma ltb_asym x y : PrimFloat.ltb x y = true -> PrimFloat.ltb y x = false.
Proof. rewrite !ltb_spec. apply SFltb_asym. Qed.

Lemma ltb_negtrans x y z :
  is_nan x = false -> is_nan y = false -> is_nan z = false ->
  PrimFloat.ltb x y = false -> PrimFloat.ltb y z = false ->
  PrimFloat.ltb x z = false.
Proof. rewrite !is_nan_SF, !ltb_spec. apply SFltb_negtrans. Qed.

Lemma ltb_false_fge x y :
  is_nan x = false -> is_nan y = false ->
  PrimFloat.ltb x y = false -> fge x y = true.
Proof. unfold fge. rewrite !is_nan_SF, ltb_spec, leb_spec. apply SFltb_false_leb. Qed.

Lemma fge_ltb_false x y : fge x y = true -> PrimFloat.ltb x y = false.
Proof. unfold fge. rewrite ltb_spec, leb_spec. apply SFleb_ltb_false. Qed.

(** ** Facts on the stable descending sort *)

Section SortFacts.
Variable A : Type.
Variable lt : A -> A -> bool.
Variable good : A -> Prop.
Hypothesis lt_asym : forall x y, lt x y = true -> lt y x = false.
Hypothesis lt_negtrans : forall x y z, good x -> good y -> good z ->
  lt x y = false -> lt y z = false -> lt x z = false.

Lemma insert_desc_perm x l : Permutation (insert_desc lt x l) (x :: l).
Proof.
  induction l as [|y t IH]; simpl; [reflexivity|].
  destruct (lt x y); [|reflexivity].
  rewrite IH. apply perm_swap.
Qed.

Lemma sort_desc_perm l : Permutation (sort_desc lt l) l.
Proof.
  induction l as [|x t IH]; simpl; [constructor|].
  rewrite insert_desc_perm. now constructor.
Qed.

Lemma sort_desc_length l : List.length (sort_desc lt l) = List.length l.
Proof. apply Permutation_length, sort_desc_perm. Qed.

Lemma insert_desc_hd x y l :
  lt y x = false -> HdRel (not_below lt) y l ->
  HdRel (not_below lt) y (insert_desc lt x l).
Proof.
  intros Hyx Hl. destruct l as [|z t]; simpl.
  - constructor. exact Hyx.
  - destruct (lt x z); constructor; [now inversion Hl | exact Hyx].
Qed.

Lemma insert_desc_sorted x l :
  Sorted (not_below lt) l -> Sorted (not_below lt) (insert_desc lt x l).
Proof.
  induction 1 as [|y t Ht IH Hhd]; simpl.
  - repeat constructor.
  - destruct (lt x y) eqn:E.
    + constructor; [exact IH|]. apply insert_desc_hd; auto.
    + constructor; [now constructor|]. constructor. exact E.
Qed.

Lemma sort_desc_sorted l : Sorted (not_below lt) (sort_desc lt l).
Proof.
  induction l as [|x t IH]; simpl; [constructor|].
  now apply insert_desc_sorted.
Qed.

Lemma sorted_strongly l :
  Forall good l -> Sorted (not_below lt) l -> StronglySorted (not_below lt) l.
Proof.
  intros Hg Hs. induction Hs as [|y t Ht IH Hhd]; [constructor|].
  inversion Hg as [|? ? Hy Hgt]; subst.
  specialize (IH Hgt). constructor; [exact IH|].
  destruct t as [|z u]; [constructor|].
  inversion Hhd as [|? ? Hyz]; subst.
  inversion IH as [|? ? _ Hzu]; subst.
  inversion Hgt as [|? ? Hz Hgu]; subst.
  constructor; [exact Hyz|].
  rewrite Forall_forall in Hzu, Hgu |- *.
  intros w Hw. unfold not_below in *.
  eapply lt_negtrans; eauto.
Qed.

(** In a sorted list nothing ranks below the last element. *)
Lemma sorted_last_lowest l w :
  Forall good (l ++ [w]) -> Sorted (not_below lt) (l ++ [w]) ->
  Forall (fun x => not_below lt x w) l.
Proof.
  intros Hg Hs. apply sorted_strongly in Hs; [|exact Hg].
  clear Hg. induction l as [|y t IH]; [constructor|].
  simpl in Hs. inversion Hs as [|? ? Ht Hall]; subst.
  constructor; [|now apply IH].
  rewrite Forall_forall in Hall. apply Hall, in_or_app. right. now left.
Qed.



End SortFacts.

(** ** Chunking *)

Lemma chunks_from_concat n rows chunk :
  List.concat (CSVReader.chunks_from n rows chunk) = chunk ++ rows.
Proof.
  revert chunk. induction rows as [|row rest IH]; intros chunk; simpl.
  - destruct chunk; simpl; now rewrite ?app_nil_r.
  - destruct (_ =? n); simpl; rewrite IH; simpl; now rewrite <- app_assoc.
Qed.

Lemma read_in_chunks_concat n rows :
  List.concat (CSVReader.read_in_chunks n rows) = rows.
Proof. apply chunks_from_concat. Qed.

Lemma fold_left_concat (A B : Type) (f : A -> B -> A) (ls : list (list B)) (a : A) :
  fold_left (fun a l => fold_left f l a) ls a = fold_left f (List.concat ls) a.
Proof.
  revert a. induction ls as [|l ls IH]; intros a; simpl; [reflexivity|].
  now rewrite fold_left_app, IH.
Qed.

Section Pipeline.
Variable float_of_str : string -> option float.
Variable strptime : string -> string -> option datetime.

Lemma clean_chunk_ingest raw_chunk c a :
  ingest_rows float_of_str strptime raw_chunk (c, a) =
  (snd (DataPipeline.clean_chunk float_of_str strptime raw_chunk c),
   DataAggregator.process_chunk
     (fst (DataPipeline.clean_chunk float_of_str strptime raw_chunk c)) a).
Proof.
  revert c a. induction raw_chunk as [|row rest IH]; intros c a; [reflexivity|].
  unfold ingest_rows in *. simpl fold_left. unfold ingest_row at 2.
  simpl fst. simpl snd. simpl DataPipeline.clean_chunk.
  unfold DataPipeline.clean_record.
  destruct (DataCleaner.clean_record float_of_str strptime row c) as [o c1].
  rewrite IH.
  destruct (DataPipeline.clean_chunk float_of_str strptime rest c1) as [cleaned c2].
  simpl. now destruct o.
Qed.

Lemma process_raw_chunk_ingest p raw_chunk :
  DataPipeline.process_raw_chunk float_of_str strptime p raw_chunk =
  let st := ingest_rows float_of_str strptime raw_chunk
              (DataPipeline.cleaner p, DataPipeline.aggregator p) in
  DataPipeline.mkPipeline (DataPipeline.chunk_size p) (DataPipeline.config p)
    (fst st) (snd st).
Proof.
  unfold DataPipeline.process_raw_chunk. rewrite clean_chunk_ingest.
  destruct (DataPipeline.clean_chunk float_of_str strptime raw_chunk _)
    as [cleaned c]. simpl. now destruct cleaned.
Qed.

Lemma fold_chunks_ingest chunks p :
  fold_left (DataPipeline.process_raw_chunk float_of_str strptime) chunks p =
  let st := ingest_rows float_of_str strptime (List.concat chunks)
              (DataPipeline.cleaner p, DataPipeline.aggregator p) in
  DataPipeline.mkPipeline (DataPipeline.chunk_size p) (DataPipeline.config p)
    (fst st) (snd st).
Proof.
  revert p. induction chunks as [|ch chunks IH]; intros p; simpl.
  - now destruct p.
  - rewrite IH, process_raw_chunk_ingest. simpl.
    unfold ingest_rows. rewrite fold_left_app.
    now rewrite <- surjective_pairing.
Qed.

Lemma process_chunks_ingest rows p :
  DataPipeline._process_chunks float_of_str strptime rows p =
  let st := ingest_rows float_of_str strptime rows
              (DataPipeline.cleaner p, DataPipeline.aggregator p) in
  DataPipeline.mkPipeline (DataPipeline.chunk_size p) (DataPipeline.config p)
    (fst st) (snd st).
Proof.
  unfold DataPipeline._process_chunks. rewrite fold_chunks_ingest.
  now rewrite read_in_chunks_concat.
Qed.
End Pipeline.

(** C1: running the pipeline on the same rows with two batch sizes leaves
    the aggregator with identical accumulators (every key of the monthly,
    product, region and category buckets: revenue, quantity, discount and
    transaction count), the cleaner with identical counters, and yields
    identical finalized aggregates.  No assumption on the batch sizes is
    needed. *)
Theorem C1_chunking_invariance
    (float_of_str : string -> option float)
    (strptime : string -> string -> option datetime)
    (rows : list raw_row) (cfg : Config.config)
    (c : DataCleaner.cleaner) (a : DataAggregator.aggregator) (b1 b2 : Z) :
  let r1 := DataPipeline.run float_of_str strptime rows (DataPipeline.mkPipeline b1 cfg c a) in
  let r2 := DataPipeline.run float_of_str strptime rows (DataPipeline.mkPipeline b2 cfg c a) in
  DataPipeline.aggregator (fst r1) = DataPipeline.aggregator (fst r2) /\
  DataPipeline.cleaner (fst r1) = DataPipeline.cleaner (fst r2) /\
  snd r1 = snd r2.
Proof.
  unfold DataPipeline.run. simpl.
  rewrite !process_chunks_ingest. simpl. repeat split.
Qed.

(** ** One record through the aggregator *)

Import DataAggregator.

Lemma set_anomaly_records_same s : set_anomaly_records (anomaly_records s) s = s.
Proof. now destruct s. Qed.

Lemma update_aggregates_ok r rev q p d dt s :
  update_aggregates r rev q p d dt s = (Ok tt, aggregates_after r rev q p d dt s).
Proof. reflexivity. Qed.

Lemma statistical_checks_state rev q p s :
  snd (_statistical_anomaly_checks rev q p s) = s.
Proof.
  unfold _statistical_anomaly_checks, bind, get, lift, ret.
  destruct (float_div_int _ _); [|reflexivity].
  destruct (fgt rev _); (destruct (int_truediv _ _); [|reflexivity]);
    destruct (int_gt_float q _); (destruct (float_div_int _ _); [|reflexivity]);
    destruct (fgt p _); reflexivity.
Qed.

Lemma anomaly_scoring_state rev q p d s :
  snd (anomaly_scoring rev q p d s) = s.
Proof.
  unfold anomaly_scoring, bind, get, ret.
  destruct (100 <? records_processed s).
  - pose proof (statistical_checks_state rev q p s) as H.
    destruct (_statistical_anomaly_checks rev q p s) as [[x|e] s1]; exact H.
  - reflexivity.
Qed.

Lemma rev_cons_app (A : Type) (l : list A) (x : A) (t : list A) :
  List.rev l = x :: t -> l = List.rev t ++ [x] /\ removelast l = List.rev t.
Proof.
  intros H. assert (E : l = List.rev t ++ [x]).
  { rewrite <- (rev_involutive l), H. reflexivity. }
  split; [exact E|]. rewrite E. apply removelast_last.
Qed.

Lemma strictly_better_key_lt worst rec :
  (anomaly_score worst <? anomaly_score rec)
  || ((anomaly_score rec =? anomaly_score worst)
      && fgt (a_revenue rec) (a_revenue worst))
  = key_lt worst rec.
Proof.
  unfold key_lt, fgt. rewrite (Z.eqb_sym (anomaly_score rec)).
  destruct (Z.eqb_spec (anomaly_score worst) (anomaly_score rec)) as [E|E].
  - rewrite E, Z.ltb_irrefl. reflexivity.
  - rewrite andb_false_l, orb_false_r. reflexivity.
Qed.

Lemma update_anomaly_records_cases rec s :
  (exists l, anomaly_step (anomaly_limit s) (a_revenue rec) (anomaly_records s) l
             /\ _update_anomaly_records rec (anomaly_score rec) (a_revenue rec) s
                = (Ok tt, set_anomaly_records l s))
  \/ _update_anomaly_records rec (anomaly_score rec) (a_revenue rec) s
     = (Raise IndexError, s).
Proof.
  unfold _update_anomaly_records, bind, get, modify, ret, raise.
  destruct (Z.ltb_spec (Z.of_nat (List.length (anomaly_records s))) (anomaly_limit s))
    as [Hlt|Hge].
  - left. eexists. split; [|reflexivity]. now apply step_append.
  - destruct (List.rev (anomaly_records s)) as [|worst t] eqn:E; [now right|].
    destruct (rev_cons_app _ E) as [El Er].
    left. rewrite strictly_better_key_lt.
    destruct (key_lt worst rec) eqn:K.
    + eexists. split; [|reflexivity]. rewrite Er.
      eapply step_replace; eauto.
    + exists (anomaly_records s). split; [constructor|].
      now rewrite set_anomaly_records_same.
Qed.

Lemma detect_cases r rev q p d s :
  (exists l, anomaly_step (anomaly_limit s) rev (anomaly_records s) l
             /\ _detect_and_update_anomalies r rev q p d s
                = (Ok tt, set_anomaly_records l s))
  \/ (exists e, _detect_and_update_anomalies r rev q p d s = (Raise e, s)).
Proof.
  unfold _detect_and_update_anomalies, bind.
  pose proof (anomaly_scoring_state rev q p d s) as H.
  destruct (anomaly_scoring rev q p d s) as [[[score reasons]|e] s1];
    simpl in H; subst s1; [|right; eauto].
  destruct (2 <=? score).
  - destruct (update_anomaly_records_cases (mkAnomaly r rev score reasons) s)
      as [[l [Hs Hl]]|Hl]; simpl in Hl; rewrite Hl; [left|right]; eauto.
  - left. exists (anomaly_records s). split; [constructor|].
    now rewrite set_anomaly_records_same.
Qed.

Lemma required_present_fields r :
  required_present r = true ->
  exists rev q p d dt,
    revenue r = Some rev /\ quantity r = Some q /\ unit_price r = Some p /\
    discount_percent r = Some d /\ sale_date r = Some dt.
Proof.
  unfold required_present.
  destruct (revenue r) as [rev|], (quantity r) as [q|], (unit_price r) as [p|],
    (discount_percent r) as [d|], (sale_date r) as [dt|]; try discriminate.
  intros _. now exists rev, q, p, d, dt.
Qed.

Lemma process_single_missing r s :
  required_present r = false -> _process_single_record r s = (Raise ValueError, s).
Proof.
  unfold required_present, _process_single_record.
  destruct (revenue r), (quantity r), (unit_price r),
    (discount_percent r), (sale_date r); try discriminate; reflexivity.
Qed.

Lemma process_single_present r rev q p d dt s :
  revenue r = Some rev -> quantity r = Some q -> unit_price r = Some p ->
  discount_percent r = Some d -> sale_date r = Some dt ->
  _process_single_record r s =
  _detect_and_update_anomalies r rev q p d (aggregates_after r rev q p d dt s).
Proof.
  intros H1 H2 H3 H4 H5. unfold _process_single_record.
  rewrite H1, H2, H3, H4, H5. reflexivity.
Qed.

(** What one turn of the loop leaves behind. *)
Lemma process_record_cases r s :
  (required_present r = false /\ process_record s r = s)
  \/ (exists rev q p d dt l,
        revenue r = Some rev /\ quantity r = Some q /\ unit_price r = Some p /\
        discount_percent r = Some d /\ sale_date r = Some dt /\
        anomaly_step (anomaly_limit s) rev (anomaly_records s) l /\
        let s1 := aggregates_after r rev q p d dt s in
        (process_record s r
           = set_records_processed (records_processed s + 1) (set_anomaly_records l s1)
         \/ process_record s r = s1)).
Proof.
  destruct (required_present r) eqn:G.
  - right. destruct (required_present_fields r G) as (rev & q & p & d & dt & H).
    destruct H as (H1 & H2 & H3 & H4 & H5).
    unfold process_record. rewrite (process_single_present r s H1 H2 H3 H4 H5).
    destruct (detect_cases r rev q p d (aggregates_after r rev q p d dt s))
      as [[l [Hs Hl]]|[e He]].
    + exists rev, q, p, d, dt, l. rewrite Hl. repeat split; auto.
    + exists rev, q, p, d, dt, (anomaly_records s). rewrite He.
      repeat split; auto. constructor.
  - left. split; [reflexivity|]. unfold process_record.
    now rewrite process_single_missing.
Qed.

(** A property of the aggregator that every turn of the loop preserves
    holds after a chunk. *)
Lemma process_chunk_invariant (P : aggregator -> Prop) rs s :
  (forall s r, In r rs -> P s -> P (process_record s r)) ->
  P s -> P (process_chunk rs s).
Proof.
  revert s. induction rs as [|r rs IH]; intros s Hstep Hs; [exact Hs|].
  change (process_chunk (r :: rs) s) with (process_chunk rs (process_record s r)).
  apply IH.
  - intros s0 r0 Hin. apply Hstep. now right.
  - apply Hstep; [now left|exact Hs].
Qed.

(** ** Quantity totals *)

Lemma dict_update_total (K V : Type) (eqb : K -> K -> bool) (measure : V -> Z)
    k dflt f q (d : dict K V) :
  measure dflt = 0 -> (forall v, measure (f v) = measure v + q) ->
  dict_total measure (dict_update eqb k dflt f d) = dict_total measure d + q.
Proof.
  intros H0 Hf. induction d as [|[k' v] t IH]; simpl.
  - rewrite Hf, H0. lia.
  - destruct (eqb k k'); simpl; [rewrite Hf|rewrite IH]; lia.
Qed.

Lemma aggregates_after_monthly r rev q p d dt s :
  monthly_sales (aggregates_after r rev q p d dt s) =
  dict_update String.eqb (month_key dt) (mkMonthly 0 0 0 0)
    (add_monthly rev q d) (monthly_sales s).
Proof. reflexivity. Qed.

Lemma aggregates_after_product r rev q p d dt s :
  product_sales (aggregates_after r rev q p d dt s) =
  dict_update okey_eqb (product_name r) (mkSales 0 0) (add_sales rev q) (product_sales s).
Proof. reflexivity. Qed.

Lemma aggregates_after_region r rev q p d dt s :
  region_sales (aggregates_after r rev q p d dt s) =
  dict_update okey_eqb (region r) (mkSales 0 0) (add_sales rev q) (region_sales s).
Proof. reflexivity. Qed.

Lemma aggregates_after_category r rev q p d dt s :
  category_discounts (aggregates_after r rev q p d dt s) =
  dict_update okey_eqb (category r) (mkCategory 0 0 0) (add_category rev d)
    (category_discounts s).
Proof. reflexivity. Qed.

Lemma aggregates_after_anomaly r rev q p d dt s :
  anomaly_records (aggregates_after r rev q p d dt s) = anomaly_records s
  /\ anomaly_limit (aggregates_after r rev q p d dt s) = anomaly_limit s
  /\ top_products_limit (aggregates_after r rev q p d dt s) = top_products_limit s
  /\ records_processed (aggregates_after r rev q p d dt s) = records_processed s.
Proof. repeat split. Qed.

Lemma process_record_quantities r s :
  dict_total m_quantity (monthly_sales (process_record s r))
  = dict_total m_quantity (monthly_sales s)
    + (if required_present r then record_quantity r else 0)
  /\ dict_total s_quantity (region_sales (process_record s r))
  = dict_total s_quantity (region_sales s)
    + (if required_present r then record_quantity r else 0).
Proof.
  destruct (process_record_cases r s) as [[G H]|H].
  - rewrite H, G. lia.
  - destruct H as (rev & q & p & d & dt & l & H1 & H2 & H3 & H4 & H5 & Hst & H).
    assert (G : required_present r = true)
      by (unfold required_present; now rewrite H1, H2, H3, H4, H5).
    rewrite G. unfold record_quantity. rewrite H2.
    assert (Hm : dict_total m_quantity
                   (monthly_sales (aggregates_after r rev q p d dt s))
                 = dict_total m_quantity (monthly_sales s) + q)
      by (rewrite aggregates_after_monthly; now apply dict_update_total).
    assert (Hr : dict_total s_quantity
                   (region_sales (aggregates_after r rev q p d dt s))
                 = dict_total s_quantity (region_sales s) + q)
      by (rewrite aggregates_after_region; now apply dict_update_total).
    destruct H as [H|H]; rewrite H; simpl; auto.
Qed.

Lemma process_chunk_quantities rs s :
  dict_total m_quantity (monthly_sales (process_chunk rs s))
  = dict_total m_quantity (monthly_sales s) + ingested_quantity rs
  /\ dict_total s_quantity (region_sales (process_chunk rs s))
  = dict_total s_quantity (region_sales s) + ingested_quantity rs.
Proof.
  revert s. induction rs as [|r rs IH]; intros s; simpl.
  - lia.
  - destruct (IH (process_record s r)) as [I1 I2].
    destruct (process_record_quantities r s) as [P1 P2].
    change (process_chunk (r :: rs) s) with (process_chunk rs (process_record s r)).
    rewrite I1, I2, P1, P2. lia.
Qed.

Lemma finalize_monthly_total s :
  monthly_quantity_total (f_monthly_sales (finalize_aggregations s))
  = dict_total m_quantity (monthly_sales s).
Proof.
  unfold monthly_quantity_total, finalize_aggregations. simpl.
  induction (monthly_sales s) as [|[k b] t IH]; simpl; [reflexivity|].
  now rewrite IH.
Qed.

(** Every record the cleaner emits carries the five required fields. *)
Lemma clean_fields_present fs sp row r :
  DataCleaner.clean_fields fs sp row = Ok (Some r) -> required_present r = true.
Proof.
  unfold DataCleaner.clean_fields, rbind.
  destruct (DataCleaner._clean_quantity _) as [[q|]|]; try discriminate;
  destruct (DataCleaner._clean_float _ _) as [[p|]|]; try discriminate;
  destruct (DataCleaner._clean_discount _ _) as [[d|]|]; try discriminate;
  destruct (DataCleaner._clean_date _ _) as [dt|]; try discriminate.
  destruct (float_of_int q); try discriminate.
  intros H. injection H as <-. reflexivity.
Qed.

Lemma clean_record_present fs sp row c r c' :
  DataCleaner.clean_record fs sp row c = (Some r, c') -> required_present r = true.
Proof.
  unfold DataCleaner.clean_record.
  destruct (DataCleaner.clean_fields fs sp row) as [[r0|]|] eqn:E; try discriminate.
  intros H. injection H as <- _. eapply clean_fields_present; eauto.
Qed.

Lemma clean_chunk_present fs sp rows c :
  Forall (fun r => required_present r = true)
         (fst (DataPipeline.clean_chunk fs sp rows c)).
Proof.
  revert c. induction rows as [|row rest IH]; intros c; simpl; [constructor|].
  unfold DataPipeline.clean_record.
  destruct (DataCleaner.clean_record fs sp row c) as [o c1] eqn:E.
  specialize (IH c1).
  destruct (DataPipeline.clean_chunk fs sp rest c1) as [cleaned c2].
  simpl in *. destruct o as [r|]; [|exact IH].
  constructor; [|exact IH]. eapply clean_record_present; eauto.
Qed.

Lemma ingested_quantity_all rs :
  Forall (fun r => required_present r = true) rs ->
  ingested_quantity rs = records_quantity_total rs.
Proof.
  induction 1 as [|r rs Hr _ IH]; simpl; [reflexivity|].
  now rewrite Hr, IH.
Qed.

(** C8: for a run of the pipeline from a fresh aggregator, whatever the
    batch size and the limits, the quantities of the finalized monthly
    buckets and of the region buckets both add up to the total quantity of
    the records the cleaner emitted. *)
Theorem C8_quantity_totals_agree
    (float_of_str : string -> option float)
    (strptime : string -> string -> option datetime)
    (rows : list raw_row) (batch anomaly_limit top_products_limit : Z)
    (cfg : Config.config) :
  let p := DataPipeline.mkPipeline batch cfg DataCleaner.init
             (_reset_aggregations anomaly_limit top_products_limit) in
  let fin := snd (DataPipeline.run float_of_str strptime rows p) in
  let cleaned := cleaned_records float_of_str strptime rows in
  monthly_quantity_total (f_monthly_sales fin) = records_quantity_total cleaned
  /\ sales_quantity_total (f_region_sales fin) = records_quantity_total cleaned.
Proof.
  intros p fin cleaned. subst fin. unfold DataPipeline.run. cbn [snd].
  rewrite process_chunks_ingest. cbn zeta. cbn [DataPipeline.aggregator].
  subst p. cbn [DataPipeline.aggregator DataPipeline.cleaner].
  rewrite clean_chunk_ingest. cbn [snd].
  rewrite finalize_monthly_total. unfold sales_quantity_total.
  change (f_region_sales (finalize_aggregations ?s)) with (region_sales s).
  fold (cleaned_records float_of_str strptime rows). fold cleaned.
  destruct (process_chunk_quantities cleaned
              (_reset_aggregations anomaly_limit top_products_limit)) as [H1 H2].
  rewrite H1, H2. cbn [monthly_sales region_sales _reset_aggregations dict_total fold_right].
  rewrite ingested_quantity_all by apply clean_chunk_present. auto.
Qed.

(** ** A failure inside one record *)

Lemma aggregates_after_count r rev q p d dt s :
  count (revenue_stats (aggregates_after r rev q p d dt s))
  = count (revenue_stats s) + 1.
Proof. reflexivity. Qed.

Lemma process_single_raise r rev q p d dt e s s' :
  revenue r = Some rev -> quantity r = Some q -> unit_price r = Some p ->
  discount_percent r = Some d -> sale_date r = Some dt ->
  _process_single_record r s = (Raise e, s') ->
  s' = aggregates_after r rev q p d dt s.
Proof.
  intros H1 H2 H3 H4 H5 H.
  rewrite (process_single_present r s H1 H2 H3 H4 H5) in H.
  destruct (detect_cases r rev q p d (aggregates_after r rev q p d dt s))
    as [[l [_ Hl]]|[e' He]]; rewrite H in *; congruence.
Qed.

(** C10: when [_process_single_record] raises after its guard has passed,
    [process_chunk] absorbs the exception and goes on with the next record
    from the state the failed call left: the three running statistics and the
    monthly, product, region and category buckets have taken the record in
    (no rollback), while [records_processed] and the anomaly list are as
    before; that state differs from the one before the record. *)
Theorem C10_failure_keeps_partial_updates
    (r : record) (s s' : aggregator) (e : exn) :
  required_present r = true ->
  _process_single_record r s = (Raise e, s') ->
  (forall rest, process_chunk (r :: rest) s = process_chunk rest s')
  /\ records_processed s' = records_processed s
  /\ anomaly_records s' = anomaly_records s
  /\ (exists rev q p d dt,
        revenue r = Some rev /\ quantity r = Some q /\ unit_price r = Some p /\
        discount_percent r = Some d /\ sale_date r = Some dt /\
        s' = aggregates_after r rev q p d dt s /\
        revenue_stats s' = update_stat PrimFloat.add rev (revenue_stats s) /\
        quantity_stats s' = update_stat Z.add q (quantity_stats s) /\
        price_stats s' = update_stat PrimFloat.add p (price_stats s) /\
        monthly_sales s' = dict_update String.eqb (month_key dt) (mkMonthly 0 0 0 0)
                             (add_monthly rev q d) (monthly_sales s) /\
        product_sales s' = dict_update okey_eqb (product_name r) (mkSales 0 0)
                             (add_sales rev q) (product_sales s) /\
        region_sales s' = dict_update okey_eqb (region r) (mkSales 0 0)
                            (add_sales rev q) (region_sales s) /\
        category_discounts s' = dict_update okey_eqb (category r) (mkCategory 0 0 0)
                                  (add_category rev d) (category_discounts s))
  /\ s' <> s.
Proof.
  intros G H.
  destruct (required_present_fields r G) as (rev & q & p & d & dt & H1 & H2 & H3 & H4 & H5).
  pose proof (process_single_raise r s H1 H2 H3 H4 H5 H) as Hs'.
  split; [|split; [|split; [|split]]].
  - intros rest. unfold process_chunk. simpl. unfold process_record at 2.
    now rewrite H.
  - now subst s'.
  - now subst s'.
  - exists rev, q, p, d, dt. subst s'. repeat split; assumption.
  - intros E. pose proof (aggregates_after_count r rev q p d dt s) as Hc.
    rewrite <- Hs', E in Hc. lia.
Qed.

(** C10 on [big_order] with an anomaly limit of 0: the anomaly list is empty
    and full, [anomaly_records[-1]] raises, the buckets keep the record. *)
Lemma C10_witness :
  let s0 := _reset_aggregations 0 10 in
  let s1 := snd (_process_single_record big_order s0) in
  required_present big_order = true
  /\ _process_single_record big_order s0 = (Raise IndexError, s1)
  /\ process_chunk [big_order; big_order] s0 = process_chunk [big_order] s1
  /\ records_processed s1 = records_processed s0
  /\ s1 <> s0.
Proof.
  intros s0 s1.
  assert (G : required_present big_order = true) by reflexivity.
  assert (H : _process_single_record big_order s0 = (Raise IndexError, s1))
    by (vm_compute; reflexivity).
  destruct (@C10_failure_keeps_partial_updates big_order s0 s1 IndexError G H)
    as (W0 & W1 & _ & _ & W2).
  split; [exact G|]. split; [exact H|]. split; [apply W0|].
  split; [exact W1|exact W2].
Defined.

(** ** Size of the retained state *)

Lemma dict_update_keys (K V : Type) (eqb : K -> K -> bool) k dflt f (d : dict K V) :
  dict_keys (dict_update eqb k dflt f d) = add_key eqb k (dict_keys d).
Proof.
  unfold add_key, dict_keys. induction d as [|[k' v] t IH]; simpl; [reflexivity|].
  destruct (eqb k k'); simpl; [reflexivity|].
  rewrite IH. now destruct (existsb (eqb k) (map fst t)).
Qed.

Lemma first_seen_add (K : Type) (eqb : K -> K -> bool) k seen t :
  seen ++ first_seen eqb seen (k :: t)
  = add_key eqb k seen ++ first_seen eqb (add_key eqb k seen) t.
Proof.
  unfold add_key. simpl. destruct (existsb (eqb k) seen); [reflexivity|].
  now rewrite <- app_assoc.
Qed.

Lemma keys_after_chunk (K : Type) (eqb : K -> K -> bool)
    (key_of : record -> K) (keys : aggregator -> list K) :
  (forall s r, keys (process_record s r)
               = if required_present r then add_key eqb (key_of r) (keys s) else keys s) ->
  forall rs s, keys (process_chunk rs s)
               = keys s ++ first_seen eqb (keys s) (map key_of (ingested rs)).
Proof.
  intros Hstep. induction rs as [|r rs IH]; intros s.
  - simpl. now rewrite app_nil_r.
  - change (process_chunk (r :: rs) s) with (process_chunk rs (process_record s r)).
    rewrite IH, Hstep. unfold ingested. simpl filter.
    destruct (required_present r); [|reflexivity].
    simpl map. now rewrite first_seen_add.
Qed.

Lemma dict_keys_length (K V : Type) (d : dict K V) :
  List.length (dict_keys d) = List.length d.
Proof. apply length_map. Qed.

Ltac keys_step :=
  intros s r; destruct (process_record_cases r s) as [[G H]|H];
  [ rewrite H, G; reflexivity
  | destruct H as (rev & q & p & d & dt & l & H1 & H2 & H3 & H4 & H5 & _ & H);
    assert (G : required_present r = true)
      by (unfold required_present; now rewrite H1, H2, H3, H4, H5);
    rewrite G; unfold month_of; rewrite ?H5;
    destruct H as [H|H]; rewrite H; cbn zeta;
    cbn [monthly_sales product_sales region_sales category_discounts
         set_records_processed set_anomaly_records];
    rewrite ?aggregates_after_monthly, ?aggregates_after_product,
      ?aggregates_after_region, ?aggregates_after_category;
    apply dict_update_keys ].

Lemma monthly_keys_step s r :
  dict_keys (monthly_sales (process_record s r))
  = if required_present r
    then add_key String.eqb (month_of r) (dict_keys (monthly_sales s))
    else dict_keys (monthly_sales s).
Proof. revert s r. keys_step. Qed.

Lemma product_keys_step s r :
  dict_keys (product_sales (process_record s r))
  = if required_present r
    then add_key okey_eqb (product_name r) (dict_keys (product_sales s))
    else dict_keys (product_sales s).
Proof. revert s r. keys_step. Qed.

Lemma region_keys_step s r :
  dict_keys (region_sales (process_record s r))
  = if required_present r
    then add_key okey_eqb (region r) (dict_keys (region_sales s))
    else dict_keys (region_sales s).
Proof. revert s r. keys_step. Qed.

Lemma category_keys_step s r :
  dict_keys (category_discounts (process_record s r))
  = if required_present r
    then add_key okey_eqb (category r) (dict_keys (category_discounts s))
    else dict_keys (category_discounts s).
Proof. revert s r. keys_step. Qed.

Lemma anomaly_step_length limit rev l l' :
  anomaly_step limit rev l l' ->
  (List.length l <= Z.to_nat limit)%nat -> (List.length l' <= Z.to_nat limit)%nat.
Proof.
  intros [|rec Hr Hlt|rec l0 worst Hr El Hge Hk] Hl; [exact Hl| |].
  - unfold sort_anomalies. rewrite sort_desc_length, length_app. simpl. lia.
  - unfold sort_anomalies. rewrite sort_desc_length, length_app. simpl.
    subst l. rewrite length_app in Hl. simpl in Hl. exact Hl.
Qed.

Lemma update_stat_values_bound (T : Type) (add : T -> T -> T) x (st : stats T) :
  (List.length (values st) <= 1000)%nat ->
  (List.length (values (update_stat add x st)) <= 1000)%nat.
Proof.
  intros H. unfold update_stat. simpl.
  destruct (Z.ltb_spec (Z.of_nat (List.length (values st))) 1000); [|exact H].
  rewrite length_app. simpl. lia.
Qed.

Lemma process_record_limits s r :
  anomaly_limit (process_record s r) = anomaly_limit s
  /\ top_products_limit (process_record s r) = top_products_limit s.
Proof.
  destruct (process_record_cases r s) as [[G H]|H].
  - now rewrite H.
  - destruct H as (rev & q & p & d & dt & l & _ & _ & _ & _ & _ & _ & H).
    destruct H as [H|H]; rewrite H; split; reflexivity.
Qed.

Lemma process_chunk_limits rs s :
  anomaly_limit (process_chunk rs s) = anomaly_limit s
  /\ top_products_limit (process_chunk rs s) = top_products_limit s.
Proof.
  apply (process_chunk_invariant
           (fun s' => anomaly_limit s' = anomaly_limit s
                      /\ top_products_limit s' = top_products_limit s)); [|auto].
  intros s0 r _ [H1 H2]. destruct (process_record_limits s0 r) as [L1 L2].
  split; congruence.
Qed.

Lemma process_record_bounded s r :
  bounded_state s -> bounded_state (process_record s r).
Proof.
  intros (Ha & Hr & Hq & Hp).
  destruct (process_record_cases r s) as [[G H]|H].
  - rewrite H. repeat split; assumption.
  - destruct H as (rev & q & p & d & dt & l & _ & _ & _ & _ & _ & Hst & H).
    pose proof (anomaly_step_length Hst Ha) as Hl.
    pose proof (update_stat_values_bound PrimFloat.add rev (revenue_stats s) Hr) as B1.
    pose proof (update_stat_values_bound Z.add q (quantity_stats s) Hq) as B2.
    pose proof (update_stat_values_bound PrimFloat.add p (price_stats s) Hp) as B3.
    destruct H as [H|H]; rewrite H; repeat split; assumption.
Qed.

Lemma slice_to_length (A : Type) n (l : list A) :
  (List.length (slice_to n l) <= List.length l)%nat
  /\ (0 <= n -> (List.length (slice_to n l) <= Z.to_nat n)%nat).
Proof.
  unfold slice_to. destruct (Z.leb_spec 0 n).
  - rewrite length_firstn. lia.
  - rewrite length_firstn. lia.
Qed.

Lemma first_seen_not_seen (K : Type) (eqb : K -> K -> bool) seen l k :
  (forall a b, eqb a b = true <-> a = b) ->
  In k (first_seen eqb seen l) -> ~ In k seen.
Proof.
  intros Heq. revert seen. induction l as [|x t IH]; intros seen; simpl; [tauto|].
  destruct (existsb (eqb x) seen) eqn:E; [apply IH|].
  intros [<-|Hin] Hs.
  - assert (existsb (eqb x) seen = true); [|congruence].
    apply existsb_exists. exists x. split; [exact Hs|now apply Heq].
  - apply (IH _ Hin). apply in_or_app. now left.
Qed.

(** [first_seen] lists each key once. *)
Lemma first_seen_NoDup (K : Type) (eqb : K -> K -> bool) seen l :
  (forall a b, eqb a b = true <-> a = b) ->
  NoDup (first_seen eqb seen l).
Proof.
  intros Heq. revert seen. induction l as [|x t IH]; intros seen; simpl; [constructor|].
  destruct (existsb (eqb x) seen); [apply IH|].
  constructor; [|apply IH].
  intros Hin. apply (first_seen_not_seen _ _ _ _ Heq) in Hin.
  apply Hin, in_or_app. right. now left.
Qed.

Lemma first_seen_incl (K : Type) (eqb : K -> K -> bool) seen l k :
  In k (first_seen eqb seen l) -> In k l.
Proof.
  revert seen. induction l as [|x t IH]; intros seen; simpl; [tauto|].
  destruct (existsb (eqb x) seen); [right; eauto|].
  intros [<-|Hin]; [now left|right; eauto].
Qed.

Lemma okey_eqb_eq a b : okey_eqb a b = true <-> a = b.
Proof.
  destruct a as [x|], b as [y|]; simpl; try (split; congruence).
  rewrite String.eqb_eq. split; congruence.
Qed.

(** C2: after any stream of records has gone through a fresh aggregator,
    each bucket dictionary holds exactly one entry per distinct key seen (in
    first-seen order), the anomaly list holds at most [anomaly_limit] records,
    each sample at most 1000 values, and the top-product list at most
    [top_products_limit] entries (for a non-negative limit) and never more
    than there are products; so the number of retained entries is bounded
    by the distinct keys, the limits and the cap, whatever the number of
    rows. *)
Theorem C2_retained_state_bounded
    (anomaly_limit top_products_limit : Z) (rs : list record) :
  let s := process_chunk rs (_reset_aggregations anomaly_limit top_products_limit) in
  dict_keys (monthly_sales s) = distinct_months rs
  /\ dict_keys (product_sales s) = distinct_products rs
  /\ dict_keys (region_sales s) = distinct_regions rs
  /\ dict_keys (category_discounts s) = distinct_categories rs
  /\ (List.length (anomaly_records s) <= Z.to_nat anomaly_limit)%nat
  /\ (List.length (values (revenue_stats s)) <= 1000)%nat
  /\ (List.length (values (quantity_stats s)) <= 1000)%nat
  /\ (List.length (values (price_stats s)) <= 1000)%nat
  /\ List.length (top_products (finalize_aggregations s))
     = Nat.min (Z.to_nat (if 0 <=? top_products_limit then top_products_limit
                          else Z.of_nat (List.length (distinct_products rs))
                               + top_products_limit))
               (List.length (distinct_products rs))
  /\ (retained_size s + List.length (top_products (finalize_aggregations s))
      <= List.length (distinct_months rs) + 2 * List.length (distinct_products rs)
         + List.length (distinct_regions rs) + List.length (distinct_categories rs)
         + Z.to_nat anomaly_limit + 3000)%nat.
Proof.
  intros s.
  assert (Km : dict_keys (monthly_sales s) = distinct_months rs)
    by apply (keys_after_chunk String.eqb month_of
                (fun s => dict_keys (monthly_sales s)) monthly_keys_step).
  assert (Kp : dict_keys (product_sales s) = distinct_products rs)
    by apply (keys_after_chunk okey_eqb product_name
                (fun s => dict_keys (product_sales s)) product_keys_step).
  assert (Kr : dict_keys (region_sales s) = distinct_regions rs)
    by apply (keys_after_chunk okey_eqb region
                (fun s => dict_keys (region_sales s)) region_keys_step).
  assert (Kc : dict_keys (category_discounts s) = distinct_categories rs)
    by apply (keys_after_chunk okey_eqb category
                (fun s => dict_keys (category_discounts s)) category_keys_step).
  assert (B : bounded_state s).
  { apply process_chunk_invariant.
    - intros s0 r _. apply process_record_bounded.
    - unfold bounded_state. simpl. lia. }
  destruct B as (Ba & Br & Bq & Bp).
  destruct (process_chunk_limits rs (_reset_aggregations anomaly_limit top_products_limit))
    as [La Lt]. fold s in La, Lt. simpl in La, Lt. rewrite La in Ba.
  assert (T : List.length (top_products (finalize_aggregations s))
              = Nat.min (Z.to_nat (if 0 <=? top_products_limit then top_products_limit
                                   else Z.of_nat (List.length (distinct_products rs))
                                        + top_products_limit))
                        (List.length (distinct_products rs))).
  { unfold finalize_aggregations. cbn [top_products]. rewrite Lt.
    rewrite <- Kp, dict_keys_length.
    unfold slice_to. rewrite <- (sort_desc_length revenue_lt (product_sales s)).
    destruct (0 <=? top_products_limit); now rewrite length_firstn. }
  repeat (split; [assumption|]).
  unfold retained_size. rewrite T.
  rewrite <- Km, <- Kp, <- Kr, <- Kc in *. rewrite !dict_keys_length in *. lia.
Qed.

(** ** Construction and configuration *)

(** C3, as stated, fails: the aggregator and the pipeline are constructed
    without error from an anomaly limit of 0, a top-products limit of -1 and a
    batch size of -5. *)
Lemma C3_counterexample :
  DataAggregator.init 0 (-1) = Ok (DataAggregator._reset_aggregations 0 (-1))
  /\ (forall e, DataAggregator.init 0 (-1) <> Raise e)
  /\ DataPipeline.init (-5) (config_with (-5) 0 (-1)) (Ok tt)
     = Ok (DataPipeline.mkPipeline (-5) (config_with (-5) 0 (-1)) DataCleaner.init
             (DataAggregator._reset_aggregations 0 (-1)))
  /\ (forall e, DataPipeline.init (-5) (config_with (-5) 0 (-1)) (Ok tt) <> Raise e).
Proof. repeat split; discriminate. Qed.

(** C3, amended: constructing the aggregator or the pipeline never fails on
    account of the anomaly limit, the top-products limit or the batch size;
    whatever their sign they are stored as given, the only failure of the
    pipeline constructor being that of creating the output directory.
    [validate_config] reports one flag per setting, false exactly when the
    value is not positive, and raises nothing. *)
Theorem C3_construction_never_rejects
    (chunk_size anomaly_limit top_products_limit : Z) (cfg : Config.config) :
  (exists a, DataAggregator.init anomaly_limit top_products_limit = Ok a
             /\ DataAggregator.anomaly_limit a = anomaly_limit
             /\ DataAggregator.top_products_limit a = top_products_limit)
  /\ (exists p, DataPipeline.init chunk_size cfg (Ok tt) = Ok p
                /\ DataPipeline.chunk_size p = chunk_size
                /\ DataAggregator.anomaly_limit (DataPipeline.aggregator p)
                   = Config.ANOMALY_RECORDS_LIMIT cfg
                /\ DataAggregator.top_products_limit (DataPipeline.aggregator p)
                   = Config.TOP_PRODUCTS_LIMIT cfg)
  /\ (forall e, DataPipeline.init chunk_size cfg (Raise e) = Raise e)
  /\ Config.v_chunk_size (Config.validate_config cfg)
     = (0 <? Config.DEFAULT_CHUNK_SIZE cfg)
  /\ Config.v_anomaly_limit (Config.validate_config cfg)
     = (0 <? Config.ANOMALY_RECORDS_LIMIT cfg)
  /\ Config.v_top_products_limit (Config.validate_config cfg)
     = (0 <? Config.TOP_PRODUCTS_LIMIT cfg).
Proof.
  split; [|split; [|split]].
  - eexists. split; [reflexivity|]. split; reflexivity.
  - eexists. split; [reflexivity|]. repeat split.
  - reflexivity.
  - repeat split.
Qed.

(** ** The cleaner *)

Import DataCleaner.











Lemma clean_discount_range fs value d :
  _clean_discount fs value = Ok (Some d) ->
  (0 <=? d)%float = true /\ (d <=? 1)%float = true.
Proof.
  unfold _clean_discount.
  destruct (py_float fs value) as [x|[]]; try discriminate.
  destruct ((0 <=? x)%float) eqn:E1, ((x <=? 1)%float) eqn:E2; simpl; try discriminate.
  intros H. injection H as <-. now split.
Qed.

Lemma clean_quantity_positive value q :
  _clean_quantity value = Ok (Some q) ->
  match value with PFloat _ => True | _ => 0 < q end.
Proof.
  destruct value as [|z|f|s]; simpl; try discriminate; [|exact (fun _ => I)|].
  - destruct (Z.ltb_spec 0 z); [|discriminate]. intros E. injection E as <-. assumption.
  - destruct (startswith "-" (strip s)); [discriminate|].
    destruct (int_of_digit_string (digits_only s)) as [n|[]]; try discriminate.
    destruct (Z.ltb_spec 0 n); [|discriminate].
    intros E. injection E as <-. assumption.
Qed.

Lemma clean_fields_emitted fs sp row r :
  clean_fields fs sp row = Ok (Some r) ->
  exists q p d dt qf,
    _clean_quantity (raw_quantity row) = Ok (Some q)
    /\ _clean_float fs (raw_unit_price row) = Ok (Some p)
    /\ _clean_discount fs (raw_discount_percent row) = Ok (Some d)
    /\ _clean_date sp (raw_sale_date row) = Some dt
    /\ float_of_int q = Ok qf
    /\ r = mkRecord (raw_order_id row)
             (_standardize_string (raw_product_name row) PRODUCT_NAME_MAP)
             (_standardize_string (raw_category row) CATEGORY_MAP)
             (_standardize_string (raw_region row) REGION_MAP)
             (Some q) (Some p) (Some d) (Some dt)
             (_clean_email (raw_customer_email row))
             (Some (qf * p * (1 - d))%float).
Proof.
  unfold clean_fields, rbind.
  destruct (_clean_quantity _) as [[q|]|]; try discriminate;
  destruct (_clean_float _ _) as [[p|]|]; try discriminate;
  destruct (_clean_discount _ _) as [[d|]|]; try discriminate;
  destruct (_clean_date _ _) as [dt|]; try discriminate.
  destruct (float_of_int q) as [qf|] eqn:E; try discriminate.
  intros H. injection H as <-. exists q, p, d, dt, qf. repeat split; auto.
Qed.

(** C4, as stated, fails on the unit price: a row in the shape of the
    cleaner tests with [unit_price = -1000.0], as a float or as the string
    ["-1000.0"] of a CSV field, is emitted, with a negative unit price and a
    negative revenue. *)
Lemma C4_counterexample :
  exists r c r' c',
    Sample.clean_record (test_row (PStr "10") (PFloat (-1000))) DataCleaner.init
    = (Some r, c)
    /\ unit_price r = Some (-1000)%float
    /\ ((-1000) <? 0)%float = true
    /\ revenue r = Some (-5000)%float
    /\ Sample.clean_record (test_row (PStr "10") (PStr "-1000.0")) DataCleaner.init
       = (Some r', c')
    /\ unit_price r' = Some (-1000)%float.
Proof.
  do 4 eexists.
  split; [vm_compute; reflexivity|]. split; [reflexivity|].
  split; [reflexivity|]. split; [reflexivity|].
  split; [vm_compute; reflexivity|]. reflexivity.
Qed.

(** C4, amended: a record that [clean_record] emits has its four validated
    fields non-null (so a row for which one of them cleans to null is never
    emitted), a quantity that is a strictly positive integer when the raw
    quantity is a string or an integer, a unit price that is whatever float
    the raw value converts to (its sign is not checked), a discount within
    [0.0, 1.0], and a revenue equal to the binary64 product
    [quantity * unit_price * (1 - discount_percent)]. *)
Theorem C4_cleaned_record_fields
    (float_of_str : string -> option float)
    (strptime : string -> string -> option datetime)
    (row : raw_row) (c c' : cleaner) (r : record) :
  clean_record float_of_str strptime row c = (Some r, c') ->
  exists q p d dt qf,
    _clean_quantity (raw_quantity row) = Ok (Some q)
    /\ _clean_float float_of_str (raw_unit_price row) = Ok (Some p)
    /\ _clean_discount float_of_str (raw_discount_percent row) = Ok (Some d)
    /\ _clean_date strptime (raw_sale_date row) = Some dt
    /\ quantity r = Some q /\ unit_price r = Some p
    /\ discount_percent r = Some d /\ sale_date r = Some dt
    /\ match raw_quantity row with PFloat _ => True | _ => 0 < q end
    /\ (0 <=? d)%float = true /\ (d <=? 1)%float = true
    /\ float_of_int q = Ok qf
    /\ revenue r = Some (qf * p * (1 - d))%float
    /\ records_processed c' = records_processed c + 1
    /\ records_dropped c' = records_dropped c.
Proof.
  unfold clean_record.
  destruct (clean_fields float_of_str strptime row) as [[r0|]|] eqn:E; try discriminate.
  intros H. injection H as <- <-.
  destruct (clean_fields_emitted _ _ _ E) as (q & p & d & dt & qf & Hq & Hp & Hd & Hdt & Hf & ->).
  destruct (clean_discount_range _ _ Hd) as [D1 D2].
  exists q, p, d, dt, qf. simpl.
  repeat (split; [first [assumption|reflexivity]|]).
  split; [exact (clean_quantity_positive _ Hq)|].
  repeat (split; [first [assumption|reflexivity]|]). reflexivity.
Qed.

(** C4 on the row of the valid-record test. *)
Lemma C4_witness :
  Sample.clean_record (test_row (PStr "10") (PFloat 1000)) DataCleaner.init
  = (Some test_record, mkCleaner 1 0)
  /\ exists q p d dt qf,
    _clean_quantity (PStr "10") = Ok (Some q)
    /\ _clean_float Sample.float_of_str (PFloat 1000) = Ok (Some p)
    /\ _clean_discount Sample.float_of_str (PFloat 0.5) = Ok (Some d)
    /\ _clean_date Sample.strptime (PStr "2024-01-15 10:00:00") = Some dt
    /\ quantity test_record = Some q /\ unit_price test_record = Some p
    /\ discount_percent test_record = Some d /\ sale_date test_record = Some dt
    /\ 0 < q
    /\ (0 <=? d)%float = true /\ (d <=? 1)%float = true
    /\ float_of_int q = Ok qf
    /\ revenue test_record = Some (qf * p * (1 - d))%float
    /\ records_processed (mkCleaner 1 0) = records_processed DataCleaner.init + 1
    /\ records_dropped (mkCleaner 1 0) = records_dropped DataCleaner.init.
Proof.
  assert (H : Sample.clean_record (test_row (PStr "10") (PFloat 1000)) DataCleaner.init
              = (Some test_record, mkCleaner 1 0)) by (vm_compute; reflexivity).
  split; [exact H|].
  exact (@C4_cleaned_record_fields Sample.float_of_str Sample.strptime
           (test_row (PStr "10") (PFloat 1000)) DataCleaner.init (mkCleaner 1 0)
           test_record H).
Defined.

(** ** Anomaly scoring *)

Import DataAggregator.

Lemma SFmul_comm x y : SFmul prec emax x y = SFmul prec emax y x.
Proof.
  destruct x as [sx|sx| |sx mx ex], y as [sy|sy| |sy my ey]; simpl;
    try reflexivity; try (now rewrite xorb_comm).
  now rewrite xorb_comm, Pos.mul_comm, Z.add_comm.
Qed.

Lemma fmul_comm x y : (x * y)%float = (y * x)%float.
Proof. apply Prim2SF_inj. rewrite !mul_spec. apply SFmul_comm. Qed.

Lemma statistical_checks_spec rev q p s avg_r avg_q avg_p :
  running_means s = Ok (avg_r, avg_q, avg_p) ->
  exists reasons,
    _statistical_anomaly_checks rev q p s
    = (Ok ((if fgt rev (float_of_Z 10 * avg_r)%float then 3 else 0)
           + (if int_gt_float q (float_of_Z 5 * avg_q)%float then 2 else 0)
           + (if fgt p (float_of_Z 5 * avg_p)%float then 2 else 0), reasons), s).
Proof.
  unfold running_means, _statistical_anomaly_checks, bind, get, lift, ret, rbind, fmul_int.
  destruct (float_div_int (total (revenue_stats s)) _) as [ar|]; [|discriminate].
  destruct (int_truediv _ _) as [aq|]; [|discriminate].
  destruct (float_div_int (total (price_stats s)) _) as [ap|]; [|discriminate].
  intros H. injection H as -> -> ->.
  rewrite !(fmul_comm (float_of_Z _)).
  destruct (fgt rev _), (int_gt_float q _), (fgt p _); eexists; reflexivity.
Qed.

Lemma business_rules_score p d rev q :
  fst (_discount_anomaly_checks p d) + fst (_revenue_threshold_anomaly rev)
  + fst (_extreme_combination_anomaly q p)
  = (if fgt d 0x1.6666666666666p-1 then 1 else 0)
    + (if float_gt_int p 1000 && fgt d 0.5 then 2 else 0)
    + (if float_gt_int rev 50000 then 1 else 0)
    + (if (100 <? q) && float_gt_int p 500 then 2 else 0).
Proof.
  unfold _discount_anomaly_checks, _revenue_threshold_anomaly,
    _extreme_combination_anomaly.
  destruct (fgt d 0x1.6666666666666p-1), (float_gt_int p 1000 && fgt d 0.5),
    (float_gt_int rev 50000), ((100 <? q) && float_gt_int p 500); reflexivity.
Qed.

Lemma anomaly_scoring_spec rev q p d s means :
  (100 < records_processed s -> running_means s = Ok means) ->
  exists reasons,
    anomaly_scoring rev q p d s
    = (Ok (spec_score (records_processed s) means rev q p d, reasons), s).
Proof.
  intros Hm. destruct means as [[avg_r avg_q] avg_p].
  unfold anomaly_scoring, spec_score, bind, get, ret.
  pose proof (business_rules_score p d rev q) as B.
  destruct (Z.ltb_spec 100 (records_processed s)) as [Hlt|Hge].
  - destruct (statistical_checks_spec rev q p s (Hm Hlt)) as [reasons ->].
    eexists. cbn [fst snd].
    match goal with
    | |- (Ok (?a, _), _) = (Ok (?b, _), _) => replace a with b by lia
    end. reflexivity.
  - eexists. cbn [fst snd].
    match goal with
    | |- (Ok (?a, _), _) = (Ok (?b, _), _) => replace a with b by lia
    end. reflexivity.
Qed.

(** C6: when a record is ingested, the score computed for it is the stated
    sum: 3, 2 and 2 for revenue, quantity and unit price above 10, 5 and 5
    times their running means (the means include the record itself, and these
    three rules run only when more than 100 records have been processed), plus
    1 for a discount above 0.7, 2 for a unit price above 1000 with a discount
    above 0.5, 1 for a revenue above 50000 and 2 for a quantity above 100 with
    a unit price above 500; the record is handed to the anomaly list exactly
    when that score is at least 2. *)
Theorem C6_anomaly_score
    (r : record) (rev : float) (q : Z) (p d : float) (dt : datetime)
    (s0 : aggregator) (means : float * float * float) :
  revenue r = Some rev -> quantity r = Some q -> unit_price r = Some p ->
  discount_percent r = Some d -> sale_date r = Some dt ->
  let s := aggregates_after r rev q p d dt s0 in
  (100 < records_processed s0 -> running_means s = Ok means) ->
  let score := spec_score (records_processed s0) means rev q p d in
  exists reasons,
    anomaly_scoring rev q p d s = (Ok (score, reasons), s)
    /\ _process_single_record r s0
       = if 2 <=? score
         then _update_anomaly_records (mkAnomaly r rev score reasons) score rev s
         else (Ok tt, s).
Proof.
  intros H1 H2 H3 H4 H5 s Hm score.
  destruct (@anomaly_scoring_spec rev q p d s means Hm) as [reasons H].
  exists reasons. split; [exact H|].
  rewrite (process_single_present r s0 H1 H2 H3 H4 H5). fold s.
  unfold _detect_and_update_anomalies, bind. rewrite H.
  change (spec_score (records_processed s) means rev q p d) with score.
  destruct (2 <=? score); reflexivity.
Qed.

(** C6 on [warm_order], the 102nd record of [warm_state]: revenue 2000 is
    above 10 times the mean 100 and quantity 20 above 5 times the mean 2, a
    score of 5. *)
Lemma C6_witness :
  let s := aggregates_after warm_order 2000 20 100 0 (mkDatetime 2024 3 1 0 0 0)
             warm_state in
  (100 < records_processed warm_state ->
   running_means s = Ok (100%float, 2%float, 50%float))
  /\ spec_score 101 (100%float, 2%float, 50%float) 2000 20 100 0 = 5
  /\ exists reasons,
      anomaly_scoring 2000 20 100 0 s = (Ok (5, reasons), s)
      /\ _process_single_record warm_order warm_state
         = _update_anomaly_records (mkAnomaly warm_order 2000 5 reasons) 5 2000 s.
Proof.
  intros s.
  assert (Hm : 100 < records_processed warm_state ->
               running_means s = Ok (100%float, 2%float, 50%float))
    by (intros _; vm_compute; reflexivity).
  split; [exact Hm|]. split; [vm_compute; reflexivity|].
  exact (@C6_anomaly_score warm_order 2000 20 100 0 (mkDatetime 2024 3 1 0 0 0)
           warm_state _ eq_refl eq_refl eq_refl eq_refl eq_refl Hm).
Defined.

(** ** The bounded anomaly list *)

Import DataAggregator.

Lemma key_lt_asym x y : key_lt x y = true -> key_lt y x = false.
Proof.
  unfold key_lt. rewrite (Z.eqb_sym (anomaly_score y)).
  destruct (Z.eqb_spec (anomaly_score x) (anomaly_score y)) as [E|E].
  - apply ltb_asym.
  - intros H. apply Z.ltb_lt in H. apply Z.ltb_ge. lia.
Qed.

Lemma key_lt_negtrans x y z :
  anomaly_is_number x -> anomaly_is_number y -> anomaly_is_number z ->
  key_lt x y = false -> key_lt y z = false -> key_lt x z = false.
Proof.
  unfold key_lt, anomaly_is_number. intros Gx Gy Gz.
  destruct (Z.eqb_spec (anomaly_score x) (anomaly_score y)) as [E1|E1],
           (Z.eqb_spec (anomaly_score y) (anomaly_score z)) as [E2|E2],
           (Z.eqb_spec (anomaly_score x) (anomaly_score z)) as [E3|E3];
    rewrite ?Z.ltb_ge; try lia; try (intros; apply (ltb_negtrans Gx Gy Gz); assumption).
Qed.



Lemma Sorted_weaken (A : Type) (R R' : A -> A -> Prop) (good : A -> Prop) l :
  (forall a b, good a -> good b -> R a b -> R' a b) ->
  Forall good l -> Sorted R l -> Sorted R' l.
Proof.
  intros HR Hg Hs. induction Hs as [|x t Ht IH Hhd]; [constructor|].
  inversion Hg as [|? ? Gx Gt]; subst.
  constructor; [now apply IH|].
  destruct Hhd as [|y u Hxy]; constructor.
  inversion Gt; subst. now apply HR.
Qed.







(** ** The top-products ranking *)

Import DataAggregator.










(** ** The reader's chunks *)

Lemma chunks_from_shape n rows chunk :
  0 < n -> Z.of_nat (List.length chunk) < n ->
  let chunks := CSVReader.chunks_from n rows chunk in
  Forall (fun c => Z.of_nat (List.length c) = n) (removelast chunks)
  /\ Forall (fun c => c <> [] /\ Z.of_nat (List.length c) <= n) chunks
  /\ Z.of_nat (List.length chunks)
     = (Z.of_nat (List.length chunk) + Z.of_nat (List.length rows) + n - 1) / n.
Proof.
  intros Hn. revert chunk. induction rows as [|row rest IH]; intros chunk Hc; simpl.
  - destruct chunk as [|r0 c0].
    + simpl. repeat split; try constructor.
      symmetry. apply Z.div_small. lia.
    + split; [constructor|]. split.
      * constructor; [|constructor]. split; [discriminate|lia].
      * cbn [List.length] in *. rewrite Z.add_0_r.
        replace (Z.of_nat (S (List.length c0)) + n - 1)
          with (1 * n + (Z.of_nat (S (List.length c0)) - 1)) by lia.
        rewrite Z.div_add_l by lia. rewrite Z.div_small by lia. reflexivity.
  - assert (L : Z.of_nat (List.length (chunk ++ [row])) = Z.of_nat (List.length chunk) + 1)
      by (rewrite length_app; simpl; lia).
    destruct (Z.eqb_spec (Z.of_nat (List.length (chunk ++ [row]))) n) as [E|E].
    + destruct (IH [] ltac:(simpl; lia)) as (I1 & I2 & I3).
      split; [|split].
      * simpl. destruct (CSVReader.chunks_from n rest []) eqn:R; constructor; auto.
      * constructor; [|exact I2]. split; [now destruct chunk|lia].
      * cbn [List.length]. rewrite Nat2Z.inj_succ, I3.
        match goal with
        | |- _ = ?a / n =>
            replace a with (1 * n + (Z.of_nat 0 + Z.of_nat (List.length rest) + n - 1))
              by (rewrite ?Zpos_P_of_succ_nat; lia)
        end.
        rewrite Z.div_add_l by lia. cbn [List.length]. unfold Z.succ. ring.
    + destruct (IH (chunk ++ [row]) ltac:(lia)) as (I1 & I2 & I3).
      split; [exact I1|]. split; [exact I2|].
      rewrite I3, L. f_equal. simpl List.length. lia.
Qed.

(** X1: for a positive chunk size, [read_in_chunks] yields the rows in
    order and without loss, every chunk but the last holds exactly
    [chunk_size] rows, no chunk is empty or longer than [chunk_size], and the
    number of chunks is the number of rows divided by [chunk_size], rounded
    up. *)
Theorem X1_chunks_shape (n : Z) (rows : list raw_row) :
  0 < n ->
  let chunks := CSVReader.read_in_chunks n rows in
  List.concat chunks = rows
  /\ Forall (fun c => Z.of_nat (List.length c) = n) (removelast chunks)
  /\ Forall (fun c => c <> [] /\ Z.of_nat (List.length c) <= n) chunks
  /\ Z.of_nat (List.length chunks) = (Z.of_nat (List.length rows) + n - 1) / n.
Proof.
  intros Hn chunks. split; [apply read_in_chunks_concat|].
  destruct (@chunks_from_shape n rows [] Hn ltac:(simpl; lia)) as (H1 & H2 & H3).
  repeat split; auto.
Qed.

Lemma chunks_from_single n rows chunk :
  n <= 0 \/ Z.of_nat (List.length chunk) + Z.of_nat (List.length rows) < n ->
  CSVReader.chunks_from n rows chunk
  = match chunk ++ rows with [] => [] | all => [all] end.
Proof.
  revert chunk. induction rows as [|row rest IH]; intros chunk H; simpl.
  - rewrite app_nil_r. now destruct chunk.
  - assert (L : Z.of_nat (List.length (chunk ++ [row])) = Z.of_nat (List.length chunk) + 1)
      by (rewrite length_app; simpl; lia).
    destruct (Z.eqb_spec (Z.of_nat (List.length (chunk ++ [row]))) n) as [E|E].
    + exfalso. simpl List.length in H. lia.
    + rewrite IH by (simpl List.length in H; lia).
      rewrite <- app_assoc. reflexivity.
Qed.

(** X2: a chunk size that is zero, negative or larger than the number of
    rows makes [read_in_chunks] yield all the rows as one chunk, and nothing
    at all for an empty input. *)
Theorem X2_single_chunk (n : Z) (rows : list raw_row) :
  n <= 0 \/ Z.of_nat (List.length rows) < n ->
  CSVReader.read_in_chunks n rows = match rows with [] => [] | _ => [rows] end.
Proof.
  intros H. unfold CSVReader.read_in_chunks.
  rewrite chunks_from_single by (simpl; lia). now destruct rows.
Qed.

(** X1 on five rows in chunks of two. *)
Lemma X1_witness :
  0 < 2
  /\ List.concat (CSVReader.read_in_chunks 2 five_rows) = five_rows
  /\ Forall (fun c => Z.of_nat (List.length c) = 2)
            (removelast (CSVReader.read_in_chunks 2 five_rows))
  /\ Forall (fun c => c <> [] /\ Z.of_nat (List.length c) <= 2)
            (CSVReader.read_in_chunks 2 five_rows)
  /\ Z.of_nat (List.length (CSVReader.read_in_chunks 2 five_rows)) = 3.
Proof.
  assert (H : 0 < 2) by lia.
  split; [exact H|]. exact (@X1_chunks_shape 2 five_rows H).
Defined.

(** X2 on five rows with chunk sizes 0 and 100. *)
Lemma X2_witness :
  (0 <= 0 \/ Z.of_nat (List.length five_rows) < 0)
  /\ CSVReader.read_in_chunks 0 five_rows = [five_rows]
  /\ CSVReader.read_in_chunks 100 five_rows = [five_rows].
Proof.
  assert (H : 0 <= 0 \/ Z.of_nat (List.length five_rows) < 0) by (left; lia).
  split; [exact H|]. split.
  - exact (@X2_single_chunk 0 five_rows H).
  - apply (@X2_single_chunk 100 five_rows). right. simpl. lia.
Defined.

(** ** The cleaner's counters *)

Lemma clean_record_counters fs sp row c :
  let oc := DataCleaner.clean_record fs sp row c in
  DataCleaner.records_processed (snd oc) = DataCleaner.records_processed c + 1
  /\ DataCleaner.records_dropped (snd oc)
     = DataCleaner.records_dropped c
       + match fst oc with Some _ => 0 | None => 1 end.
Proof.
  unfold DataCleaner.clean_record.
  destruct (DataCleaner.clean_fields fs sp row) as [[r|]|e]; simpl; split; lia.
Qed.

Lemma clean_chunk_cons fs sp row rest c :
  DataPipeline.clean_chunk fs sp (row :: rest) c
  = (match fst (DataCleaner.clean_record fs sp row c) with
     | Some r =>
         r :: fst (DataPipeline.clean_chunk fs sp rest
                     (snd (DataCleaner.clean_record fs sp row c)))
     | None =>
         fst (DataPipeline.clean_chunk fs sp rest
                (snd (DataCleaner.clean_record fs sp row c)))
     end,
     snd (DataPipeline.clean_chunk fs sp rest
            (snd (DataCleaner.clean_record fs sp row c)))).
Proof.
  cbn [DataPipeline.clean_chunk]. unfold DataPipeline.clean_record.
  destruct (DataCleaner.clean_record fs sp row c) as [o c1]. cbn [fst snd].
  destruct (DataPipeline.clean_chunk fs sp rest c1) as [cl c2]. cbn [fst snd].
  destruct o; reflexivity.
Qed.

Lemma clean_chunk_counters fs sp rows c :
  let cc := DataPipeline.clean_chunk fs sp rows c in
  DataCleaner.records_processed (snd cc)
  = DataCleaner.records_processed c + Z.of_nat (List.length rows)
  /\ DataCleaner.records_dropped (snd cc)
     = DataCleaner.records_dropped c
       + (Z.of_nat (List.length rows) - Z.of_nat (List.length (fst cc)))
  /\ (List.length (fst cc) <= List.length rows)%nat.
Proof.
  cbv zeta. revert c. induction rows as [|row rest IH]; intros c.
  - cbn [DataPipeline.clean_chunk fst snd List.length]. repeat split; lia.
  - rewrite clean_chunk_cons. cbn [fst snd].
    pose proof (clean_record_counters fs sp row c) as [P D]. cbv zeta in P, D.
    destruct (IH (snd (DataCleaner.clean_record fs sp row c))) as (I1 & I2 & I3).
    rewrite I1, I2, P, D.
    destruct (fst (DataCleaner.clean_record fs sp row c));
      cbn [List.length]; rewrite ?Nat2Z.inj_succ; repeat split; lia.
Qed.

(** X3: after a run that starts with a fresh cleaner, the cleaner has
    counted every row of the input as processed, its dropped count is the
    number of rows it did not emit, and [records_cleaned], the difference of
    the two, is the number of records it emitted; the dropped count lies
    between 0 and the processed count. *)
Theorem X3_cleaner_counters
    (float_of_str : string -> option float)
    (strptime : string -> string -> option datetime)
    (rows : list raw_row) (batch : Z) (cfg : Config.config)
    (a : DataAggregator.aggregator) :
  let p := DataPipeline.mkPipeline batch cfg DataCleaner.init a in
  let c := DataPipeline.cleaner (fst (DataPipeline.run float_of_str strptime rows p)) in
  let cleaned := cleaned_records float_of_str strptime rows in
  DataCleaner.records_processed c = Z.of_nat (List.length rows)
  /\ DataCleaner.records_dropped c
     = Z.of_nat (List.length rows) - Z.of_nat (List.length cleaned)
  /\ DataCleaner.records_cleaned c = Z.of_nat (List.length cleaned)
  /\ 0 <= DataCleaner.records_dropped c <= DataCleaner.records_processed c.
Proof.
  intros p c cleaned. subst c. unfold DataPipeline.run. cbn [fst].
  rewrite process_chunks_ingest. cbn zeta. cbn [DataPipeline.cleaner].
  subst p. cbn [DataPipeline.aggregator DataPipeline.cleaner].
  rewrite clean_chunk_ingest. cbn [fst].
  destruct (clean_chunk_counters float_of_str strptime rows DataCleaner.init)
    as (H1 & H2 & H3).
  fold (cleaned_records float_of_str strptime rows) in H2, H3. fold cleaned in H2, H3.
  unfold DataCleaner.records_cleaned. rewrite H1, H2. simpl. lia.
Qed.

(** ** Standardized strings *)
















Lemma lower_nonempty s : lower s = EmptyString -> s = EmptyString.
Proof. now destruct s. Qed.











Import DataCleaner.










(** ** Buckets as running sums *)

Import DataAggregator.

Lemma dict_get_update (K V : Type) (eqb : K -> K -> bool) k k' dflt f (d : dict K V) :
  (forall a b, eqb a b = true <-> a = b) ->
  dict_get eqb (dict_update eqb k' dflt f d) k
  = if eqb k k'
    then Some (f (match dict_get eqb d k with Some v => v | None => dflt end))
    else dict_get eqb d k.
Proof.
  intros Heq.
  assert (Hrefl : forall a, eqb a a = true) by (intros a; now apply Heq).
  induction d as [|[k0 v0] t IH]; simpl.
  - destruct (eqb k k'); reflexivity.
  - destruct (eqb k' k0) eqn:E0; simpl.
    + apply Heq in E0. subst k0. destruct (eqb k k'); reflexivity.
    + rewrite IH. destruct (eqb k k') eqn:E1; [|reflexivity].
      apply Heq in E1. subst k'. now rewrite E0.
Qed.

Lemma dict_get_map (K V W : Type) (eqb : K -> K -> bool) (h : V -> W) (d : dict K V) k :
  dict_get eqb (map (fun kv => (fst kv, h (snd kv))) d) k
  = option_map h (dict_get eqb d k).
Proof.
  induction d as [|[k0 v0] t IH]; simpl; [reflexivity|].
  now destruct (eqb k k0).
Qed.

(** What one turn of the loop does to the buckets and the trackers. *)
Lemma process_record_aggregates s r :
  let s' := process_record s r in
  if required_present r
  then monthly_sales s'
         = dict_update String.eqb (month_of r) (mkMonthly 0 0 0 0)
             (add_record_monthly r) (monthly_sales s)
       /\ product_sales s'
          = dict_update okey_eqb (product_name r) (mkSales 0 0)
              (add_record_sales r) (product_sales s)
       /\ region_sales s'
          = dict_update okey_eqb (region r) (mkSales 0 0)
              (add_record_sales r) (region_sales s)
       /\ category_discounts s'
          = dict_update okey_eqb (category r) (mkCategory 0 0 0)
              (add_record_category r) (category_discounts s)
       /\ revenue_stats s' = update_stat PrimFloat.add (record_revenue r) (revenue_stats s)
       /\ quantity_stats s' = update_stat Z.add (record_quantity r) (quantity_stats s)
       /\ price_stats s' = update_stat PrimFloat.add (record_price r) (price_stats s)
  else s' = s.
Proof.
  intros s'. subst s'.
  destruct (process_record_cases r s) as [[G H]|H].
  - now rewrite G.
  - destruct H as (rev & q & p & d & dt & l & H1 & H2 & H3 & H4 & H5 & _ & H).
    assert (G : required_present r = true)
      by (unfold required_present; now rewrite H1, H2, H3, H4, H5).
    rewrite G.
    unfold month_of, add_record_monthly, add_record_sales, add_record_category,
      record_revenue, record_quantity, record_discount, record_price.
    rewrite H1, H2, H3, H4, H5.
    destruct H as [H|H]; rewrite H; repeat split.
Qed.

Section BucketFold.
Variables K V : Type.
Variable eqb : K -> K -> bool.
Hypothesis eqb_eq : forall a b, eqb a b = true <-> a = b.
Variable key_of : record -> K.
Variable dflt : V.
Variable add : record -> V -> V.
Variable bucket : aggregator -> dict K V.
Hypothesis bucket_step : forall s r,
  bucket (process_record s r)
  = if required_present r
    then dict_update eqb (key_of r) dflt (add r) (bucket s)
    else bucket s.

Lemma bucket_after_chunk rs s k :
  dict_get eqb (bucket (process_chunk rs s)) k
  = match records_with eqb key_of k rs with
    | [] => dict_get eqb (bucket s) k
    | group =>
        Some (fold_left (fun b r => add r b) group
                (match dict_get eqb (bucket s) k with Some v => v | None => dflt end))
    end.
Proof.
  revert s. induction rs as [|r rs IH]; intros s; [reflexivity|].
  change (process_chunk (r :: rs) s) with (process_chunk rs (process_record s r)).
  rewrite IH, bucket_step. unfold records_with, ingested. simpl filter.
  destruct (required_present r); [|reflexivity].
  simpl filter. rewrite dict_get_update by exact eqb_eq.
  destruct (eqb k (key_of r)); [|reflexivity].
  simpl. now destruct (filter _ (filter required_present rs)).
Qed.

Lemma bucket_from_empty rs s k :
  bucket s = [] ->
  dict_get eqb (bucket (process_chunk rs s)) k
  = bucket_of dflt add (records_with eqb key_of k rs).
Proof.
  intros E. rewrite bucket_after_chunk, E. simpl. unfold bucket_of.
  now destruct (records_with eqb key_of k rs).
Qed.
End BucketFold.

Lemma okey_eqb_iff a b : okey_eqb a b = true <-> a = b.
Proof. apply okey_eqb_eq. Qed.

Lemma sales_fold_quantity g b0 :
  s_quantity (fold_left (fun b r => add_record_sales r b) g b0)
  = s_quantity b0 + records_quantity_total g.
Proof.
  revert b0. induction g as [|r g IH]; intros b0.
  - unfold records_quantity_total. simpl. lia.
  - change (fold_left (fun b r0 => add_record_sales r0 b) (r :: g) b0)
      with (fold_left (fun b r0 => add_record_sales r0 b) g (add_record_sales r b0)).
    rewrite IH. unfold records_quantity_total. simpl. lia.
Qed.

Lemma monthly_fold_counts g b0 :
  let b := fold_left (fun b r => add_record_monthly r b) g b0 in
  m_quantity b = m_quantity b0 + records_quantity_total g
  /\ m_num_transactions b = m_num_transactions b0 + Z.of_nat (List.length g).
Proof.
  revert b0. induction g as [|r g IH]; intros b0.
  - unfold records_quantity_total. simpl. lia.
  - change (fold_left (fun b r0 => add_record_monthly r0 b) (r :: g) b0)
      with (fold_left (fun b r0 => add_record_monthly r0 b) g (add_record_monthly r b0)).
    cbv zeta. destruct (IH (add_record_monthly r b0)) as [E1 E2].
    rewrite E1, E2. unfold records_quantity_total.
    cbn [fold_right List.length add_record_monthly add_monthly m_quantity m_num_transactions].
    rewrite Nat2Z.inj_succ. lia.
Qed.

Lemma category_fold_count g b0 :
  c_num_transactions (fold_left (fun b r => add_record_category r b) g b0)
  = c_num_transactions b0 + Z.of_nat (List.length g).
Proof.
  revert b0. induction g as [|r g IH]; intros b0.
  - simpl. lia.
  - change (fold_left (fun b r0 => add_record_category r0 b) (r :: g) b0)
      with (fold_left (fun b r0 => add_record_category r0 b) g (add_record_category r b0)).
    rewrite IH.
    cbn [List.length add_record_category add_category c_num_transactions].
    rewrite Nat2Z.inj_succ. lia.
Qed.

Lemma product_step s r :
  product_sales (process_record s r)
  = if required_present r
    then dict_update okey_eqb (product_name r) (mkSales 0 0) (add_record_sales r)
           (product_sales s)
    else product_sales s.
Proof.
  generalize (process_record_aggregates s r). cbv zeta.
  destruct (required_present r); [intros H; apply H | now intros ->].
Qed.

Lemma region_step s r :
  region_sales (process_record s r)
  = if required_present r
    then dict_update okey_eqb (region r) (mkSales 0 0) (add_record_sales r)
           (region_sales s)
    else region_sales s.
Proof.
  generalize (process_record_aggregates s r). cbv zeta.
  destruct (required_present r); [intros H; apply H | now intros ->].
Qed.

Lemma monthly_step s r :
  monthly_sales (process_record s r)
  = if required_present r
    then dict_update String.eqb (month_of r) (mkMonthly 0 0 0 0) (add_record_monthly r)
           (monthly_sales s)
    else monthly_sales s.
Proof.
  generalize (process_record_aggregates s r). cbv zeta.
  destruct (required_present r); [intros H; apply H | now intros ->].
Qed.

Lemma category_step s r :
  category_discounts (process_record s r)
  = if required_present r
    then dict_update okey_eqb (category r) (mkCategory 0 0 0) (add_record_category r)
           (category_discounts s)
    else category_discounts s.
Proof.
  generalize (process_record_aggregates s r). cbv zeta.
  destruct (required_present r); [intros H; apply H | now intros ->].
Qed.

(** X7: after any stream has gone through a fresh aggregator, the product
    bucket and the region bucket of a key hold the running sums, taken in
    the order of the stream from zero, of the revenue and the quantity of
    the ingested records that carry the key; a key no ingested record
    carries has no bucket, and the quantity of a bucket is the exact sum of
    the quantities of its records. *)
Theorem X7_sales_buckets (anomaly_limit top_products_limit : Z)
    (rs : list record) (k : option string) :
  let s := process_chunk rs (_reset_aggregations anomaly_limit top_products_limit) in
  let by_product := records_with okey_eqb product_name k rs in
  let by_region := records_with okey_eqb region k rs in
  dict_get okey_eqb (product_sales s) k
    = bucket_of (mkSales 0 0) add_record_sales by_product
  /\ dict_get okey_eqb (region_sales s) k
     = bucket_of (mkSales 0 0) add_record_sales by_region
  /\ (forall b, dict_get okey_eqb (product_sales s) k = Some b ->
        by_product <> [] /\ s_quantity b = records_quantity_total by_product)
  /\ (forall b, dict_get okey_eqb (region_sales s) k = Some b ->
        by_region <> [] /\ s_quantity b = records_quantity_total by_region).
Proof.
  intros s by_product by_region.
  assert (P : dict_get okey_eqb (product_sales s) k
              = bucket_of (mkSales 0 0) add_record_sales by_product)
    by (apply (@bucket_from_empty _ _ okey_eqb okey_eqb_eq product_name (mkSales 0 0)
                 add_record_sales product_sales product_step); reflexivity).
  assert (R : dict_get okey_eqb (region_sales s) k
              = bucket_of (mkSales 0 0) add_record_sales by_region)
    by (apply (@bucket_from_empty _ _ okey_eqb okey_eqb_eq region (mkSales 0 0)
                 add_record_sales region_sales region_step); reflexivity).
  split; [exact P|]. split; [exact R|].
  split; intros b Hb.
  - rewrite P in Hb. unfold bucket_of in Hb.
    destruct by_product as [|r g] eqn:E; [discriminate|].
    split; [discriminate|]. inversion Hb. rewrite sales_fold_quantity. simpl. lia.
  - rewrite R in Hb. unfold bucket_of in Hb.
    destruct by_region as [|r g] eqn:E; [discriminate|].
    split; [discriminate|]. inversion Hb. rewrite sales_fold_quantity. simpl. lia.
Qed.

(** X8: the monthly bucket of a ["YYYY-MM"] key is the running sum over the
    ingested records of that month, and [finalize_aggregations] turns it
    into the summed revenue, the exact summed quantity and the summed
    discount divided by the number of those records: a month that has a
    bucket has at least one record, so the [0.0] fallback of the average is
    never taken. *)
Theorem X8_monthly_buckets (anomaly_limit top_products_limit : Z)
    (rs : list record) (m : string) :
  let s := process_chunk rs (_reset_aggregations anomaly_limit top_products_limit) in
  let group := records_with String.eqb month_of m rs in
  let b := fold_left (fun b r => add_record_monthly r b) group (mkMonthly 0 0 0 0) in
  dict_get String.eqb (monthly_sales s) m
    = bucket_of (mkMonthly 0 0 0 0) add_record_monthly group
  /\ dict_get String.eqb (f_monthly_sales (finalize_aggregations s)) m
     = match group with
       | [] => None
       | _ => Some (mkMonthlyFinal (m_revenue b) (records_quantity_total group)
                      (m_total_discount b / float_of_Z (Z.of_nat (List.length group)))%float)
       end.
Proof.
  intros s group b.
  assert (P : dict_get String.eqb (monthly_sales s) m
              = bucket_of (mkMonthly 0 0 0 0) add_record_monthly group)
    by (apply (@bucket_from_empty _ _ String.eqb String.eqb_eq month_of (mkMonthly 0 0 0 0)
                 add_record_monthly monthly_sales monthly_step); reflexivity).
  split; [exact P|].
  unfold finalize_aggregations. cbn [f_monthly_sales].
  rewrite dict_get_map, P. unfold bucket_of.
  destruct (monthly_fold_counts group (mkMonthly 0 0 0 0)) as [Eq En].
  fold b in Eq, En. cbn [m_quantity m_num_transactions] in Eq, En.
  destruct group as [|r g] eqn:E; [reflexivity|].
  cbn [option_map]. unfold finalize_monthly. fold b. rewrite Eq, En.
  replace (0 <? 0 + Z.of_nat (List.length (r :: g))) with true
    by (symmetry; apply Z.ltb_lt; cbn [List.length]; lia).
  reflexivity.
Qed.

(** X9: the category bucket of a key is the running sum over the ingested
    records of that category of [revenue * discount_percent] and of the
    revenue, its transaction counter is the number of those records, and the
    average [finalize_aggregations] reports for the category is the quotient
    of the two sums when the summed revenue is positive and [0.0]
    otherwise. *)
Theorem X9_category_buckets (anomaly_limit top_products_limit : Z)
    (rs : list record) (k : option string) :
  let s := process_chunk rs (_reset_aggregations anomaly_limit top_products_limit) in
  let group := records_with okey_eqb category k rs in
  dict_get okey_eqb (category_discounts s) k
    = bucket_of (mkCategory 0 0 0) add_record_category group
  /\ dict_get okey_eqb (f_category_discounts (finalize_aggregations s)) k
     = option_map finalize_category
         (bucket_of (mkCategory 0 0 0) add_record_category group)
  /\ (forall b, dict_get okey_eqb (category_discounts s) k = Some b ->
        c_num_transactions b = Z.of_nat (List.length group) /\ group <> []).
Proof.
  intros s group.
  assert (P : dict_get okey_eqb (category_discounts s) k
              = bucket_of (mkCategory 0 0 0) add_record_category group)
    by (apply (@bucket_from_empty _ _ okey_eqb okey_eqb_eq category (mkCategory 0 0 0)
                 add_record_category category_discounts category_step); reflexivity).
  split; [exact P|]. split.
  - unfold finalize_aggregations. cbn [f_category_discounts].
    now rewrite dict_get_map, P.
  - intros b Hb. rewrite P in Hb. unfold bucket_of in Hb.
    destruct group as [|r g] eqn:E; [discriminate|].
    injection Hb as <-. rewrite category_fold_count. split; [|discriminate].
    cbn [add_record_category add_category c_num_transactions List.length].
    rewrite Nat2Z.inj_succ. lia.
Qed.

(** ** The running statistics and the counters *)

Lemma stats_fold (T : Type) (add : T -> T -> T) (proj : record -> T) g (st : stats T) :
  (List.length (values st) <= 1000)%nat ->
  fold_left (fun st r => update_stat add (proj r) st) g st
  = mkStats (fold_left add (map proj g) (total st))
            (count st + Z.of_nat (List.length g))
            (values st ++ firstn (1000 - List.length (values st)) (map proj g)).
Proof.
  revert st. induction g as [|r g IH]; intros st Hle.
  - cbn [fold_left map List.length]. rewrite firstn_nil, app_nil_r, Z.add_0_r.
    now destruct st.
  - cbn [fold_left map]. rewrite IH by now apply update_stat_values_bound.
    unfold update_stat. cbn [total count values List.length].
    rewrite Nat2Z.inj_succ. f_equal; [lia|].
    destruct (Z.ltb_spec (Z.of_nat (List.length (values st))) 1000) as [E|E].
    + rewrite length_app. cbn [List.length].
      replace (1000 - List.length (values st))%nat
        with (S (1000 - (List.length (values st) + 1)))%nat by lia.
      rewrite firstn_cons, <- app_assoc. reflexivity.
    + replace (1000 - List.length (values st))%nat with 0%nat by lia.
      now rewrite !firstn_O.
Qed.

Lemma stats_after_chunk (T : Type) (add : T -> T -> T) (proj : record -> T)
    (tracker : aggregator -> stats T) rs s :
  (forall s r, tracker (process_record s r)
               = if required_present r then update_stat add (proj r) (tracker s)
                 else tracker s) ->
  tracker (process_chunk rs s)
  = fold_left (fun st r => update_stat add (proj r) st) (ingested rs) (tracker s).
Proof.
  intros Hstep. revert s. induction rs as [|r rs IH]; intros s; [reflexivity|].
  change (process_chunk (r :: rs) s) with (process_chunk rs (process_record s r)).
  rewrite IH, Hstep. unfold ingested. cbn [filter].
  now destruct (required_present r).
Qed.

(** X10: after any stream has gone through a fresh aggregator, each of the
    three trackers (revenue, quantity, unit price) has as [total] the
    running sum of the field over the ingested records, as [count] their
    number, and as [values] the first 1000 observations in order: the sample
    is not a sliding window, later values are not sampled. *)
Theorem X10_statistics_trackers (anomaly_limit top_products_limit : Z)
    (rs : list record) :
  let s := process_chunk rs (_reset_aggregations anomaly_limit top_products_limit) in
  let n := Z.of_nat (List.length (ingested rs)) in
  revenue_stats s
    = mkStats (fold_left PrimFloat.add (map record_revenue (ingested rs)) 0%float) n
        (firstn 1000 (map record_revenue (ingested rs)))
  /\ quantity_stats s
     = mkStats (fold_left Z.add (map record_quantity (ingested rs)) 0) n
         (firstn 1000 (map record_quantity (ingested rs)))
  /\ price_stats s
     = mkStats (fold_left PrimFloat.add (map record_price (ingested rs)) 0%float) n
         (firstn 1000 (map record_price (ingested rs))).
Proof.
  intros s n. subst s.
  split; [|split].
  - rewrite (@stats_after_chunk _ PrimFloat.add record_revenue revenue_stats).
    + rewrite stats_fold by (cbn [_reset_aggregations revenue_stats values List.length]; lia).
      reflexivity.
    + intros s r. generalize (process_record_aggregates s r). cbv zeta.
      destruct (required_present r); [intros H; apply H | now intros ->].
  - rewrite (@stats_after_chunk _ Z.add record_quantity quantity_stats).
    + rewrite stats_fold by (cbn [_reset_aggregations quantity_stats values List.length]; lia).
      reflexivity.
    + intros s r. generalize (process_record_aggregates s r). cbv zeta.
      destruct (required_present r); [intros H; apply H | now intros ->].
  - rewrite (@stats_after_chunk _ PrimFloat.add record_price price_stats).
    + rewrite stats_fold by (cbn [_reset_aggregations price_stats values List.length]; lia).
      reflexivity.
    + intros s r. generalize (process_record_aggregates s r). cbv zeta.
      destruct (required_present r); [intros H; apply H | now intros ->].
Qed.

Lemma anomaly_step_grows limit rev l l' :
  anomaly_step limit rev l l' -> (List.length l' <= List.length l + 1)%nat.
Proof.
  intros [|rec Hr Hlt|rec l0 worst Hr El Hge Hk]; [lia| |].
  - unfold sort_anomalies. rewrite sort_desc_length, length_app. simpl. lia.
  - unfold sort_anomalies. rewrite sort_desc_length, length_app. simpl.
    subst l. rewrite length_app. simpl. lia.
Qed.

Lemma process_record_counters s r :
  let s' := process_record s r in
  records_processed s <= records_processed s'
  /\ records_processed s'
     <= records_processed s + (if required_present r then 1 else 0)
  /\ Z.of_nat (List.length (anomaly_records s')) - records_processed s'
     <= Z.of_nat (List.length (anomaly_records s)) - records_processed s
  /\ dict_total m_num_transactions (monthly_sales s')
     = dict_total m_num_transactions (monthly_sales s)
       + (if required_present r then 1 else 0)
  /\ dict_total c_num_transactions (category_discounts s')
     = dict_total c_num_transactions (category_discounts s)
       + (if required_present r then 1 else 0).
Proof.
  intros s'. subst s'.
  destruct (process_record_cases r s) as [[G H]|H].
  - rewrite H, G. lia.
  - destruct H as (rev & q & p & d & dt & l & H1 & H2 & H3 & H4 & H5 & Hst & H).
    assert (G : required_present r = true)
      by (unfold required_present; now rewrite H1, H2, H3, H4, H5).
    rewrite G.
    assert (Hm : dict_total m_num_transactions
                   (monthly_sales (aggregates_after r rev q p d dt s))
                 = dict_total m_num_transactions (monthly_sales s) + 1)
      by (rewrite aggregates_after_monthly; now apply dict_update_total).
    assert (Hc : dict_total c_num_transactions
                   (category_discounts (aggregates_after r rev q p d dt s))
                 = dict_total c_num_transactions (category_discounts s) + 1)
      by (apply dict_update_total; [reflexivity|intros v; reflexivity]).
    pose proof (anomaly_step_grows Hst) as Hl.
    cbv zeta in H. destruct H as [H|H]; rewrite H.
    + cbn [records_processed set_records_processed anomaly_records
           set_anomaly_records monthly_sales category_discounts].
      repeat split; try lia; assumption.
    + destruct (aggregates_after_anomaly r rev q p d dt s) as (Ea & _ & _ & Er).
      rewrite Ea, Er. repeat split; try lia; assumption.
Qed.

(** X11: [records_processed] never exceeds the number of ingested records
    and is never below the number of anomaly records held, and the
    transaction counters of the monthly buckets, as those of the category
    buckets, add up to the number of ingested records. *)
Theorem X11_counters (anomaly_limit top_products_limit : Z) (rs : list record) :
  let s := process_chunk rs (_reset_aggregations anomaly_limit top_products_limit) in
  let n := Z.of_nat (List.length (ingested rs)) in
  Z.of_nat (List.length (anomaly_records s)) <= records_processed s
  /\ records_processed s <= n
  /\ dict_total m_num_transactions (monthly_sales s) = n
  /\ dict_total c_num_transactions (category_discounts s) = n.
Proof.
  intros s n. subst s n.
  assert (G : forall s0,
    let s := process_chunk rs s0 in
    let n := Z.of_nat (List.length (ingested rs)) in
    Z.of_nat (List.length (anomaly_records s)) - records_processed s
      <= Z.of_nat (List.length (anomaly_records s0)) - records_processed s0
    /\ records_processed s <= records_processed s0 + n
    /\ dict_total m_num_transactions (monthly_sales s)
       = dict_total m_num_transactions (monthly_sales s0) + n
    /\ dict_total c_num_transactions (category_discounts s)
       = dict_total c_num_transactions (category_discounts s0) + n).
  { induction rs as [|r rs IH]; intros s0.
    - cbn [process_chunk fold_left ingested filter List.length Z.of_nat]. lia.
    - change (process_chunk (r :: rs) s0) with (process_chunk rs (process_record s0 r)).
      cbv zeta. specialize (IH (process_record s0 r)). cbv zeta in IH.
      pose proof (process_record_counters s0 r) as Hr. cbv zeta in Hr.
      unfold ingested in *. cbn [filter].
      destruct (required_present r); cbn [List.length];
        rewrite ?Nat2Z.inj_succ; lia. }
  specialize (G (_reset_aggregations anomaly_limit top_products_limit)).
  cbv zeta in G.
  cbn [_reset_aggregations anomaly_records records_processed monthly_sales
       category_discounts List.length dict_total fold_right Z.of_nat] in G.
  lia.
Qed.

(** ** The summary log *)

Lemma int_truediv_raises a b e :
  b <> 0 -> int_truediv a b = Raise e -> e = OverflowError.
Proof.
  intros Hb. unfold int_truediv.
  destruct (Z.eqb_spec b 0) as [E|_]; [contradiction|].
  cbv zeta. destruct (PrimFloat.is_infinity _); congruence.
Qed.

Lemma float_div_int_raises x n e :
  n <> 0 -> float_div_int x n = Raise e -> e = OverflowError.
Proof.
  intros Hn. unfold float_div_int, float_of_int, rbind. cbv zeta.
  destruct (PrimFloat.is_infinity _); [congruence|].
  destruct (Z.eqb_spec n 0) as [E|_]; [contradiction|discriminate].
Qed.

Lemma anomaly_figures_raises s e :
  anomaly_figures s = Raise e -> e = OverflowError.
Proof.
  unfold anomaly_figures, rbind.
  destruct (anomaly_records s) as [|a rest]; [discriminate|].
  destruct (int_truediv _ _) as [avg|e'] eqn:E; [discriminate|].
  intros H. injection H as <-.
  eapply int_truediv_raises; [|exact E]. cbn [List.length]. lia.
Qed.

Lemma first_record_succeeds s r :
  records_processed s <= 100 ->
  Z.of_nat (List.length (anomaly_records s)) < anomaly_limit s ->
  required_present r = true ->
  records_processed (process_record s r) = records_processed s + 1.
Proof.
  intros Hrp Hlen G.
  destruct (required_present_fields r G) as (rev & q & p & d & dt & H1 & H2 & H3 & H4 & H5).
  unfold process_record.
  rewrite (process_single_present r s H1 H2 H3 H4 H5).
  destruct (aggregates_after_anomaly r rev q p d dt s) as (Ea & El & _ & Er).
  set (s1 := aggregates_after r rev q p d dt s) in *.
  unfold _detect_and_update_anomalies, anomaly_scoring, bind, get, ret.
  rewrite Er. replace (100 <? records_processed s) with false
    by (symmetry; apply Z.ltb_ge; exact Hrp).
  destruct (2 <=? _); [|cbn [records_processed set_records_processed]; lia].
  unfold _update_anomaly_records, bind, get, modify.
  rewrite Ea, El.
  replace (Z.of_nat (List.length (anomaly_records s)) <? anomaly_limit s) with true
    by (symmetry; apply Z.ltb_lt; exact Hlen).
  cbn [records_processed set_records_processed set_anomaly_records]. lia.
Qed.

Lemma process_record_revenue_count s r :
  count (revenue_stats (process_record s r))
  = count (revenue_stats s) + (if required_present r then 1 else 0).
Proof.
  generalize (process_record_aggregates s r). cbv zeta.
  destruct (required_present r).
  - intros (_ & _ & _ & _ & H & _). rewrite H. reflexivity.
  - intros ->. lia.
Qed.

Lemma revenue_count_after_chunk rs s :
  count (revenue_stats (process_chunk rs s))
  = count (revenue_stats s) + Z.of_nat (List.length (ingested rs)).
Proof.
  revert s. induction rs as [|r rs IH]; intros s.
  - cbn [process_chunk fold_left ingested filter List.length Z.of_nat]. lia.
  - change (process_chunk (r :: rs) s) with (process_chunk rs (process_record s r)).
    rewrite IH, process_record_revenue_count. unfold ingested. cbn [filter].
    destruct (required_present r); cbn [List.length]; rewrite ?Nat2Z.inj_succ; lia.
Qed.

Lemma counted_then_processed al tl rs :
  0 < al ->
  let s := process_chunk rs (_reset_aggregations al tl) in
  anomaly_limit s = al
  /\ Z.of_nat (List.length (anomaly_records s)) <= records_processed s
  /\ 0 <= count (revenue_stats s)
  /\ (0 < count (revenue_stats s) -> 0 < records_processed s).
Proof.
  intros Hal s. subst s.
  apply process_chunk_invariant with
    (P := fun s => anomaly_limit s = al
                   /\ Z.of_nat (List.length (anomaly_records s)) <= records_processed s
                   /\ 0 <= count (revenue_stats s)
                   /\ (0 < count (revenue_stats s) -> 0 < records_processed s)).
  - intros s r _ (Hl & Hn & Hc & Hp).
    destruct (process_record_limits s r) as [El _].
    pose proof (process_record_counters s r) as Hr. cbv zeta in Hr.
    destruct Hr as (Hr1 & Hr2 & Hr3 & _).
    pose proof (process_record_revenue_count s r) as Ec.
    split; [congruence|]. split; [lia|].
    destruct (required_present r) eqn:G.
    + split; [lia|]. intros _.
      destruct (Z.eq_dec (records_processed s) 0) as [E0|N0]; [|lia].
      rewrite first_record_succeeds; try assumption; lia.
    + split; [lia|]. intros Hpos. lia.
  - cbn. repeat split; try lia.
Qed.

(** X12: with a positive anomaly limit, [records_processed] is positive as
    soon as a record has been ingested, so neither division of
    [_log_summary_statistics] divides by zero: the only exception the log,
    and with it [finalize_aggregations], can raise is the [OverflowError] of
    a conversion to float. *)
Theorem X12_summary_log_divides (anomaly_limit top_products_limit : Z)
    (rs : list record) :
  0 < anomaly_limit ->
  let s := process_chunk rs (_reset_aggregations anomaly_limit top_products_limit) in
  (ingested rs <> [] -> 0 < records_processed s)
  /\ (forall e, _log_summary_statistics s = Raise e -> e = OverflowError)
  /\ (forall e, finalize_aggregations_logged s = Raise e -> e = OverflowError).
Proof.
  intros Hal s.
  destruct (@counted_then_processed anomaly_limit top_products_limit rs Hal)
    as (_ & _ & Hc & Hp). fold s in Hc, Hp.
  assert (L : forall e, _log_summary_statistics s = Raise e -> e = OverflowError).
  { intros e. unfold _log_summary_statistics, rbind.
    destruct (anomaly_figures s) as [af|e'] eqn:Ef.
    - destruct (Z.ltb_spec 0 (count (revenue_stats s))) as [Hpos|_]; [|discriminate].
      destruct (float_div_int _ _) as [avg|e1] eqn:E1.
      + destruct (int_truediv _ _) as [rate|e2] eqn:E2; [discriminate|].
        intros H. injection H as <-.
        eapply int_truediv_raises; [|exact E2]. specialize (Hp Hpos). lia.
      + intros H. injection H as <-.
        eapply float_div_int_raises; [|exact E1]. lia.
    - intros H. injection H as <-. now apply (@anomaly_figures_raises s). }
  split; [|split; [exact L|]].
  - intros Hne. apply Hp.
    unfold s. rewrite revenue_count_after_chunk.
    cbn [_reset_aggregations revenue_stats count].
    destruct (ingested rs); [contradiction|cbn [List.length]; lia].
  - intros e. unfold finalize_aggregations_logged, rbind.
    destruct (_log_summary_statistics s) as [x|e'] eqn:E; [discriminate|].
    intros H. injection H as <-. now apply L.
Qed.

(** X12 on one anomalous order under the limit 1. *)
Lemma X12_witness :
  0 < 1
  /\ let s := process_chunk [big_order] (_reset_aggregations 1 10) in
     (ingested [big_order] <> [] -> 0 < records_processed s)
     /\ (forall e, _log_summary_statistics s = Raise e -> e = OverflowError)
     /\ (forall e, finalize_aggregations_logged s = Raise e -> e = OverflowError).
Proof.
  split; [lia|]. apply (@X12_summary_log_divides 1 10 [big_order]). lia.
Defined.

(** X13: when the revenue tracker has counted a record while
    [records_processed] is still 0, [_log_summary_statistics] raises, and so
    does [finalize_aggregations], which calls it last: the anomaly rate
    divides by [records_processed]. *)
Theorem X13_summary_log_raises (s : aggregator) :
  records_processed s = 0 ->
  0 < count (revenue_stats s) ->
  exists e, _log_summary_statistics s = Raise e
            /\ finalize_aggregations_logged s = Raise e
            /\ (e = ZeroDivisionError \/ e = OverflowError).
Proof.
  intros Hrp Hc. unfold finalize_aggregations_logged.
  assert (L : exists e, _log_summary_statistics s = Raise e
                        /\ (e = ZeroDivisionError \/ e = OverflowError)).
  { unfold _log_summary_statistics, rbind.
    destruct (anomaly_figures s) as [af|e'] eqn:Ef.
    - replace (0 <? count (revenue_stats s)) with true
        by (symmetry; now apply Z.ltb_lt).
      destruct (float_div_int _ _) as [avg|e1] eqn:E1.
      + rewrite Hrp. exists ZeroDivisionError. split; [reflexivity|now left].
      + exists e1. split; [reflexivity|right].
        eapply float_div_int_raises; [|exact E1]. lia.
    - exists e'. split; [reflexivity|right]. now apply (@anomaly_figures_raises s). }
  destruct L as (e & E & He). exists e. rewrite E. repeat split; assumption.
Qed.

(** X13 is reached with the anomaly limit 0 and one anomalous order: the
    record is counted by the trackers, then [IndexError] skips the
    increment of [records_processed]. *)
Lemma X13_witness :
  let s := process_chunk [big_order] (_reset_aggregations 0 10) in
  records_processed s = 0
  /\ 0 < count (revenue_stats s)
  /\ _log_summary_statistics s = Raise ZeroDivisionError
  /\ exists e, _log_summary_statistics s = Raise e
               /\ finalize_aggregations_logged s = Raise e
               /\ (e = ZeroDivisionError \/ e = OverflowError).
Proof.
  intros s.
  assert (H1 : records_processed s = 0) by (vm_compute; reflexivity).
  assert (H2 : 0 < count (revenue_stats s)) by (vm_compute; reflexivity).
  split; [exact H1|]. split; [exact H2|].
  split; [vm_compute; reflexivity|].
  exact (X13_summary_log_raises s H1 H2).
Defined.

(** ** The anomaly list as a top-K selection *)

Import DataAggregator.

Section TopK.
Variable A : Type.
Variable lt : A -> A -> bool.
Variable good : A -> Prop.
Hypothesis lt_asym : forall x y, lt x y = true -> lt y x = false.
Hypothesis lt_negtrans : forall x y z, good x -> good y -> good z ->
  lt x y = false -> lt y z = false -> lt x z = false.

Lemma lt_trans_good x y z :
  good x -> good y -> good z -> lt x y = true -> lt y z = true -> lt x z = true.
Proof.
  intros Gx Gy Gz Hxy Hyz. destruct (lt x z) eqn:E; [reflexivity|].
  apply lt_asym in Hyz.
  rewrite (lt_negtrans Gx Gz Gy E Hyz) in Hxy. discriminate.
Qed.

Lemma insert_last_length c l :
  List.length (insert_last lt c l) = S (List.length l).
Proof.
  induction l as [|y t IH]; [reflexivity|].
  cbn [insert_last]. destruct (lt y c); cbn [List.length]; [reflexivity|now rewrite IH].
Qed.

Lemma insert_desc_insert_last x c l :
  good x -> good c -> Forall good l ->
  insert_desc lt x (insert_last lt c l) = insert_last lt c (insert_desc lt x l).
Proof.
  intros Gx Gc Gl. induction Gl as [|y t Gy Gt IH].
  - cbn [insert_last insert_desc]. destruct (lt x c); reflexivity.
  - cbn [insert_last insert_desc].
    destruct (lt y c) eqn:Eyc, (lt x y) eqn:Exy; cbn [insert_last insert_desc];
      rewrite ?Eyc, ?Exy.
    + rewrite (lt_trans_good Gx Gy Gc Exy Eyc). reflexivity.
    + destruct (lt x c); reflexivity.
    + now rewrite IH.
    + rewrite (lt_negtrans Gx Gy Gc Exy Eyc). reflexivity.
Qed.

Lemma sort_desc_snoc l c :
  Forall good l -> good c ->
  sort_desc lt (l ++ [c]) = insert_last lt c (sort_desc lt l).
Proof.
  intros Gl Gc. induction Gl as [|x t Gx Gt IH]; [reflexivity|].
  cbn [app sort_desc]. rewrite IH. apply insert_desc_insert_last; auto.
  eapply Permutation_Forall; [symmetry; apply sort_desc_perm|exact Gt].
Qed.

Lemma sort_desc_sorted_id l :
  Sorted (not_below lt) l -> sort_desc lt l = l.
Proof.
  induction 1 as [|x t Ht IH Hhd]; [reflexivity|].
  cbn [sort_desc]. rewrite IH.
  destruct Hhd as [|y u Hxy]; [reflexivity|].
  cbn [insert_desc]. unfold not_below in Hxy. now rewrite Hxy.
Qed.

Lemma insert_last_app_below c w l rest :
  lt w c = true ->
  insert_last lt c (l ++ w :: rest) = insert_last lt c l ++ w :: rest.
Proof.
  intros Hw. induction l as [|y t IH]; cbn [app insert_last].
  - now rewrite Hw.
  - destruct (lt y c); [reflexivity|]. now rewrite IH.
Qed.

Lemma insert_last_app_above c l rest :
  Forall (fun y => lt y c = false) l ->
  insert_last lt c (l ++ rest) = l ++ insert_last lt c rest.
Proof.
  induction 1 as [|y t Hy Ht IH]; [reflexivity|].
  cbn [app insert_last]. now rewrite Hy, IH.
Qed.

Lemma Sorted_firstn (R : A -> A -> Prop) n l : Sorted R l -> Sorted R (firstn n l).
Proof.
  intros H. revert n. induction H as [|x t Ht IH Hhd]; intros n.
  - rewrite firstn_nil. constructor.
  - destruct n as [|n]; [constructor|]. rewrite firstn_cons.
    constructor; [apply IH|].
    destruct Hhd as [|y u Hxy]; [rewrite firstn_nil; constructor|].
    destruct n; [constructor|]. rewrite firstn_cons. now constructor.
Qed.

Lemma Sorted_app_left (R : A -> A -> Prop) l1 l2 : Sorted R (l1 ++ l2) -> Sorted R l1.
Proof.
  induction l1 as [|x t IH]; [constructor|].
  cbn [app]. intros H. inversion H as [|? ? Ht Hhd]; subst.
  constructor; [now apply IH|].
  destruct t as [|y u]; [constructor|].
  cbn [app] in Hhd. inversion Hhd; subst. now constructor.
Qed.

(** The bounded list after one more candidate is the head of the sorted list
    of all the candidates so far. *)
Lemma bounded_insert_topk (k : nat) (seen : list A) (c : A) :
  Forall good seen -> good c ->
  let sorted := sort_desc lt seen in
  let kept := firstn k sorted in
  let target := firstn k (sort_desc lt (seen ++ [c])) in
  ((List.length kept < k)%nat -> sort_desc lt (kept ++ [c]) = target)
  /\ ((k <= List.length kept)%nat ->
      match List.rev kept with
      | [] => kept = target
      | worst :: _ =>
          if lt worst c
          then sort_desc lt (removelast kept ++ [c]) = target
          else kept = target
      end).
Proof.
  intros Gs Gc sorted kept target.
  assert (Gsorted : Forall good sorted)
    by (eapply Permutation_Forall; [symmetry; apply sort_desc_perm|exact Gs]).
  assert (Ssorted : Sorted (not_below lt) sorted) by now apply sort_desc_sorted.
  assert (Et : target = firstn k (insert_last lt c sorted))
    by (unfold target; now rewrite sort_desc_snoc).
  assert (Gkept : Forall good kept).
  { unfold kept. rewrite <- (firstn_skipn k sorted) in Gsorted.
    now apply Forall_app in Gsorted. }
  assert (Skept : Sorted (not_below lt) kept) by now apply Sorted_firstn.
  split.
  - intros Hlt.
    assert (Ek : kept = sorted).
    { unfold kept in *. apply firstn_all2.
      rewrite length_firstn in Hlt. lia. }
    rewrite Ek, sort_desc_snoc, sort_desc_sorted_id, Et by auto.
    symmetry. apply firstn_all2. rewrite insert_last_length.
    rewrite <- Ek. lia.
  - intros Hge.
    assert (Hlen : List.length kept = k).
    { unfold kept in *. rewrite length_firstn in *. lia. }
    destruct (List.rev kept) as [|worst t] eqn:Er.
    + assert (kept = []) by (rewrite <- (rev_involutive kept), Er; reflexivity).
      rewrite H in Hlen. cbn in Hlen. subst k. rewrite Et, H. reflexivity.
    + destruct (rev_cons_app _ Er) as [El Erm].
      rewrite Erm. set (l0 := List.rev t) in *.
      assert (Es : sorted = (l0 ++ [worst]) ++ skipn k sorted).
      { rewrite <- El. unfold kept. symmetry. apply firstn_skipn. }
      rewrite El in Gkept, Skept, Hlen.
      rewrite length_app in Hlen. cbn [List.length] in Hlen.
      destruct (lt worst c) eqn:Ew.
      * rewrite sort_desc_snoc, sort_desc_sorted_id, Et, Es.
        -- rewrite <- app_assoc. cbn [app].
           rewrite insert_last_app_below by exact Ew.
           rewrite firstn_app.
           replace (k - List.length (insert_last lt c l0))%nat with 0%nat
             by (rewrite insert_last_length; lia).
           rewrite firstn_O, app_nil_r. symmetry. apply firstn_all2.
           rewrite insert_last_length. lia.
        -- now apply Sorted_app_left in Skept.
        -- now apply Forall_app in Gkept.
        -- exact Gc.
      * rewrite Et, Es, El.
        rewrite insert_last_app_above.
        -- rewrite firstn_app.
           replace (k - List.length (l0 ++ [worst]))%nat with 0%nat
             by (rewrite length_app; cbn [List.length]; lia).
           rewrite firstn_O, app_nil_r. symmetry. apply firstn_all2.
           rewrite length_app. cbn [List.length]. lia.
        -- pose proof (sorted_last_lowest lt_negtrans l0 worst Gkept Skept) as Hlow.
           apply Forall_app in Gkept. destruct Gkept as [G0 Gw].
           inversion Gw as [|? ? Gworst _]; subst.
           apply Forall_app. split.
           ++ rewrite Forall_forall in *. intros y Hy.
              apply (lt_negtrans (G0 y Hy) Gworst Gc); [apply (Hlow y Hy)|exact Ew].
           ++ constructor; [exact Ew|constructor].
Qed.
End TopK.

(** The anomaly list after a record: the list before it, taking the
    candidate of the record, if any, as [_update_anomaly_records] does. *)
Lemma process_record_anomalies s r :
  anomaly_limit (process_record s r) = anomaly_limit s
  /\ match candidate_of r s with
     | [] => anomaly_records (process_record s r) = anomaly_records s
     | c :: _ =>
         candidate_of r s = [c]
         /\ exists s1,
              anomaly_records s1 = anomaly_records s
              /\ anomaly_limit s1 = anomaly_limit s
              /\ anomaly_records (process_record s r)
                 = anomaly_records
                     (snd (_update_anomaly_records c (anomaly_score c) (a_revenue c) s1))
     end.
Proof.
  split; [apply process_record_limits|].
  destruct (required_present r) eqn:G.
  - destruct (required_present_fields r G) as (rev & q & p & d & dt & H1 & H2 & H3 & H4 & H5).
    unfold candidate_of, process_record.
    rewrite (process_single_present r s H1 H2 H3 H4 H5), H1, H2, H3, H4, H5.
    destruct (aggregates_after_anomaly r rev q p d dt s) as (Ea & El & _ & _).
    set (s1 := aggregates_after r rev q p d dt s) in *.
    unfold _detect_and_update_anomalies, bind.
    pose proof (anomaly_scoring_state rev q p d s1) as Hs.
    destruct (anomaly_scoring rev q p d s1) as [[[score reasons]|e] s2];
      cbn [fst snd] in *; subst s2; [|exact Ea].
    destruct (2 <=? score).
    + split; [reflexivity|]. exists s1. split; [exact Ea|]. split; [exact El|].
      cbn [anomaly_score a_revenue].
      destruct (_update_anomaly_records _ score rev s1) as [[u|e] s3]; reflexivity.
    + exact Ea.
  - unfold candidate_of, process_record. rewrite (process_single_missing r s G).
    unfold required_present in G.
    destruct (revenue r), (quantity r), (unit_price r), (discount_percent r),
      (sale_date r); try discriminate; reflexivity.
Qed.

Lemma candidate_of_number r s :
  revenue_is_number r -> Forall anomaly_is_number (candidate_of r s).
Proof.
  intros Hr. unfold candidate_of.
  destruct (revenue r) as [rev|] eqn:E1; [|constructor].
  destruct (quantity r), (unit_price r), (discount_percent r), (sale_date r);
    try constructor.
  destruct (fst _) as [[score reasons]|e]; [|constructor].
  destruct (2 <=? score); constructor; [|constructor].
  unfold anomaly_is_number. cbn [a_revenue]. now apply Hr.
Qed.

Lemma update_anomaly_records_topk s c seen :
  Forall anomaly_is_number seen -> anomaly_is_number c ->
  anomaly_records s = firstn (Z.to_nat (anomaly_limit s)) (sort_anomalies seen) ->
  anomaly_records (snd (_update_anomaly_records c (anomaly_score c) (a_revenue c) s))
  = firstn (Z.to_nat (anomaly_limit s)) (sort_anomalies (seen ++ [c])).
Proof.
  intros Gs Gc Es.
  destruct (@bounded_insert_topk _ key_lt anomaly_is_number key_lt_asym key_lt_negtrans
              (Z.to_nat (anomaly_limit s)) seen c Gs Gc) as [Hlt Hge].
  fold (sort_anomalies seen) in Hlt, Hge. rewrite <- Es in Hlt, Hge.
  fold (sort_anomalies (seen ++ [c])) in Hlt, Hge.
  unfold _update_anomaly_records, bind, get, modify, ret, raise.
  destruct (Z.ltb_spec (Z.of_nat (List.length (anomaly_records s))) (anomaly_limit s))
    as [H|H].
  - cbn [snd set_anomaly_records anomaly_records]. apply Hlt. lia.
  - assert (Hk : (Z.to_nat (anomaly_limit s) <= List.length (anomaly_records s))%nat) by lia.
    specialize (Hge Hk).
    destruct (List.rev (anomaly_records s)) as [|worst t]; [exact Hge|].
    rewrite strictly_better_key_lt.
    destruct (key_lt worst c); [|exact Hge].
    cbn [snd set_anomaly_records anomaly_records]. exact Hge.
Qed.

Lemma process_chunk_topk rs s seen :
  Forall revenue_is_number rs -> Forall anomaly_is_number seen ->
  anomaly_records s = firstn (Z.to_nat (anomaly_limit s)) (sort_anomalies seen) ->
  anomaly_records (process_chunk rs s)
  = firstn (Z.to_nat (anomaly_limit s)) (sort_anomalies (seen ++ candidates rs s)).
Proof.
  intros Hrs. revert s seen. induction Hrs as [|r rs Hr Hrs IH]; intros s seen Gs Es.
  - cbn [candidates process_chunk fold_left]. now rewrite app_nil_r.
  - change (process_chunk (r :: rs) s) with (process_chunk rs (process_record s r)).
    cbn [candidates]. rewrite app_assoc.
    destruct (process_record_anomalies s r) as [El Hc].
    pose proof (candidate_of_number s Hr) as Gc.
    rewrite <- El. apply IH.
    + apply Forall_app. split; assumption.
    + rewrite El. destruct (candidate_of r s) as [|c l].
      * now rewrite app_nil_r, Hc.
      * destruct Hc as (E1 & s1 & Ea & El1 & ->).
        injection E1 as ->. inversion Gc as [|? ? Gc1 _]; subst.
        rewrite <- El1. apply update_anomaly_records_topk; auto.
        now rewrite Ea, El1.
Qed.

(** X15: for records whose revenue is a number (not a NaN), after any
    stream the anomaly list is exactly the first [anomaly_limit] entries of
    all the candidates of the stream sorted by (score descending, revenue
    descending), candidates with equal keys in the order they arrived: the
    bounded list loses nothing a full sort of every candidate would keep.
    For a limit of zero or below that is the empty list. *)
Theorem X15_anomalies_are_top_k (anomaly_limit top_products_limit : Z)
    (rs : list record) :
  Forall revenue_is_number rs ->
  let s0 := _reset_aggregations anomaly_limit top_products_limit in
  anomaly_records (process_chunk rs s0)
  = firstn (Z.to_nat anomaly_limit) (sort_anomalies (candidates rs s0)).
Proof.
  intros Hrs s0.
  apply (@process_chunk_topk rs s0 [] Hrs); [constructor|].
  cbn. now rewrite firstn_nil.
Qed.

(** X15 on an ordinary order followed by two copies of an anomalous one,
    under the limit 1. *)
Lemma X15_witness :
  Forall revenue_is_number [test_record; big_order; big_order]
  /\ let s0 := _reset_aggregations 1 10 in
     anomaly_records (process_chunk [test_record; big_order; big_order] s0)
     = firstn (Z.to_nat 1)
         (sort_anomalies (candidates [test_record; big_order; big_order] s0)).
Proof.
  assert (H : Forall revenue_is_number [test_record; big_order; big_order]).
  { repeat constructor; intros v E; injection E as <-; reflexivity. }
  split; [exact H|]. exact (@X15_anomalies_are_top_k 1 10 _ H).
Defined.

(** ** What an anomaly entry holds *)

Lemma statistical_checks_bounds rev q p s score reasons :
  fst (_statistical_anomaly_checks rev q p s) = Ok (score, reasons) ->
  Z.of_nat (List.length reasons) <= score <= 3 * Z.of_nat (List.length reasons)
  /\ score <= 7.
Proof.
  unfold _statistical_anomaly_checks, bind, get, lift, ret.
  destruct (float_div_int _ _); [|discriminate].
  destruct (fgt rev _); (destruct (int_truediv _ _); [|discriminate]);
    destruct (int_gt_float q _); (destruct (float_div_int _ _); [|discriminate]);
    destruct (fgt p _); cbn [fst]; intros H; injection H as <- <-;
    cbn [List.length app]; lia.
Qed.

Lemma anomaly_scoring_bounds rev q p d s score reasons :
  fst (anomaly_scoring rev q p d s) = Ok (score, reasons) ->
  Z.of_nat (List.length reasons) <= score <= 3 * Z.of_nat (List.length reasons)
  /\ score <= 13.
Proof.
  unfold anomaly_scoring, bind, get, ret.
  assert (D : forall sc rs, (sc, rs) = _discount_anomaly_checks p d ->
            Z.of_nat (List.length rs) <= sc <= 3 * Z.of_nat (List.length rs) /\ sc <= 3).
  { unfold _discount_anomaly_checks. intros sc rs.
    destruct (fgt d _), (float_gt_int p 1000 && fgt d 0.5);
      intros H; injection H as -> ->; cbn [List.length app]; lia. }
  assert (T : forall sc rs, (sc, rs) = _revenue_threshold_anomaly rev ->
            Z.of_nat (List.length rs) <= sc <= 3 * Z.of_nat (List.length rs) /\ sc <= 1).
  { unfold _revenue_threshold_anomaly. intros sc rs.
    destruct (float_gt_int rev 50000);
      intros H; injection H as -> ->; cbn [List.length]; lia. }
  assert (X : forall sc rs, (sc, rs) = _extreme_combination_anomaly q p ->
            Z.of_nat (List.length rs) <= sc <= 3 * Z.of_nat (List.length rs) /\ sc <= 2).
  { unfold _extreme_combination_anomaly. intros sc rs.
    destruct ((100 <? q) && float_gt_int p 500);
      intros H; injection H as -> ->; cbn [List.length]; lia. }
  destruct (_discount_anomaly_checks p d) as [sd rd].
  destruct (_revenue_threshold_anomaly rev) as [st rt].
  destruct (_extreme_combination_anomaly q p) as [sx rx].
  specialize (D sd rd eq_refl). specialize (T st rt eq_refl). specialize (X sx rx eq_refl).
  assert (S : forall ss rs, Z.of_nat (List.length rs) <= ss <= 3 * Z.of_nat (List.length rs)
                            /\ ss <= 7 ->
              Ok (ss + sd + st + sx, rs ++ rd ++ rt ++ rx) = Ok (score, reasons) ->
              Z.of_nat (List.length reasons) <= score <= 3 * Z.of_nat (List.length reasons)
              /\ score <= 13).
  { intros ss rs Hs H. injection H as <- <-.
    rewrite !length_app, !Nat2Z.inj_add. lia. }
  destruct (100 <? records_processed s).
  - pose proof (@statistical_checks_bounds rev q p s) as B.
    destruct (_statistical_anomaly_checks rev q p s) as [[[ss rs]|e] s1];
      cbn [fst snd] in *; [|discriminate].
    apply S. now apply B.
  - cbn [fst snd]. apply (S 0 []). cbn [List.length]. lia.
Qed.

Lemma candidate_of_entry r s x :
  In x (candidate_of r s) ->
  a_record x = r /\ required_present r = true
  /\ revenue r = Some (a_revenue x)
  /\ 2 <= anomaly_score x <= 13
  /\ Z.of_nat (List.length (anomaly_reasons x)) <= anomaly_score x
     <= 3 * Z.of_nat (List.length (anomaly_reasons x)).
Proof.
  unfold candidate_of, required_present.
  destruct (revenue r) as [rev|]; [|contradiction].
  destruct (quantity r) as [q|]; [|contradiction].
  destruct (unit_price r) as [p|]; [|contradiction].
  destruct (discount_percent r) as [d|]; [|contradiction].
  destruct (sale_date r) as [dt|]; [|contradiction].
  destruct (fst _) as [[score reasons]|e] eqn:E; [|contradiction].
  destruct (Z.leb_spec 2 score) as [H2|]; [|contradiction].
  intros [<-|[]]. cbn [a_record a_revenue anomaly_score anomaly_reasons].
  destruct (anomaly_scoring_bounds _ _ _ _ _ E) as [B1 B2].
  repeat split; try lia.
Qed.

Lemma update_anomaly_records_subset rec score rev s x :
  In x (anomaly_records (snd (_update_anomaly_records rec score rev s))) ->
  In x (anomaly_records s) \/ x = rec.
Proof.
  unfold _update_anomaly_records, bind, get, modify, ret, raise.
  destruct (Z.of_nat (List.length (anomaly_records s)) <? anomaly_limit s).
  - cbn [snd set_anomaly_records anomaly_records]. intros H.
    apply (Permutation_in _ (sort_desc_perm key_lt _)) in H.
    apply in_app_or in H. destruct H as [H|[H|[]]]; auto.
  - destruct (List.rev (anomaly_records s)) as [|worst t] eqn:Er; [now left|].
    destruct (_ || _); [|now left].
    destruct (rev_cons_app _ Er) as [El Erm].
    cbn [snd set_anomaly_records anomaly_records]. intros H.
    apply (Permutation_in _ (sort_desc_perm key_lt _)) in H.
    apply in_app_or in H. destruct H as [H|[H|[]]]; auto.
    left. rewrite El. apply in_or_app. left. now rewrite <- Erm.
Qed.

Lemma anomalies_are_candidates rs s x :
  In x (anomaly_records (process_chunk rs s)) ->
  In x (anomaly_records s) \/ In x (candidates rs s).
Proof.
  revert s. induction rs as [|r rs IH]; intros s; [now left|].
  change (process_chunk (r :: rs) s) with (process_chunk rs (process_record s r)).
  intros H. apply IH in H. cbn [candidates].
  destruct H as [H|H]; [|right; apply in_or_app; now right].
  destruct (process_record_anomalies s r) as [_ Hc].
  destruct (candidate_of r s) as [|c l].
  - left. now rewrite <- Hc.
  - destruct Hc as (E1 & s1 & Ea & _ & E). injection E1 as ->.
    rewrite E in H. apply update_anomaly_records_subset in H.
    destruct H as [H|H]; [left; now rewrite <- Ea|right; now left].
Qed.

Lemma candidates_entry rs s x :
  In x (candidates rs s) ->
  In (a_record x) (ingested rs)
  /\ revenue (a_record x) = Some (a_revenue x)
  /\ 2 <= anomaly_score x <= 13
  /\ Z.of_nat (List.length (anomaly_reasons x)) <= anomaly_score x
     <= 3 * Z.of_nat (List.length (anomaly_reasons x)).
Proof.
  revert s. induction rs as [|r rs IH]; intros s; [contradiction|].
  cbn [candidates]. intros H. apply in_app_or in H. destruct H as [H|H].
  - apply candidate_of_entry in H. destruct H as (E & G & H).
    rewrite E. split; [|exact H].
    unfold ingested. cbn [filter]. rewrite G. now left.
  - apply IH in H. destruct H as [H1 H2]. split; [|exact H2].
    unfold ingested in *. cbn [filter]. destruct (required_present r); [now right|exact H1].
Qed.

(** X14: every entry of the anomaly list is a candidate of the stream: its
    record is one of the ingested records, its revenue is the revenue of
    that record, its score lies between 2 and 13, and it carries at least
    one reason and at most as many reasons as its score, each rule adding
    between 1 and 3 to the score. *)
Theorem X14_anomaly_entries (anomaly_limit top_products_limit : Z)
    (rs : list record) :
  let s0 := _reset_aggregations anomaly_limit top_products_limit in
  Forall (fun x =>
            In x (candidates rs s0)
            /\ In (a_record x) (ingested rs)
            /\ revenue (a_record x) = Some (a_revenue x)
            /\ 2 <= anomaly_score x <= 13
            /\ Z.of_nat (List.length (anomaly_reasons x)) <= anomaly_score x
               <= 3 * Z.of_nat (List.length (anomaly_reasons x)))
         (anomaly_records (process_chunk rs s0)).
Proof.
  intros s0. apply Forall_forall. intros x Hx.
  apply anomalies_are_candidates in Hx. destruct Hx as [[]|Hx].
  split; [exact Hx|]. now apply candidates_entry in Hx.
Qed.

(** ** The cleaner and the aggregator reconciled *)

Import DataAggregator.

Lemma ingested_all rs :
  Forall (fun r => required_present r = true) rs -> ingested rs = rs.
Proof.
  induction 1 as [|r rs Hr _ IH]; [reflexivity|].
  unfold ingested in *. cbn [filter]. now rewrite Hr, IH.
Qed.

(** X16: a run from a fresh cleaner and a fresh aggregator leaves the
    aggregator in the state [process_chunk] reaches on the whole stream of
    cleaned records at once; every record the cleaner emits passes the guard
    of [_process_single_record], so the revenue tracker has counted, and the
    monthly buckets hold, exactly as many transactions as the cleaner
    reports in [records_cleaned], and the aggregator's [records_processed] is
    at most that number. *)
Theorem X16_pipeline_reconciles
    (float_of_str : string -> option float)
    (strptime : string -> string -> option datetime)
    (rows : list raw_row) (batch anomaly_limit top_products_limit : Z)
    (cfg : Config.config) :
  let s0 := _reset_aggregations anomaly_limit top_products_limit in
  let p := DataPipeline.mkPipeline batch cfg DataCleaner.init s0 in
  let p' := fst (DataPipeline.run float_of_str strptime rows p) in
  let cleaned := cleaned_records float_of_str strptime rows in
  let n := DataCleaner.records_cleaned (DataPipeline.cleaner p') in
  DataPipeline.aggregator p' = process_chunk cleaned s0
  /\ ingested cleaned = cleaned
  /\ count (revenue_stats (DataPipeline.aggregator p')) = n
  /\ dict_total m_num_transactions (monthly_sales (DataPipeline.aggregator p')) = n
  /\ records_processed (DataPipeline.aggregator p') <= n.
Proof.
  intros s0 p p' cleaned n.
  assert (Ea : DataPipeline.aggregator p' = process_chunk cleaned s0).
  { subst p'. unfold DataPipeline.run. cbn [fst].
    rewrite process_chunks_ingest. cbn zeta. cbn [DataPipeline.aggregator].
    subst p. cbn [DataPipeline.aggregator DataPipeline.cleaner].
    rewrite clean_chunk_ingest. reflexivity. }
  assert (Ei : ingested cleaned = cleaned)
    by (apply ingested_all, clean_chunk_present).
  assert (En : n = Z.of_nat (List.length cleaned)).
  { subst n p'. unfold DataPipeline.run. cbn [fst].
    rewrite process_chunks_ingest. cbn zeta. cbn [DataPipeline.cleaner].
    subst p. cbn [DataPipeline.aggregator DataPipeline.cleaner].
    rewrite clean_chunk_ingest. cbn [fst].
    destruct (clean_chunk_counters float_of_str strptime rows DataCleaner.init)
      as (H1 & H2 & H3).
    fold (cleaned_records float_of_str strptime rows) in H2, H3. fold cleaned in H2, H3.
    unfold DataCleaner.records_cleaned. rewrite H1, H2. cbn. lia. }
  split; [exact Ea|]. split; [exact Ei|].
  rewrite Ea, En.
  assert (G : forall s,
    dict_total m_num_transactions (monthly_sales (process_chunk cleaned s))
    = dict_total m_num_transactions (monthly_sales s)
      + Z.of_nat (List.length (ingested cleaned))
    /\ records_processed (process_chunk cleaned s)
       <= records_processed s + Z.of_nat (List.length (ingested cleaned))).
  { clear. induction cleaned as [|r rs IH]; intros s.
    - cbn [process_chunk fold_left ingested filter List.length Z.of_nat]. lia.
    - change (process_chunk (r :: rs) s) with (process_chunk rs (process_record s r)).
      specialize (IH (process_record s r)).
      pose proof (process_record_counters s r) as Hr. cbv zeta in Hr.
      unfold ingested in *. cbn [filter].
      destruct (required_present r); cbn [List.length];
        rewrite ?Nat2Z.inj_succ; lia. }
  destruct (G s0) as [G1 G2]. rewrite Ei in G1, G2.
  rewrite revenue_count_after_chunk, Ei.
  subst s0. cbn [_reset_aggregations revenue_stats count monthly_sales
                 records_processed dict_total fold_right] in *.
  repeat split; lia.
Qed.

(** ** Month keys *)

Import DataAggregator.

Lemma digit_compare a b :
  0 <= a <= 9 -> 0 <= b <= 9 ->
  Ascii.compare (digit a) (digit b) = (a ?= b).
Proof.
  intros Ha Hb.
  assert (A : a = 0 \/ a = 1 \/ a = 2 \/ a = 3 \/ a = 4 \/ a = 5 \/ a = 6 \/ a = 7
              \/ a = 8 \/ a = 9) by lia.
  assert (B : b = 0 \/ b = 1 \/ b = 2 \/ b = 3 \/ b = 4 \/ b = 5 \/ b = 6 \/ b = 7
              \/ b = 8 \/ b = 9) by lia.
  repeat (destruct A as [->|A]); try subst a;
    repeat (destruct B as [->|B]); try subst b; reflexivity.
Qed.

Lemma digit_mod n : digit n = digit (n mod 10).
Proof. unfold digit. now rewrite Z.mod_mod by lia. Qed.

Lemma string_compare_cons a s b t :
  String.compare (String a s) (String b t)
  = match Ascii.compare a b with Eq => String.compare s t | c => c end.
Proof. reflexivity. Qed.

Lemma month_key_compare d1 d2 :
  four_digit_year d1 -> four_digit_year d2 ->
  String.compare (month_key d1) (month_key d2) = (month_index d1 ?= month_index d2).
Proof.
  intros [Hy1 Hm1] [Hy2 Hm2]. unfold month_key, month_index.
  rewrite (digit_mod (year d1 / 1000)), (digit_mod (year d1 / 100)),
    (digit_mod (year d1 / 10)), (digit_mod (year d1)),
    (digit_mod (month d1 / 10)), (digit_mod (month d1)),
    (digit_mod (year d2 / 1000)), (digit_mod (year d2 / 100)),
    (digit_mod (year d2 / 10)), (digit_mod (year d2)),
    (digit_mod (month d2 / 10)), (digit_mod (month d2)).
  set (a1 := (year d1 / 1000) mod 10). set (b1 := (year d1 / 100) mod 10).
  set (c1 := (year d1 / 10) mod 10). set (e1 := year d1 mod 10).
  set (f1 := (month d1 / 10) mod 10). set (g1 := month d1 mod 10).
  set (a2 := (year d2 / 1000) mod 10). set (b2 := (year d2 / 100) mod 10).
  set (c2 := (year d2 / 10) mod 10). set (e2 := year d2 mod 10).
  set (f2 := (month d2 / 10) mod 10). set (g2 := month d2 mod 10).
  assert (Y1 : year d1 = 1000 * a1 + 100 * b1 + 10 * c1 + e1
               /\ 0 <= a1 <= 9 /\ 0 <= b1 <= 9 /\ 0 <= c1 <= 9 /\ 0 <= e1 <= 9)
    by (subst a1 b1 c1 e1; Z.to_euclidean_division_equations; lia).
  assert (M1 : month d1 = 10 * f1 + g1 /\ 0 <= f1 <= 9 /\ 0 <= g1 <= 9)
    by (subst f1 g1; Z.to_euclidean_division_equations; lia).
  assert (Y2 : year d2 = 1000 * a2 + 100 * b2 + 10 * c2 + e2
               /\ 0 <= a2 <= 9 /\ 0 <= b2 <= 9 /\ 0 <= c2 <= 9 /\ 0 <= e2 <= 9)
    by (subst a2 b2 c2 e2; Z.to_euclidean_division_equations; lia).
  assert (M2 : month d2 = 10 * f2 + g2 /\ 0 <= f2 <= 9 /\ 0 <= g2 <= 9)
    by (subst f2 g2; Z.to_euclidean_division_equations; lia).
  clearbody a1 b1 c1 e1 f1 g1 a2 b2 c2 e2 f2 g2.
  destruct Y1 as (Ey1 & ? & ? & ? & ?), M1 as (Em1 & ? & ?),
           Y2 as (Ey2 & ? & ? & ? & ?), M2 as (Em2 & ? & ?).
  rewrite !string_compare_cons, !digit_compare by assumption.
  change (Ascii.compare "-" "-") with Eq. cbv iota.
  change (String.compare "" "") with Eq.
  rewrite Ey1, Em1, Ey2, Em2.
  destruct (Z.compare_spec a1 a2); [subst|symmetry; apply Z.compare_lt_iff; lia
                                    |symmetry; apply Z.compare_gt_iff; lia].
  destruct (Z.compare_spec b1 b2); [subst|symmetry; apply Z.compare_lt_iff; lia
                                    |symmetry; apply Z.compare_gt_iff; lia].
  destruct (Z.compare_spec c1 c2); [subst|symmetry; apply Z.compare_lt_iff; lia
                                    |symmetry; apply Z.compare_gt_iff; lia].
  destruct (Z.compare_spec e1 e2); [subst|symmetry; apply Z.compare_lt_iff; lia
                                    |symmetry; apply Z.compare_gt_iff; lia].
  destruct (Z.compare_spec f1 f2); [subst|symmetry; apply Z.compare_lt_iff; lia
                                    |symmetry; apply Z.compare_gt_iff; lia].
  destruct (Z.compare_spec g1 g2); [subst|symmetry; apply Z.compare_lt_iff; lia
                                    |symmetry; apply Z.compare_gt_iff; lia].
  symmetry. apply Z.compare_eq_iff. reflexivity.
Qed.

Lemma string_compare_refl s : String.compare s s = Eq.
Proof.
  induction s as [|x s IH]; [reflexivity|].
  rewrite string_compare_cons. unfold Ascii.compare. now rewrite N.compare_refl.
Qed.

Lemma string_ltb_trans a b c :
  String.ltb a b = true -> String.ltb b c = true -> String.ltb a c = true.
Proof.
  unfold String.ltb. revert b c.
  induction a as [|x a IH]; intros [|y b] [|z c]; try discriminate; try reflexivity.
  rewrite !string_compare_cons. unfold Ascii.compare.
  specialize (IH b c).
  destruct (N.compare_spec (N_of_ascii x) (N_of_ascii y)) as [E1|E1|E1];
    destruct (N.compare_spec (N_of_ascii y) (N_of_ascii z)) as [E2|E2|E2];
    destruct (N.compare_spec (N_of_ascii x) (N_of_ascii z)) as [E3|E3|E3];
    try discriminate; try reflexivity; try lia; auto.
Qed.

Lemma string_ltb_total a b :
  String.ltb a b = false -> a = b \/ String.ltb b a = true.
Proof.
  unfold String.ltb. rewrite (String.compare_antisym a b).
  destruct (String.compare b a) eqn:E; cbn [CompOpp]; try discriminate.
  - left. symmetry. now apply String.compare_eq_iff.
  - now right.
Qed.

Lemma string_ltb_irrefl a : String.ltb a a = false.
Proof. unfold String.ltb. now rewrite string_compare_refl. Qed.

Lemma string_ltb_asym a b : String.ltb a b = true -> String.ltb b a = false.
Proof.
  intros H. destruct (String.ltb b a) eqn:E; [|reflexivity].
  rewrite <- (string_ltb_irrefl a). symmetry. now apply string_ltb_trans with b.
Qed.

Lemma string_leb_trans a b c :
  String.ltb b a = false -> String.ltb c b = false -> String.ltb c a = false.
Proof.
  intros H1 H2. destruct (String.ltb c a) eqn:E; [|reflexivity].
  destruct (string_ltb_total _ _ H1) as [->|H1']; [congruence|].
  destruct (string_ltb_total _ _ H2) as [->|H2']; [congruence|].
  rewrite (string_ltb_trans _ _ _ H2' E) in H1. discriminate.
Qed.

(** X17: for dates whose year has four digits, the month key
    ["YYYY-MM"] of the monthly buckets identifies the calendar month (two
    dates get the same key exactly when they agree on year and month), the
    order of the keys as strings is the chronological order of the months,
    and a key has 7 characters. *)
Theorem X17_month_key_order (d1 d2 : datetime) :
  four_digit_year d1 -> four_digit_year d2 ->
  (month_key d1 = month_key d2 <-> year d1 = year d2 /\ month d1 = month d2)
  /\ String.ltb (month_key d1) (month_key d2) = (month_index d1 <? month_index d2)
  /\ String.length (month_key d1) = 7%nat.
Proof.
  intros H1 H2. pose proof (month_key_compare H1 H2) as C.
  split; [|split; [|reflexivity]].
  - split.
    + intros E. rewrite E, string_compare_refl in C.
      symmetry in C. apply Z.compare_eq_iff in C.
      unfold month_index, four_digit_year in *. lia.
    + intros [Ey Em]. apply String.compare_eq_iff. rewrite C.
      apply Z.compare_eq_iff. unfold month_index. now rewrite Ey, Em.
  - unfold String.ltb, Z.ltb. now rewrite C.
Qed.

(** X17 on the last second of 2023 and the first of 2024. *)
Lemma X17_witness :
  let d1 := mkDatetime 2023 12 31 23 59 59 in
  let d2 := mkDatetime 2024 1 1 0 0 0 in
  four_digit_year d1 /\ four_digit_year d2
  /\ String.ltb (month_key d1) (month_key d2) = true
  /\ (month_key d1 = month_key d2 <-> year d1 = year d2 /\ month d1 = month d2).
Proof.
  intros d1 d2.
  assert (H1 : four_digit_year d1) by (unfold four_digit_year; cbn; lia).
  assert (H2 : four_digit_year d2) by (unfold four_digit_year; cbn; lia).
  destruct (X17_month_key_order H1 H2) as (W1 & W2 & _).
  split; [exact H1|]. split; [exact H2|]. split; [rewrite W2; reflexivity|exact W1].
Defined.

(** ** The rows of the output files *)

Lemma dict_get_NoDup (K V : Type) (eqb : K -> K -> bool) (d : dict K V) k v :
  (forall a b, eqb a b = true <-> a = b) ->
  NoDup (dict_keys d) -> In (k, v) d -> dict_get eqb d k = Some v.
Proof.
  intros Heq. unfold dict_keys.
  induction d as [|[k0 v0] t IH]; intros Hn Hin; [contradiction|].
  cbn [map fst] in Hn. inversion Hn as [|? ? Hk Ht]; subst.
  cbn [dict_get]. destruct Hin as [E|Hin].
  - injection E as -> ->. replace (eqb k k) with true by (symmetry; now apply Heq).
    reflexivity.
  - destruct (eqb k k0) eqn:E.
    + apply Heq in E. subst k0. exfalso. apply Hk.
      change k with (fst (k, v)). now apply in_map.
    + now apply IH.
Qed.

Lemma monthly_keys_after al tl rs :
  dict_keys (monthly_sales (process_chunk rs (_reset_aggregations al tl)))
  = distinct_months rs.
Proof.
  rewrite (keys_after_chunk String.eqb month_of
             (fun s => dict_keys (monthly_sales s)) monthly_keys_step).
  reflexivity.
Qed.

Lemma StronglySorted_strict (A : Type) (key : A -> string) l :
  NoDup (map key l) ->
  StronglySorted (fun a b => String.ltb (key b) (key a) = false) l ->
  StronglySorted (fun a b => String.ltb (key a) (key b) = true) l.
Proof.
  intros Hn Hs. induction Hs as [|x t Ht IH Hall]; [constructor|].
  cbn [map] in Hn. inversion Hn as [|? ? Hx Hnt]; subst.
  constructor; [now apply IH|].
  rewrite Forall_forall in *. intros y Hy.
  destruct (string_ltb_total _ _ (Hall y Hy)) as [E|E]; [|exact E].
  exfalso. apply Hx. rewrite <- E. now apply in_map.
Qed.

(** X18: the rows [save_monthly_sales] writes are one row per distinct
    month of the stream, in strictly increasing order of the month key, and
    each row carries the finalized revenue, quantity and average discount of
    its month. *)
Theorem X18_monthly_rows (anomaly_limit top_products_limit : Z) (rs : list record) :
  let s := process_chunk rs (_reset_aggregations anomaly_limit top_products_limit) in
  let data := f_monthly_sales (finalize_aggregations s) in
  let rows := DataSaver.save_monthly_sales data in
  Permutation (map DataSaver.mr_month rows) (distinct_months rs)
  /\ StronglySorted
       (fun a b => String.ltb (DataSaver.mr_month a) (DataSaver.mr_month b) = true) rows
  /\ Forall (fun row =>
               dict_get String.eqb data (DataSaver.mr_month row)
               = Some (mkMonthlyFinal (DataSaver.mr_revenue row)
                         (DataSaver.mr_quantity row) (DataSaver.mr_avg_discount row)))
            rows.
Proof.
  intros s data rows.
  set (mk := fun kv : string * monthly_final =>
               DataSaver.mkMonthlyRow (fst kv) (mf_revenue (snd kv))
                 (mf_quantity (snd kv)) (mf_avg_discount (snd kv))).
  assert (Hperm : Permutation rows (map mk data))
    by apply sort_desc_perm.
  assert (Ek : map DataSaver.mr_month (map mk data) = distinct_months rs).
  { rewrite map_map. cbn [mk DataSaver.mr_month].
    unfold data, finalize_aggregations. cbn [f_monthly_sales].
    rewrite map_map. cbn [fst].
    apply (monthly_keys_after anomaly_limit top_products_limit rs). }
  assert (Pk : Permutation (map DataSaver.mr_month rows) (distinct_months rs))
    by (rewrite <- Ek; now apply Permutation_map).
  assert (Nk : NoDup (distinct_months rs))
    by (apply first_seen_NoDup, String.eqb_eq).
  split; [exact Pk|]. split.
  - apply StronglySorted_strict.
    + eapply Permutation_NoDup; [symmetry; exact Pk|exact Nk].
    + apply (@sorted_strongly _ (fun a b => DataSaver.month_lt b a) (fun _ => True)).
      * intros x y z _ _ _. unfold DataSaver.month_lt. apply string_leb_trans.
      * apply Forall_forall. auto.
      * apply sort_desc_sorted. intros x y. unfold DataSaver.month_lt.
        apply string_ltb_asym.
  - apply Forall_forall. intros row Hrow.
    apply (Permutation_in _ Hperm), in_map_iff in Hrow.
    destruct Hrow as ([k [rev q avg]] & <- & Hin).
    cbn [mk fst snd mf_revenue mf_quantity mf_avg_discount DataSaver.mr_month
         DataSaver.mr_revenue DataSaver.mr_quantity DataSaver.mr_avg_discount].
    apply dict_get_NoDup; [apply String.eqb_eq| |exact Hin].
    unfold dict_keys. unfold data, finalize_aggregations. cbn [f_monthly_sales].
    rewrite map_map. cbn [fst].
    change (map (fun x => fst x) (monthly_sales s)) with (dict_keys (monthly_sales s)).
    unfold s. rewrite monthly_keys_after. exact Nk.
Qed.

Lemma ranked_rows (A : Type) (key : A -> float) (l : list A) :
  Forall (fun a => is_nan (key a) = false) l ->
  let lt := fun a b => PrimFloat.ltb (key a) (key b) in
  Permutation (sort_desc lt l) l
  /\ Sorted (fun a b => fge (key a) (key b) = true) (sort_desc lt l).
Proof.
  intros Hg lt.
  assert (Hasym : forall x y, lt x y = true -> lt y x = false)
    by (intros x y; apply ltb_asym).
  split; [apply sort_desc_perm|].
  apply (@Sorted_weaken _ (not_below lt) _ (fun a => is_nan (key a) = false)).
  - intros a b Ga Gb. now apply ltb_false_fge.
  - eapply Permutation_Forall; [symmetry; apply sort_desc_perm|exact Hg].
  - now apply sort_desc_sorted.
Qed.

(** X19: when the summed revenues of the regions and the average discounts
    of the categories are numbers (not NaN), the rows
    [save_region_performance] writes are one row per distinct region of the
    stream in descending order of revenue, and the rows
    [save_category_discounts] writes are one row per distinct category in
    descending order of average discount. *)
Theorem X19_ranked_rows (anomaly_limit top_products_limit : Z) (rs : list record) :
  let s := process_chunk rs (_reset_aggregations anomaly_limit top_products_limit) in
  let fin := finalize_aggregations s in
  let regions := DataSaver.save_region_performance (f_region_sales fin) in
  let categories := DataSaver.save_category_discounts (f_category_discounts fin) in
  Forall (fun kv => is_nan (s_revenue (snd kv)) = false) (f_region_sales fin) ->
  Forall (fun kv => is_nan (snd kv) = false) (f_category_discounts fin) ->
  Permutation (map DataSaver.sr_key regions) (distinct_regions rs)
  /\ Sorted (fun a b => fge (DataSaver.sr_revenue a) (DataSaver.sr_revenue b) = true)
       regions
  /\ Permutation (map DataSaver.cr_category categories) (distinct_categories rs)
  /\ Sorted (fun a b => fge (DataSaver.cr_avg_discount a) (DataSaver.cr_avg_discount b)
                        = true) categories.
Proof.
  intros s fin regions categories Hr Hc.
  assert (Kr : dict_keys (region_sales s) = distinct_regions rs).
  { unfold s.
    rewrite (keys_after_chunk okey_eqb region
               (fun s => dict_keys (region_sales s)) region_keys_step).
    reflexivity. }
  assert (Kc : dict_keys (category_discounts s) = distinct_categories rs).
  { unfold s.
    rewrite (keys_after_chunk okey_eqb category
               (fun s => dict_keys (category_discounts s)) category_keys_step).
    reflexivity. }
  destruct (@ranked_rows _ DataSaver.sr_revenue
              (map DataSaver.sales_row_of (f_region_sales fin))) as (P1 & S1).
  { apply Forall_forall. intros row Hrow. apply in_map_iff in Hrow.
    destruct Hrow as (kv & <- & Hin). rewrite Forall_forall in Hr. now apply Hr. }
  destruct (@ranked_rows _ DataSaver.cr_avg_discount
              (map (fun kv => DataSaver.mkCategoryRow (fst kv) (snd kv))
                   (f_category_discounts fin))) as (P2 & S2).
  { apply Forall_forall. intros row Hrow. apply in_map_iff in Hrow.
    destruct Hrow as (kv & <- & Hin). rewrite Forall_forall in Hc. now apply Hc. }
  split; [|split; [exact S1|split; [|exact S2]]].
  - rewrite <- Kr. unfold regions, DataSaver.save_region_performance.
    rewrite (Permutation_map DataSaver.sr_key P1), map_map. reflexivity.
  - rewrite <- Kc. unfold categories, DataSaver.save_category_discounts.
    rewrite (Permutation_map DataSaver.cr_category P2), map_map.
    unfold fin, finalize_aggregations. cbn [f_category_discounts].
    rewrite map_map. reflexivity.
Qed.

(** X19 on three orders of one region and one category. *)
Lemma X19_witness :
  let s := process_chunk tie_orders (_reset_aggregations 5 2) in
  let fin := finalize_aggregations s in
  let regions := DataSaver.save_region_performance (f_region_sales fin) in
  let categories := DataSaver.save_category_discounts (f_category_discounts fin) in
  Forall (fun kv => is_nan (s_revenue (snd kv)) = false) (f_region_sales fin)
  /\ Forall (fun kv => is_nan (snd kv) = false) (f_category_discounts fin)
  /\ regions = [DataSaver.mkSalesRow (Some "North") 400 4]
  /\ Permutation (map DataSaver.sr_key regions) (distinct_regions tie_orders)
  /\ Permutation (map DataSaver.cr_category categories) (distinct_categories tie_orders).
Proof.
  intros s fin regions categories.
  assert (H1 : Forall (fun kv => is_nan (s_revenue (snd kv)) = false) (f_region_sales fin))
    by (vm_compute; repeat constructor).
  assert (H2 : Forall (fun kv => is_nan (snd kv) = false) (f_category_discounts fin))
    by (vm_compute; repeat constructor).
  destruct (@X19_ranked_rows 5 2 tie_orders H1 H2) as (W1 & _ & W2 & _).
  split; [exact H1|]. split; [exact H2|].
  split; [vm_compute; reflexivity|]. split; [exact W1|exact W2].
Defined.

(** ** The exceptions of one record *)

Import DataAggregator.

Lemma statistical_checks_raises rev q p s e :
  count (revenue_stats s) <> 0 -> count (quantity_stats s) <> 0 ->
  count (price_stats s) <> 0 ->
  fst (_statistical_anomaly_checks rev q p s) = Raise e -> e = OverflowError.
Proof.
  intros Hr Hq Hp. unfold _statistical_anomaly_checks, bind, get, lift, ret.
  destruct (float_div_int _ (count (revenue_stats s))) as [a|e1] eqn:E1.
  - assert (Q : forall T (k : float -> aggregator -> result T * aggregator),
              fst (match int_truediv (total (quantity_stats s)) (count (quantity_stats s)) with
                   | Ok a0 => k a0 s
                   | Raise e0 => (Raise e0, s)
                   end) = Raise e ->
              (forall a0, fst (k a0 s) = Raise e -> e = OverflowError) ->
              e = OverflowError).
    { intros T k. destruct (int_truediv _ _) as [a0|e0] eqn:E2.
      - intros H K. now apply (K a0).
      - cbn [fst]. intros H _. injection H as <-.
        eapply int_truediv_raises; [|exact E2]. exact Hq. }
    assert (P : forall (sc : Z) (rs : list reason),
              fst (match float_div_int (total (price_stats s)) (count (price_stats s)) with
                   | Ok a1 =>
                       (let '(score, reasons) :=
                          if fgt p (fmul_int a1 5)
                          then (sc + 2, rs ++ [ExtremelyHighUnitPrice p a1])
                          else (sc, rs) in
                        fun s0 : aggregator => (Ok (score, reasons), s0)) s
                   | Raise e0 => (Raise e0, s)
                   end) = Raise e -> e = OverflowError).
    { intros sc rs. destruct (float_div_int _ (count (price_stats s))) as [a1|e0] eqn:E3.
      - destruct (fgt p _); discriminate.
      - cbn [fst]. intros H. injection H as <-.
        eapply float_div_int_raises; [|exact E3]. exact Hp. }
    destruct (fgt rev _); intros H; apply Q in H; try exact H;
      intros a0; destruct (int_gt_float q _); apply P.
  - cbn [fst]. intros H. injection H as <-.
    eapply float_div_int_raises; [|exact E1]. exact Hr.
Qed.

Lemma counts_after_chunk rs s :
  let s' := process_chunk rs s in
  let n := Z.of_nat (List.length (ingested rs)) in
  count (revenue_stats s') = count (revenue_stats s) + n
  /\ count (quantity_stats s') = count (quantity_stats s) + n
  /\ count (price_stats s') = count (price_stats s) + n.
Proof.
  cbv zeta. revert s. induction rs as [|r rs IH]; intros s.
  - cbn [process_chunk fold_left ingested filter List.length Z.of_nat]. lia.
  - change (process_chunk (r :: rs) s) with (process_chunk rs (process_record s r)).
    destruct (IH (process_record s r)) as (I1 & I2 & I3). rewrite I1, I2, I3.
    generalize (process_record_aggregates s r). cbv zeta.
    unfold ingested. cbn [filter].
    destruct (required_present r).
    + intros (_ & _ & _ & _ & H1 & H2 & H3). rewrite H1, H2, H3.
      cbn [update_stat count List.length]. rewrite Nat2Z.inj_succ. lia.
    + intros ->. lia.
Qed.

(** X20: in any state reached from a fresh aggregator,
    [_process_single_record] can raise only three exceptions: [ValueError]
    when a required field of the record is missing, the state being left
    untouched; [OverflowError], from a running mean that does not fit a
    float, and only once more than 100 records have been processed;
    [IndexError], only when the anomaly limit is zero or negative and the
    anomaly list is empty.  It never divides by zero. *)
Theorem X20_exceptions_of_a_record (anomaly_limit top_products_limit : Z)
    (rs : list record) (r : record) (e : exn) (s' : aggregator) :
  let s := process_chunk rs (_reset_aggregations anomaly_limit top_products_limit) in
  _process_single_record r s = (Raise e, s') ->
  (e = ValueError /\ required_present r = false /\ s' = s)
  \/ (e = OverflowError /\ required_present r = true /\ 100 < records_processed s)
  \/ (e = IndexError /\ required_present r = true /\ anomaly_limit <= 0
      /\ anomaly_records s = []).
Proof.
  intros s H.
  destruct (required_present r) eqn:G.
  - right.
    destruct (required_present_fields r G) as (rev & q & p & d & dt & H1 & H2 & H3 & H4 & H5).
    rewrite (process_single_present r s H1 H2 H3 H4 H5) in H.
    destruct (aggregates_after_anomaly r rev q p d dt s) as (Ea & El & _ & Er).
    assert (Ec : count (revenue_stats (aggregates_after r rev q p d dt s))
                 = count (revenue_stats s) + 1
                 /\ count (quantity_stats (aggregates_after r rev q p d dt s))
                    = count (quantity_stats s) + 1
                 /\ count (price_stats (aggregates_after r rev q p d dt s))
                    = count (price_stats s) + 1) by (repeat split).
    destruct (counts_after_chunk rs
                (_reset_aggregations anomaly_limit top_products_limit)) as (C1 & C2 & C3).
    fold s in C1, C2, C3.
    cbn [_reset_aggregations revenue_stats quantity_stats price_stats count] in C1, C2, C3.
    destruct (process_chunk_limits rs
                (_reset_aggregations anomaly_limit top_products_limit)) as [L _].
    fold s in L. cbn [_reset_aggregations DataAggregator.anomaly_limit] in L.
    set (s1 := aggregates_after r rev q p d dt s) in *.
    destruct Ec as (Ec1 & Ec2 & Ec3).
    unfold _detect_and_update_anomalies, anomaly_scoring, bind, get, ret in H.
    rewrite Er in H.
    destruct (Z.ltb_spec 100 (records_processed s)) as [Hw|Hw].
    + pose proof (@statistical_checks_raises rev q p s1) as B.
      pose proof (statistical_checks_state rev q p s1) as St.
      destruct (_statistical_anomaly_checks rev q p s1) as [[[ss rsn]|e1] s2];
        cbn [fst snd] in *; subst s2.
      * destruct (2 <=? _); [|discriminate].
        unfold _update_anomaly_records, bind, get, modify, ret, raise in H.
        rewrite Ea, El, L in H.
        destruct (Z.ltb_spec (Z.of_nat (List.length (anomaly_records s))) anomaly_limit)
          as [Hlt|Hge]; [discriminate|].
        destruct (List.rev (anomaly_records s)) as [|worst t] eqn:Erev.
        -- right. injection H as <- _.
           assert (En : anomaly_records s = [])
             by (rewrite <- (rev_involutive (anomaly_records s)), Erev; reflexivity).
           rewrite En in Hge. cbn in Hge. repeat split; auto.
        -- destruct (_ || _); discriminate.
      * left. injection H as <- _. split; [|split; [reflexivity|exact Hw]].
        apply B; [lia|lia|lia|reflexivity].
    + cbn [fst snd] in H.
      destruct (2 <=? _); [|discriminate].
      unfold _update_anomaly_records, bind, get, modify, ret, raise in H.
      rewrite Ea, El, L in H.
      destruct (Z.ltb_spec (Z.of_nat (List.length (anomaly_records s))) anomaly_limit)
        as [Hlt|Hge]; [discriminate|].
      destruct (List.rev (anomaly_records s)) as [|worst t] eqn:Erev.
      * right. injection H as <- _.
        assert (En : anomaly_records s = [])
          by (rewrite <- (rev_involutive (anomaly_records s)), Erev; reflexivity).
        rewrite En in Hge. cbn in Hge. repeat split; auto.
      * destruct (_ || _); discriminate.
  - left. rewrite (process_single_missing r s G) in H.
    injection H as <- <-. repeat split.
Qed.

(** X20 on an anomalous order that meets a fresh aggregator of limit 0. *)
Lemma X20_witness :
  let s := process_chunk [] (_reset_aggregations 0 10) in
  let s' := snd (_process_single_record big_order s) in
  _process_single_record big_order s = (Raise IndexError, s')
  /\ ((IndexError = ValueError /\ required_present big_order = false /\ s' = s)
      \/ (IndexError = OverflowError /\ required_present big_order = true
          /\ 100 < records_processed s)
      \/ (IndexError = IndexError /\ required_present big_order = true /\ 0 <= 0
          /\ anomaly_records s = [])).
Proof.
  intros s s'.
  assert (H : _process_single_record big_order s = (Raise IndexError, s'))
    by (vm_compute; reflexivity).
  split; [exact H|]. exact (@X20_exceptions_of_a_record 0 10 [] big_order _ _ H).
Defined.

(** ** A negative top-products limit *)

Lemma product_keys_after al tl rs :
  dict_keys (product_sales (process_chunk rs (_reset_aggregations al tl)))
  = distinct_products rs.
Proof.
  rewrite (keys_after_chunk okey_eqb product_name
             (fun s => dict_keys (product_sales s)) product_keys_step).
  reflexivity.
Qed.

(** X21: with a negative [top_products_limit] the slice
    [[:top_products_limit]] does not fail and does not yield an empty list in
    general: the top-products list is the descending ranking of all the
    products without its last [-top_products_limit] entries. *)
Theorem X21_negative_top_products_limit (anomaly_limit top_products_limit : Z)
    (rs : list record) :
  top_products_limit < 0 ->
  let s := process_chunk rs (_reset_aggregations anomaly_limit top_products_limit) in
  let top := top_products (finalize_aggregations s) in
  let n := List.length (distinct_products rs) in
  top = firstn (n - Z.to_nat (- top_products_limit))
          (sort_desc revenue_lt (product_sales s))
  /\ List.length top = (n - Z.to_nat (- top_products_limit))%nat.
Proof.
  intros Hneg s top n.
  destruct (process_chunk_limits rs
              (_reset_aggregations anomaly_limit top_products_limit)) as [_ Lt].
  fold s in Lt. cbn [_reset_aggregations DataAggregator.top_products_limit] in Lt.
  assert (En : List.length (product_sales s) = n).
  { unfold n. rewrite <- (product_keys_after anomaly_limit top_products_limit rs).
    fold s. symmetry. apply dict_keys_length. }
  assert (Et : top = firstn (n - Z.to_nat (- top_products_limit))
                       (sort_desc revenue_lt (product_sales s))).
  { unfold top, finalize_aggregations. cbn [top_products]. rewrite Lt.
    unfold slice_to. destruct (Z.leb_spec 0 top_products_limit) as [|_]; [lia|].
    rewrite sort_desc_length, En. f_equal. lia. }
  split; [exact Et|].
  rewrite Et, length_firstn, sort_desc_length, En. lia.
Qed.

(** X21 on three products under the limit -1: the lowest-ranked is left
    out. *)
Lemma X21_witness :
  let s := process_chunk tie_orders (_reset_aggregations 5 (-1)) in
  let top := top_products (finalize_aggregations s) in
  -1 < 0
  /\ top = [(Some "B", mkSales 200 2); (Some "A", mkSales 100 1)]
  /\ List.length top
     = (List.length (distinct_products tie_orders) - 1)%nat.
Proof.
  intros s top.
  assert (H : -1 < 0) by lia.
  destruct (@X21_negative_top_products_limit 5 (-1) tie_orders H) as [_ W].
  split; [exact H|]. split; [vm_compute; reflexivity|exact W].
Defined.
